(** * Fictionary Battle: the game session orchestrator

  A shallow embedding of [server/storage.ts] (class [MemStorage]) and of
  [server/websocket.ts] (the message handler of [setupWebSocketServer] and
  [broadcastGameState]), with the record types of [@shared/schema]; then
  the user and game-code methods of [MemStorage], [broadcastToRoom], and,
  of the browser, the getters of [useGameStore] and the shuffle of the
  voting and results screens.

  Conventions.
  - JavaScript numbers that carry identifiers, rounds, phases and scores
    are integers ([Z]), read in the range where a number holds an integer
    exactly (below 2^53 in absolute value): there [+] is the addition of
    integers and a template literal prints every digit.  An absent payload
    field ([undefined]) is [None].
  - A JavaScript [Map] keeps insertion order, [set] on a present key
    replaces the value in place, [delete] removes the entry: it is an
    association list ([JsMap]).  A [Set] of strings is a duplicate-free
    list in insertion order.
  - The model is sequential: a handler runs to its end before the next
    event is taken, so it is a function from the world before the event to
    the world after it.  ([MemStorage] awaits nothing but resolved promises;
    handlers that overlap at an [await] are not modelled.)
  - A storage method that throws does so before it mutates anything; the
    handler's [try]/[catch] keeps what earlier calls already wrote.
  - Payload fields are read at the type the schema gives them; strings are
    sequences of code units below 256. *)

From Stdlib Require Import ZArith List String Ascii Bool Lia DecimalString Permutation.
Import ListNotations.
Open Scope Z_scope.


(* ------------------------------------------------------------------ *)
(** ** JavaScript values *)

Module Js.

(** [x || 1] on a number that may be absent: [0] and [undefined] are falsy. *)
Definition or_one (x : option Z) : Z :=
  match x with
  | Some n => if n =? 0 then 1 else n
  | None => 1
  end.

(** [x ?? d]. *)
Definition nullish {A : Type} (x : option A) (d : A) : A :=
  match x with Some a => a | None => d end.

(** Truthiness of a number and of a string. *)
Definition truthy_num (x : option Z) : option Z :=
  match x with
  | Some n => if n =? 0 then None else Some n
  | None => None
  end.

Definition truthy_str (x : option string) : option string :=
  match x with
  | Some s => if String.eqb s EmptyString then None else Some s
  | None => None
  end.

(** White space removed by [String.prototype.trim], for code units
    below 256: TAB, LF, VT, FF, CR, SP and NBSP. *)
Definition is_space (c : ascii) : bool :=
  let n := nat_of_ascii c in
  ((9 <=? n)%nat && (n <=? 13)%nat) || (n =? 32)%nat || (n =? 160)%nat.

Fixpoint trim_start (s : string) : string :=
  match s with
  | EmptyString => EmptyString
  | String c r => if is_space c then trim_start r else s
  end.

Definition rev (s : string) : string :=
  string_of_list_ascii (List.rev (list_ascii_of_string s)).

Definition trim (s : string) : string :=
  rev (trim_start (rev (trim_start s))).

(** Template-literal rendering of an integer (below 1e21 in absolute value,
    where JavaScript prints no exponent). *)
Definition show (n : Z) : string := NilZero.string_of_int (Z.to_int n).

End Js.

(* ------------------------------------------------------------------ *)
(** ** [Map<K, V>] in insertion order *)

Module JsMap.
Section Ops.
Variables K V : Type.
Variable eqb : K -> K -> bool.

Definition t := list (K * V).

Fixpoint get (k : K) (m : t) : option V :=
  match m with
  | [] => None
  | (k', v) :: r => if eqb k k' then Some v else get k r
  end.

Definition has (k : K) (m : t) : bool :=
  match get k m with Some _ => true | None => false end.

(** [set] keeps the position of a present key and appends a new one. *)
Fixpoint set (k : K) (v : V) (m : t) : t :=
  match m with
  | [] => [(k, v)]
  | (k', v') :: r => if eqb k k' then (k, v) :: r else (k', v') :: set k v r
  end.

Definition delete (k : K) (m : t) : t :=
  filter (fun e => negb (eqb k (fst e))) m.

Definition values (m : t) : list V := map snd m.
Definition keys (m : t) : list K := map fst m.

End Ops.
End JsMap.

Arguments JsMap.get {K V} eqb k m.
Arguments JsMap.has {K V} eqb k m.
Arguments JsMap.set {K V} eqb k v m.
Arguments JsMap.delete {K V} eqb k m.
Arguments JsMap.values {K V} m.
Arguments JsMap.keys {K V} m.

(** [Set<string>]: [add] ignores a member, [delete] removes it. *)
Module JsSet.
Definition t := list string.
Definition has (s : string) (r : t) : bool := existsb (String.eqb s) r.
Definition add (s : string) (r : t) : t := if has s r then r else r ++ [s].
Definition delete (s : string) (r : t) : t :=
  filter (fun x => negb (String.eqb s x)) r.
End JsSet.

(* ------------------------------------------------------------------ *)
(** ** Records of [@shared/schema] *)

Module PlayerRole.
Definition PLAYER : string := "player".
Definition SPECTATOR : string := "spectator".
Definition ADMIN : string := "admin".
End PlayerRole.

Module Game.
Record t := mk {
  id : Z;
  code : string;
  phase : Z;
  currentWord : option string;
  dictionary : bool;
  createdAt : string;
  currentRound : Z
}.
Definition with_phase (g : t) (ph : Z) : t :=
  mk (id g) (code g) ph (currentWord g) (dictionary g) (createdAt g) (currentRound g).
Definition with_word (g : t) (w : string) : t :=
  mk (id g) (code g) (phase g) (Some w) (dictionary g) (createdAt g) (currentRound g).
Definition with_round (g : t) (r : Z) : t :=
  mk (id g) (code g) (phase g) (currentWord g) (dictionary g) (createdAt g) r.
End Game.

Module Player.
Record t := mk {
  id : Z;
  gameId : Z;
  name : string;
  sessionId : string;
  role : string;
  isAdmin : bool;
  isSpectator : bool;
  score : Z
}.
Definition with_score (p : t) (s : Z) : t :=
  mk (id p) (gameId p) (name p) (sessionId p) (role p) (isAdmin p) (isSpectator p) s.
End Player.

Module Definition_.
(** [text] is whatever the payload carried, possibly nothing. *)
Record t := mk {
  id : Z;
  gameId : Z;
  playerId : Z;
  round : Z;
  text : option string;
  isCorrect : bool
}.
End Definition_.

Module Vote.
(** [definitionId] is whatever the payload carried, possibly nothing. *)
Record t := mk {
  id : Z;
  gameId : Z;
  playerId : Z;
  definitionId : option Z;
  round : Z
}.
End Vote.

Module InsertGame.
Record t := mk {
  code : string;
  phase : option Z;
  currentWord : option string;
  dictionary : option bool;
  createdAt : string;
  currentRound : option Z
}.
End InsertGame.

Module InsertPlayer.
Record t := mk {
  gameId : Z;
  name : string;
  sessionId : string;
  role : option string;
  isAdmin : option bool;
  isSpectator : option bool
}.
End InsertPlayer.

Module InsertDefinition.
Record t := mk {
  gameId : Z;
  playerId : Z;
  round : option Z;
  text : option string;
  isCorrect : option bool
}.
End InsertDefinition.

Module InsertVote.
Record t := mk {
  gameId : Z;
  playerId : Z;
  definitionId : option Z;
  round : option Z
}.
End InsertVote.

Record GameState := mkGameState {
  game : Game.t;
  players : list Player.t;
  definitions : list Definition_.t;
  votes : list Vote.t
}.

(** Outcome of a call that may throw. *)
Inductive Res (A : Type) : Type :=
| Ok (a : A)
| Throw (err : string).
Arguments Ok {A} a.
Arguments Throw {A} err.

(* ------------------------------------------------------------------ *)
(** ** [MemStorage] ([server/storage.ts])

    The [users] map and its counter are left out: no game code reads them. *)

Record MemStorage := mkStorage {
  st_games : JsMap.t Z Game.t;
  st_players : JsMap.t Z Player.t;
  st_definitions : JsMap.t Z Definition_.t;
  st_votes : JsMap.t Z Vote.t;
  gameIdCounter : Z;
  playerIdCounter : Z;
  definitionIdCounter : Z;
  voteIdCounter : Z
}.

(** A storage method: it either throws, leaving the maps as they were, or
    returns a value and the maps after it. *)
Definition StoreOp (A : Type) : Type := MemStorage -> Res (A * MemStorage).

Module Storage.

Definition empty : MemStorage := mkStorage [] [] [] [] 1 1 1 1.

Definition set_games (s : MemStorage) (m : JsMap.t Z Game.t) : MemStorage :=
  mkStorage m (st_players s) (st_definitions s) (st_votes s)
    (gameIdCounter s) (playerIdCounter s) (definitionIdCounter s) (voteIdCounter s).

Definition set_players (s : MemStorage) (m : JsMap.t Z Player.t) : MemStorage :=
  mkStorage (st_games s) m (st_definitions s) (st_votes s)
    (gameIdCounter s) (playerIdCounter s) (definitionIdCounter s) (voteIdCounter s).

Definition set_definitions (s : MemStorage) (m : JsMap.t Z Definition_.t) : MemStorage :=
  mkStorage (st_games s) (st_players s) m (st_votes s)
    (gameIdCounter s) (playerIdCounter s) (definitionIdCounter s) (voteIdCounter s).

Definition set_votes (s : MemStorage) (m : JsMap.t Z Vote.t) : MemStorage :=
  mkStorage (st_games s) (st_players s) (st_definitions s) m
    (gameIdCounter s) (playerIdCounter s) (definitionIdCounter s) (voteIdCounter s).

(** *** Games *)

Definition createGame (game : InsertGame.t) (s : MemStorage) : Game.t * MemStorage :=
  let id := gameIdCounter s in
  let newGame :=
    Game.mk id (InsertGame.code game) (Js.nullish (InsertGame.phase game) 1)
      (InsertGame.currentWord game) (Js.nullish (InsertGame.dictionary game) true)
      (InsertGame.createdAt game) (Js.nullish (InsertGame.currentRound game) 1) in
  (newGame,
   mkStorage (JsMap.set Z.eqb id newGame (st_games s)) (st_players s)
     (st_definitions s) (st_votes s)
     (id + 1) (playerIdCounter s) (definitionIdCounter s) (voteIdCounter s)).

Definition getGame (id : Z) (s : MemStorage) : option Game.t :=
  JsMap.get Z.eqb id (st_games s).

Definition not_found (what : string) (id : Z) : string :=
  (what ++ " with id " ++ Js.show id ++ " not found")%string.

Definition updateGamePhase (id phase : Z) : StoreOp Game.t := fun s =>
  match getGame id s with
  | None => Throw (not_found "Game" id)
  | Some game =>
      let updatedGame := Game.with_phase game phase in
      Ok (updatedGame, set_games s (JsMap.set Z.eqb id updatedGame (st_games s)))
  end.

Definition updateGameWord (id : Z) (word : string) : StoreOp Game.t := fun s =>
  match getGame id s with
  | None => Throw (not_found "Game" id)
  | Some game =>
      let updatedGame := Game.with_word game word in
      Ok (updatedGame, set_games s (JsMap.set Z.eqb id updatedGame (st_games s)))
  end.

Definition updateGameRound (id round : Z) : StoreOp Game.t := fun s =>
  match getGame id s with
  | None => Throw (not_found "Game" id)
  | Some game =>
      let updatedGame := Game.with_round game round in
      Ok (updatedGame, set_games s (JsMap.set Z.eqb id updatedGame (st_games s)))
  end.

(** [game.currentRound || 1]. *)
Definition round_of (game : Game.t) : Z := Js.or_one (Some (Game.currentRound game)).

Definition startNewRound (gameId : Z) : StoreOp Game.t := fun s =>
  match getGame gameId s with
  | None => Throw (not_found "Game" gameId)
  | Some game =>
      let newRound := round_of game + 1 in
      let updatedGame :=
        Game.mk (Game.id game) (Game.code game) 1 (Some EmptyString)
          (Game.dictionary game) (Game.createdAt game) newRound in
      Ok (updatedGame, set_games s (JsMap.set Z.eqb gameId updatedGame (st_games s)))
  end.

(** The ids collected by the two [forEach] passes, then deleted one by one. *)
Definition round_def_ids (gameId round : Z) (s : MemStorage) : list Z :=
  map fst (filter (fun e => (Definition_.gameId (snd e) =? gameId)
                            && (Definition_.round (snd e) =? round)) (st_definitions s)).

Definition round_vote_ids (gameId round : Z) (s : MemStorage) : list Z :=
  map fst (filter (fun e => (Vote.gameId (snd e) =? gameId)
                            && (Vote.round (snd e) =? round)) (st_votes s)).

Definition delete_all {V : Type} (ids : list Z) (m : JsMap.t Z V) : JsMap.t Z V :=
  fold_left (fun acc id => JsMap.delete Z.eqb id acc) ids m.

Definition clearDefinitionsAndVotesByRound (gameId round : Z) (s : MemStorage) : MemStorage :=
  let gameDefIds := round_def_ids gameId round s in
  let s1 := set_definitions s (delete_all gameDefIds (st_definitions s)) in
  let gameVoteIds := round_vote_ids gameId round s1 in
  set_votes s1 (delete_all gameVoteIds (st_votes s1)).

Definition cancelRound (gameId : Z) : StoreOp Game.t := fun s =>
  match getGame gameId s with
  | None => Throw (not_found "Game" gameId)
  | Some game =>
      let currentRound := round_of game in
      let s1 := clearDefinitionsAndVotesByRound gameId currentRound s in
      let updatedGame :=
        Game.mk (Game.id game) (Game.code game) 1 (Some EmptyString)
          (Game.dictionary game) (Game.createdAt game) (Game.currentRound game) in
      Ok (updatedGame, set_games s1 (JsMap.set Z.eqb gameId updatedGame (st_games s1)))
  end.

(** *** Players *)

Definition createPlayer (player : InsertPlayer.t) (s : MemStorage) : Player.t * MemStorage :=
  let id := playerIdCounter s in
  let newPlayer :=
    Player.mk id (InsertPlayer.gameId player) (InsertPlayer.name player)
      (InsertPlayer.sessionId player)
      (Js.nullish (Js.truthy_str (InsertPlayer.role player)) PlayerRole.PLAYER)
      (Js.nullish (InsertPlayer.isAdmin player) false)
      (Js.nullish (InsertPlayer.isSpectator player) false)
      0 in
  (newPlayer,
   mkStorage (st_games s) (JsMap.set Z.eqb id newPlayer (st_players s))
     (st_definitions s) (st_votes s)
     (gameIdCounter s) (id + 1) (definitionIdCounter s) (voteIdCounter s)).

Definition getPlayer (id : Z) (s : MemStorage) : option Player.t :=
  JsMap.get Z.eqb id (st_players s).

Definition getPlayerBySessionId (sessionId : string) (s : MemStorage) : option Player.t :=
  find (fun player => String.eqb (Player.sessionId player) sessionId)
    (JsMap.values (st_players s)).

Definition getPlayersByGameId (gameId : Z) (s : MemStorage) : list Player.t :=
  filter (fun player => Player.gameId player =? gameId) (JsMap.values (st_players s)).

Definition updatePlayerScore (id scoreIncrement : Z) : StoreOp Player.t := fun s =>
  match getPlayer id s with
  | None => Throw (not_found "Player" id)
  | Some player =>
      let updatedPlayer := Player.with_score player (Player.score player + scoreIncrement) in
      Ok (updatedPlayer, set_players s (JsMap.set Z.eqb id updatedPlayer (st_players s)))
  end.

Definition removePlayer (id : Z) : StoreOp unit := fun s =>
  match getPlayer id s with
  | None => Throw (not_found "Player" id)
  | Some _ =>
      let s1 := set_players s (JsMap.delete Z.eqb id (st_players s)) in
      let playerDefinitions :=
        filter (fun def => Definition_.playerId def =? id) (JsMap.values (st_definitions s1)) in
      let s2 := set_definitions s1
        (delete_all (map Definition_.id playerDefinitions) (st_definitions s1)) in
      let playerVotes :=
        filter (fun vote => Vote.playerId vote =? id) (JsMap.values (st_votes s2)) in
      Ok (tt, set_votes s2 (delete_all (map Vote.id playerVotes) (st_votes s2)))
  end.

(** *** Definitions and votes *)

Definition createDefinition (definition : InsertDefinition.t) (s : MemStorage)
  : Definition_.t * MemStorage :=
  let id := definitionIdCounter s in
  let newDefinition :=
    Definition_.mk id (InsertDefinition.gameId definition)
      (InsertDefinition.playerId definition)
      (Js.nullish (InsertDefinition.round definition) 1)
      (InsertDefinition.text definition)
      (Js.nullish (InsertDefinition.isCorrect definition) false) in
  (newDefinition,
   mkStorage (st_games s) (st_players s)
     (JsMap.set Z.eqb id newDefinition (st_definitions s)) (st_votes s)
     (gameIdCounter s) (playerIdCounter s) (id + 1) (voteIdCounter s)).

Definition getDefinitionsByGameId (gameId round : Z) (s : MemStorage) : list Definition_.t :=
  filter (fun definition => (Definition_.gameId definition =? gameId)
                            && (Definition_.round definition =? round))
    (JsMap.values (st_definitions s)).

Definition createVote (vote : InsertVote.t) (s : MemStorage) : Vote.t * MemStorage :=
  let id := voteIdCounter s in
  let newVote :=
    Vote.mk id (InsertVote.gameId vote) (InsertVote.playerId vote)
      (InsertVote.definitionId vote) (Js.or_one (InsertVote.round vote)) in
  (newVote,
   mkStorage (st_games s) (st_players s) (st_definitions s)
     (JsMap.set Z.eqb id newVote (st_votes s))
     (gameIdCounter s) (playerIdCounter s) (definitionIdCounter s) (id + 1)).

Definition getVotesByGameId (gameId round : Z) (s : MemStorage) : list Vote.t :=
  filter (fun vote => (Vote.gameId vote =? gameId) && (Vote.round vote =? round))
    (JsMap.values (st_votes s)).

(** [round || game.currentRound || 1] picks the round of the snapshot. *)
Definition getGameState (gameId round : Z) : StoreOp GameState := fun s =>
  match getGame gameId s with
  | None => Throw (not_found "Game" gameId)
  | Some game =>
      let currentRound := if round =? 0 then round_of game else round in
      Ok (mkGameState game (getPlayersByGameId gameId s)
            (getDefinitionsByGameId gameId currentRound s)
            (getVotesByGameId gameId currentRound s), s)
  end.

End Storage.

(* ------------------------------------------------------------------ *)
(** ** Messages, the connection registry and the handler monad
       ([server/websocket.ts]) *)

Module Payload.
(** The fields the handler reads from [parsed.payload], each at the type
    the schema gives it; [None] is an absent field. *)
Record t := mk {
  sessionId : option string;
  gameId : option Z;
  role : option string;
  isSpectator : option bool;
  round : option Z;
  word : option string;
  text : option string;
  isCorrect : option bool;
  definitionId : option Z;
  playerId : option Z
}.
Definition empty : t := mk None None None None None None None None None None.
End Payload.

(** What arrives on a socket: text that [JSON.parse] rejects, or an envelope
    [{ type, payload }] whose payload may be missing. *)
Inductive Incoming : Type :=
| Unparsable
| Envelope (type : string) (payload : option Payload.t).

(** What the server sends: [error] and [gameState]. *)
Inductive ServerMsg : Type :=
| ErrorMsg (message : string)
| GameStateMsg (gameState : GameState) (currentPlayer : Player.t).

(** The module-level maps, the storage, the sockets that are not [OPEN],
    and the frames sent so far, oldest first, each with its socket. *)
Record World := mkWorld {
  storage : MemStorage;
  connections : JsMap.t string Z;
  gameRooms : JsMap.t Z JsSet.t;
  notOpen : list Z;
  sent : list (Z * ServerMsg)
}.

(** The closure variables of one connection. *)
Record ConnVars := mkConn {
  cv_sessionId : option string;
  cv_gameId : option Z
}.

Definition set_storage (w : World) (s : MemStorage) : World :=
  mkWorld s (connections w) (gameRooms w) (notOpen w) (sent w).

Definition set_connections (w : World) (c : JsMap.t string Z) : World :=
  mkWorld (storage w) c (gameRooms w) (notOpen w) (sent w).

Definition set_gameRooms (w : World) (r : JsMap.t Z JsSet.t) : World :=
  mkWorld (storage w) (connections w) r (notOpen w) (sent w).

Definition push_sent (w : World) (f : Z * ServerMsg) : World :=
  mkWorld (storage w) (connections w) (gameRooms w) (notOpen w) (sent w ++ [f]).

(** State over [World] with exceptions; the state survives a throw. *)
Definition M (A : Type) : Type := World -> Res A * World.

Definition ret {A : Type} (a : A) : M A := fun w => (Ok a, w).

Definition bind {A B : Type} (m : M A) (f : A -> M B) : M B := fun w =>
  match m w with
  | (Ok a, w') => f a w'
  | (Throw e, w') => (Throw e, w')
  end.

Definition throw {A : Type} (e : string) : M A := fun w => (Throw e, w).

Declare Scope handler_scope.
Delimit Scope handler_scope with handler.
Notation "x <- m ;; k" := (bind m (fun x => k))
  (at level 61, m at next level, right associativity) : handler_scope.
Notation "m ;; k" := (bind m (fun _ => k))
  (at level 61, right associativity) : handler_scope.
Open Scope handler_scope.

(** A throwing storage method, a read-only one, and a creating one. *)
Definition call {A : Type} (op : StoreOp A) : M A := fun w =>
  match op (storage w) with
  | Ok (a, s') => (Ok a, set_storage w s')
  | Throw e => (Throw e, w)
  end.

Definition query {A : Type} (f : MemStorage -> A) : M A := fun w =>
  (Ok (f (storage w)), w).

Definition create {A : Type} (f : MemStorage -> A * MemStorage) : M A := fun w =>
  let (a, s') := f (storage w) in (Ok a, set_storage w s').

(** [ws.send(JSON.stringify(message))]. *)
Definition sendMessage (ws : Z) (message : ServerMsg) : M unit := fun w =>
  (Ok tt, push_sent w (ws, message)).

Definition sendError (ws : Z) (message : string) : M unit :=
  sendMessage ws (ErrorMsg message).

(** [connection.readyState === WebSocket.OPEN]. *)
Definition isOpen (ws : Z) (w : World) : bool :=
  negb (existsb (Z.eqb ws) (notOpen w)).

(** Reading [parsed.payload.x] throws a [TypeError] without a payload. *)
Definition payload_of (payload : option Payload.t) : M Payload.t :=
  match payload with
  | Some p => ret p
  | None => throw "TypeError: Cannot read properties of undefined"
  end.

(** *** [broadcastGameState] *)

Fixpoint broadcast_loop (sessionIds : list string) (gameState : GameState) : M unit :=
  match sessionIds with
  | [] => ret tt
  | sessionId :: rest =>
      (fun w =>
         match JsMap.get String.eqb sessionId (connections w) with
         | Some connection =>
             if isOpen connection w then
               match Storage.getPlayerBySessionId sessionId (storage w) with
               | Some thisPlayer =>
                   sendMessage connection (GameStateMsg gameState thisPlayer) w
               | None => ret tt w
               end
             else ret tt w
         | None => ret tt w
         end) ;;
      broadcast_loop rest gameState
  end.

Definition broadcastGameState (gameId : Z) (gameState : GameState) : M unit := fun w =>
  match JsMap.get Z.eqb gameId (gameRooms w) with
  | Some room => broadcast_loop room gameState w
  | None => ret tt w
  end.

(** *** The scoring pass of [endVoting] *)

Definition refers_to (vote : Vote.t) (definition : Definition_.t) : bool :=
  match Vote.definitionId vote with
  | Some d => d =? Definition_.id definition
  | None => false
  end.

Definition voteCount (votes : list Vote.t) (definition : Definition_.t) : Z :=
  Z.of_nat (List.length (filter (fun vote => refers_to vote definition) votes)).

Fixpoint score_definitions (definitions : list Definition_.t) (votes : list Vote.t)
  : M unit :=
  match definitions with
  | [] => ret tt
  | definition :: rest =>
      (if negb (Definition_.isCorrect definition) && (0 <? voteCount votes definition) then
         player <- query (Storage.getPlayer (Definition_.playerId definition)) ;;
         match player with
         | Some player =>
             if negb (Player.isSpectator player) then
               call (Storage.updatePlayerScore (Definition_.playerId definition)
                       (voteCount votes definition)) ;; ret tt
             else ret tt
         | None => ret tt
         end
       else ret tt) ;;
      score_definitions rest votes
  end.

Fixpoint score_correct_votes (correctVotes : list Vote.t) : M unit :=
  match correctVotes with
  | [] => ret tt
  | vote :: rest =>
      player <- query (Storage.getPlayer (Vote.playerId vote)) ;;
      match player with
      | Some player =>
          if negb (Player.isSpectator player) then
            call (Storage.updatePlayerScore (Vote.playerId vote) 2) ;; ret tt
          else ret tt
      | None => ret tt
      end ;;
      score_correct_votes rest
  end.

Definition calculate_scores (definitions : list Definition_.t) (votes : list Vote.t)
  : M unit :=
  score_definitions definitions votes ;;
  match find Definition_.isCorrect definitions with
  | Some correctDefinition =>
      score_correct_votes (filter (fun vote => refers_to vote correctDefinition) votes)
  | None => ret tt
  end.

(** *** The cases of the message [switch] *)

(** [player.role === PlayerRole.SPECTATOR || player.isSpectator]. *)
Definition is_spectator (player : Player.t) : bool :=
  String.eqb (Player.role player) PlayerRole.SPECTATOR || Player.isSpectator player.

(** The word of [submitWord] when it passes
    [!word || typeof word !== 'string' || !word.trim()]. *)
Definition valid_word (word : option string) : option string :=
  match Js.truthy_str word with
  | Some w => if String.eqb (Js.trim w) EmptyString then None else Some w
  | None => None
  end.

Definition add_to_room (gameId : Z) (sessionId : string) (rooms : JsMap.t Z JsSet.t)
  : JsMap.t Z JsSet.t :=
  let rooms1 := if JsMap.has Z.eqb gameId rooms then rooms
                else JsMap.set Z.eqb gameId [] rooms in
  match JsMap.get Z.eqb gameId rooms1 with
  | Some room => JsMap.set Z.eqb gameId (JsSet.add sessionId room) rooms1
  | None => rooms1
  end.

(** The role of a player created by [join]. *)
Definition join_role (p : Payload.t) : string :=
  match Js.truthy_str (Payload.role p) with
  | Some r => r
  | None =>
      match Payload.isSpectator p with
      | Some true => PlayerRole.SPECTATOR
      | _ => PlayerRole.PLAYER
      end
  end.

(** [randomId] is the value of [Math.floor(Math.random() * 100)]. *)
Definition join_insert (gameId : Z) (sessionId : string) (p : Payload.t)
    (randomId : Z) (existingPlayers : list Player.t) : InsertPlayer.t :=
  let role := join_role p in
  let isSpectator := String.eqb role PlayerRole.SPECTATOR in
  let isFirstPlayer := (List.length existingPlayers =? 0)%nat in
  InsertPlayer.mk gameId
    ((if isSpectator then "Spectator " else "Player ") ++ Js.show randomId)%string
    sessionId (Some role) (Some isFirstPlayer) (Some isSpectator).

Definition join (ws : Z) (randomId : Z) (p : Payload.t) : M unit :=
  (fun w =>
     match Js.truthy_str (Payload.sessionId p) with
     | Some sessionId =>
         (Ok tt, set_connections w (JsMap.set String.eqb sessionId ws (connections w)))
     | None => (Ok tt, w)
     end) ;;
  match Js.truthy_num (Payload.gameId p), Js.truthy_str (Payload.sessionId p) with
  | Some gameId, Some sessionId =>
      (fun w => (Ok tt, set_gameRooms w (add_to_room gameId sessionId (gameRooms w)))) ;;
      game <- query (Storage.getGame gameId) ;;
      match game with
      | None => sendError ws "Game not found. Please check your game code."
      | Some _ =>
          found <- query (Storage.getPlayerBySessionId sessionId) ;;
          player <- match found with
                    | Some player => ret player
                    | None =>
                        existingPlayers <- query (Storage.getPlayersByGameId gameId) ;;
                        create (Storage.createPlayer
                                  (join_insert gameId sessionId p randomId existingPlayers))
                    end ;;
          gameState <- call (Storage.getGameState gameId (Js.or_one (Payload.round p))) ;;
          sendMessage ws (GameStateMsg gameState player) ;;
          broadcastGameState gameId gameState
      end
  | _, _ => ret tt
  end.

(** The first [case "removePlayer"] of the [switch]; the second one, further
    down in the source, has the same label and is never reached. *)
Definition removePlayer (ws gameId : Z) (sessionId : string) (payload : option Payload.t)
  : M unit :=
  admin <- query (Storage.getPlayerBySessionId sessionId) ;;
  match admin with
  | None => sendError ws "Admin not found. Please rejoin the game."
  | Some admin =>
      if negb (Player.isAdmin admin) then
        sendError ws "Only the game admin can remove players."
      else
        p <- payload_of payload ;;
        match Js.truthy_num (Payload.playerId p) with
        | None => sendError ws "Invalid player ID."
        | Some playerIdToRemove =>
            call (Storage.removePlayer playerIdToRemove) ;;
            gameState <- call (Storage.getGameState gameId (Js.or_one (Payload.round p))) ;;
            broadcastGameState gameId gameState
        end
  end.

Definition submitWord (ws gameId : Z) (sessionId : string) (payload : option Payload.t)
  : M unit :=
  player <- query (Storage.getPlayerBySessionId sessionId) ;;
  match player with
  | None => sendError ws "Player not found. Please rejoin the game."
  | Some player =>
      if is_spectator player then sendError ws "Spectators cannot submit words."
      else
        p <- payload_of payload ;;
        match valid_word (Payload.word p) with
        | None => sendError ws "Please enter a valid word."
        | Some word =>
            call (Storage.updateGameWord gameId (Js.trim word)) ;;
            call (Storage.updateGamePhase gameId 2) ;;
            gameState <- call (Storage.getGameState gameId (Js.or_one (Payload.round p))) ;;
            broadcastGameState gameId gameState
        end
  end.

Definition submitDefinition (ws gameId : Z) (sessionId : string)
    (payload : option Payload.t) : M unit :=
  player <- query (Storage.getPlayerBySessionId sessionId) ;;
  match player with
  | None => sendError ws "Player not found. Please rejoin the game."
  | Some player =>
      if is_spectator player then sendError ws "Spectators cannot submit definitions."
      else
        p <- payload_of payload ;;
        let round := Js.or_one (Payload.round p) in
        existingDefinitions <- query (Storage.getDefinitionsByGameId gameId round) ;;
        let playerHasSubmitted :=
          existsb (fun def => Definition_.playerId def =? Player.id player)
            existingDefinitions in
        if playerHasSubmitted then
          sendError ws "You have already submitted a definition for this round."
        else
          create (Storage.createDefinition
                    (InsertDefinition.mk gameId (Player.id player) (Some round)
                       (Payload.text p)
                       (Some (Js.nullish (Payload.isCorrect p) false)))) ;;
          gameState <- call (Storage.getGameState gameId (Js.or_one (Payload.round p))) ;;
          broadcastGameState gameId gameState
  end.

Definition endSubmissions (ws gameId : Z) (sessionId : string)
    (payload : option Payload.t) : M unit :=
  player <- query (Storage.getPlayerBySessionId sessionId) ;;
  match player with
  | None => sendError ws "Player not found. Please rejoin the game."
  | Some player =>
      if is_spectator player then sendError ws "Spectators cannot control game phases."
      else
        call (Storage.updateGamePhase gameId 3) ;;
        p <- payload_of payload ;;
        gameState <- call (Storage.getGameState gameId (Js.or_one (Payload.round p))) ;;
        broadcastGameState gameId gameState
  end.

Definition submitVote (ws gameId : Z) (sessionId : string) (payload : option Payload.t)
  : M unit :=
  player <- query (Storage.getPlayerBySessionId sessionId) ;;
  match player with
  | None => sendError ws "Player not found. Please rejoin the game."
  | Some player =>
      if is_spectator player then sendError ws "Spectators cannot vote."
      else
        p <- payload_of payload ;;
        let voteRound := Js.or_one (Payload.round p) in
        existingVotes <- query (Storage.getVotesByGameId gameId voteRound) ;;
        let playerHasVoted :=
          existsb (fun vote => Vote.playerId vote =? Player.id player) existingVotes in
        if playerHasVoted then sendError ws "You have already voted for this round."
        else
          create (Storage.createVote
                    (InsertVote.mk gameId (Player.id player) (Payload.definitionId p)
                       (Some voteRound))) ;;
          gameState <- call (Storage.getGameState gameId (Js.or_one (Payload.round p))) ;;
          broadcastGameState gameId gameState
  end.

Definition endVoting (ws gameId : Z) (sessionId : string) (payload : option Payload.t)
  : M unit :=
  player <- query (Storage.getPlayerBySessionId sessionId) ;;
  match player with
  | None => sendError ws "Player not found. Please rejoin the game."
  | Some player =>
      if is_spectator player then sendError ws "Spectators cannot control game phases."
      else
        call (Storage.updateGamePhase gameId 4) ;;
        p <- payload_of payload ;;
        let round := Js.or_one (Payload.round p) in
        definitions <- query (Storage.getDefinitionsByGameId gameId round) ;;
        votes <- query (Storage.getVotesByGameId gameId round) ;;
        calculate_scores definitions votes ;;
        gameState <- call (Storage.getGameState gameId round) ;;
        broadcastGameState gameId gameState
  end.

Definition newRound (ws gameId : Z) (sessionId : string) : M unit :=
  player <- query (Storage.getPlayerBySessionId sessionId) ;;
  match player with
  | None => sendError ws "Player not found. Please rejoin the game."
  | Some player =>
      if is_spectator player then sendError ws "Spectators cannot control game phases."
      else
        updatedGame <- call (Storage.startNewRound gameId) ;;
        gameState <- call (Storage.getGameState gameId (Game.currentRound updatedGame)) ;;
        broadcastGameState gameId gameState
  end.

Definition cancelRound (ws gameId : Z) (sessionId : string) : M unit :=
  player <- query (Storage.getPlayerBySessionId sessionId) ;;
  match player with
  | None => sendError ws "Player not found. Please rejoin the game."
  | Some player =>
      if negb (Player.isAdmin player) then
        sendError ws "Only admins can cancel the current round."
      else
        updatedGame <- call (Storage.cancelRound gameId) ;;
        let currentRound := Storage.round_of updatedGame in
        gameState <- call (Storage.getGameState gameId currentRound) ;;
        broadcastGameState gameId gameState
  end.

Definition awardBonus (ws gameId : Z) (sessionId : string) (payload : option Payload.t)
  : M unit :=
  adminPlayer <- query (Storage.getPlayerBySessionId sessionId) ;;
  match adminPlayer with
  | None => sendError ws "Player not found. Please rejoin the game."
  | Some adminPlayer =>
      if negb (Player.isAdmin adminPlayer) then
        sendError ws "Only admins can award bonus points."
      else
        p <- payload_of payload ;;
        match Js.truthy_num (Payload.playerId p) with
        | None => sendError ws "No player ID provided."
        | Some playerId =>
            playerToAward <- query (Storage.getPlayer playerId) ;;
            let finish : M unit :=
              game <- query (Storage.getGame gameId) ;;
              match game with
              | None => throw (Storage.not_found "Game" gameId)
              | Some game =>
                  gameState <- call (Storage.getGameState gameId (Storage.round_of game)) ;;
                  broadcastGameState gameId gameState
              end in
            match playerToAward with
            | Some target =>
                if negb (Player.isSpectator target) then
                  call (Storage.updatePlayerScore playerId 3) ;; finish
                else sendError ws "Cannot award points to spectators."
            | None => finish
            end
        end
  end.

(** *** The [message] and [close] listeners of one connection *)

Inductive Command : Type :=
| CJoin | CRemovePlayer | CSubmitWord | CSubmitDefinition | CEndSubmissions
| CSubmitVote | CEndVoting | CNewRound | CCancelRound | CAwardBonus | CUnknown.

(** The labels of the [switch], in the order they are tried. *)
Definition classify (type : string) : Command :=
  if String.eqb type "join" then CJoin
  else if String.eqb type "removePlayer" then CRemovePlayer
  else if String.eqb type "submitWord" then CSubmitWord
  else if String.eqb type "submitDefinition" then CSubmitDefinition
  else if String.eqb type "endSubmissions" then CEndSubmissions
  else if String.eqb type "submitVote" then CSubmitVote
  else if String.eqb type "endVoting" then CEndVoting
  else if String.eqb type "newRound" then CNewRound
  else if String.eqb type "cancelRound" then CCancelRound
  else if String.eqb type "awardBonus" then CAwardBonus
  else CUnknown.

(** [if (gameId && sessionId)]. *)
Definition joined (cv : ConnVars) : option (Z * string) :=
  match Js.truthy_num (cv_gameId cv), Js.truthy_str (cv_sessionId cv) with
  | Some gameId, Some sessionId => Some (gameId, sessionId)
  | _, _ => None
  end.

Definition when_joined (cv : ConnVars) (k : Z -> string -> M unit) : M unit :=
  match joined cv with
  | Some (gameId, sessionId) => k gameId sessionId
  | None => ret tt
  end.

(** The body of the [try]. *)
Definition dispatch (ws randomId : Z) (cv : ConnVars) (message : Incoming) : M unit :=
  match message with
  | Unparsable => throw "SyntaxError"
  | Envelope type payload =>
      match classify type with
      | CJoin => p <- payload_of payload ;; join ws randomId p
      | CRemovePlayer => when_joined cv (fun g s => removePlayer ws g s payload)
      | CSubmitWord => when_joined cv (fun g s => submitWord ws g s payload)
      | CSubmitDefinition => when_joined cv (fun g s => submitDefinition ws g s payload)
      | CEndSubmissions => when_joined cv (fun g s => endSubmissions ws g s payload)
      | CSubmitVote => when_joined cv (fun g s => submitVote ws g s payload)
      | CEndVoting => when_joined cv (fun g s => endVoting ws g s payload)
      | CNewRound => when_joined cv (fun g s => newRound ws g s)
      | CCancelRound => when_joined cv (fun g s => cancelRound ws g s)
      | CAwardBonus => when_joined cv (fun g s => awardBonus ws g s payload)
      | CUnknown => ret tt
      end
  end.

(** [join] assigns the closure variables before anything else. *)
Definition conn_after (cv : ConnVars) (message : Incoming) : ConnVars :=
  match message with
  | Envelope type (Some p) =>
      match classify type with
      | CJoin => mkConn (Payload.sessionId p) (Payload.gameId p)
      | _ => cv
      end
  | _ => cv
  end.

(** [try { ... } catch (error) { sendMessage(ws, error reply) }]. *)
Definition try_catch (ws : Z) (body : M unit) (w : World) : World :=
  match body w with
  | (Ok _, w') => w'
  | (Throw _, w') => push_sent w' (ws, ErrorMsg "An error occurred")
  end.

(** [ws.on("message", ...)]. *)
Definition on_message (ws randomId : Z) (cv : ConnVars) (message : Incoming) (w : World)
  : ConnVars * World :=
  (conn_after cv message, try_catch ws (dispatch ws randomId cv message) w).

(** [ws.on("close", ...)]; the socket is no longer [OPEN] by then. *)
Definition on_close (ws : Z) (cv : ConnVars) (w : World) : World :=
  let w0 := mkWorld (storage w) (connections w) (gameRooms w) (ws :: notOpen w) (sent w) in
  match Js.truthy_str (cv_sessionId cv) with
  | None => w0
  | Some sessionId =>
      let w1 := set_connections w0 (JsMap.delete String.eqb sessionId (connections w0)) in
      match Js.truthy_num (cv_gameId cv) with
      | None => w1
      | Some gameId =>
          match JsMap.get Z.eqb gameId (gameRooms w1) with
          | None => w1
          | Some room =>
              let room' := JsSet.delete sessionId room in
              if (List.length room' =? 0)%nat
              then set_gameRooms w1 (JsMap.delete Z.eqb gameId (gameRooms w1))
              else set_gameRooms w1 (JsMap.set Z.eqb gameId room' (gameRooms w1))
          end
      end
  end.


(** *** The server: every connection with its closure variables *)

Inductive Event : Type :=
| Connect (ws : Z)
| Message (ws randomId : Z) (message : Incoming)
| Close (ws : Z).

Record Server := mkServer {
  world : World;
  conns : JsMap.t Z ConnVars
}.

(** A message or a close on a socket that never connected is not an event
    of the server: it is ignored. *)
Definition step (sv : Server) (e : Event) : Server :=
  match e with
  | Connect ws =>
      mkServer (world sv) (JsMap.set Z.eqb ws (mkConn None None) (conns sv))
  | Message ws randomId message =>
      match JsMap.get Z.eqb ws (conns sv) with
      | Some cv =>
          let (cv', w') := on_message ws randomId cv message (world sv) in
          mkServer w' (JsMap.set Z.eqb ws cv' (conns sv))
      | None => sv
      end
  | Close ws =>
      match JsMap.get Z.eqb ws (conns sv) with
      | Some cv => mkServer (on_close ws cv (world sv)) (JsMap.delete Z.eqb ws (conns sv))
      | None => sv
      end
  end.

Definition run (sv : Server) (es : list Event) : Server := fold_left step es sv.

Definition boot (s : MemStorage) : Server := mkServer (mkWorld s [] [] [] []) [].

(* ------------------------------------------------------------------ *)
(** ** The rest of [MemStorage] and of the socket module *)

(** *** Users ([getUser], [getUserByUsername], [createUser])

    The [users] map and [userIdCounter] of [MemStorage]; no method touches
    them together with the game maps, so they are kept in a store of their
    own. *)

Module User.
Record t := mk {
  id : Z;
  username : string;
  password : string
}.
End User.

Module InsertUser.
Record t := mk {
  username : string;
  password : string
}.
End InsertUser.

Record UserStorage := mkUsers {
  st_users : JsMap.t Z User.t;
  userIdCounter : Z
}.

Module Users.

Definition empty : UserStorage := mkUsers [] 1.

Definition getUser (id : Z) (s : UserStorage) : option User.t :=
  JsMap.get Z.eqb id (st_users s).

Definition getUserByUsername (username : string) (s : UserStorage) : option User.t :=
  find (fun user => String.eqb (User.username user) username) (JsMap.values (st_users s)).

Definition createUser (insertUser : InsertUser.t) (s : UserStorage) : User.t * UserStorage :=
  let id := userIdCounter s in
  let user := User.mk id (InsertUser.username insertUser) (InsertUser.password insertUser) in
  (user, mkUsers (JsMap.set Z.eqb id user (st_users s)) (id + 1)).

End Users.

(** *** [getGameByCode] *)

Module Games.

Definition getGameByCode (code : string) (s : MemStorage) : option Game.t :=
  find (fun game => String.eqb (Game.code game) code) (JsMap.values (st_games s)).

End Games.

(** *** [broadcastToRoom]

    The helper that sends one message to every open socket of a room,
    except the session named by [excludeSessionId] when that is given and
    not empty. *)

Fixpoint broadcastToRoom_each (sessionIds : list string) (message : ServerMsg)
    (excludeSessionId : option string) : M unit :=
  match sessionIds with
  | [] => ret tt
  | sessionId :: rest =>
      (fun w =>
         let excluded :=
           match Js.truthy_str excludeSessionId with
           | Some e => String.eqb sessionId e
           | None => false
           end in
         if excluded then ret tt w
         else
           match JsMap.get String.eqb sessionId (connections w) with
           | Some connection =>
               if isOpen connection w then sendMessage connection message w
               else ret tt w
           | None => ret tt w
           end) ;;
      broadcastToRoom_each rest message excludeSessionId
  end.

Definition broadcastToRoom (gameId : Z) (message : ServerMsg)
    (excludeSessionId : option string) : M unit := fun w =>
  match JsMap.get Z.eqb gameId (gameRooms w) with
  | Some room => broadcastToRoom_each room message excludeSessionId w
  | None => ret tt w
  end.

(* ------------------------------------------------------------------ *)
(** ** The shuffle of the voting and results screens
       ([VotingPhase], [ResultsPhase])

    [definitionsCopy] is a list; [draw i] is the value of
    [Math.floor(Math.random() * (i + 1))] at the iteration with index [i].
    A swap with an index outside the array is not modelled: it is [None]. *)

Module Shuffle.
Section Ops.
Variable A : Type.

Fixpoint put (i : nat) (x : A) (l : list A) {struct l} : list A :=
  match l, i with
  | [], _ => []
  | _ :: r, O => x :: r
  | a :: r, S i' => a :: put i' x r
  end.

(** [[a[i], a[j]] = [a[j], a[i]]]. *)
Definition swap (i j : nat) (l : list A) : option (list A) :=
  match nth_error l i, nth_error l j with
  | Some ai, Some aj => Some (put j ai (put i aj l))
  | _, _ => None
  end.

(** [for (let i = length - 1; i > 0; i--)], from index [i] down. *)
Fixpoint shuffle_from (i : nat) (draw : nat -> nat) (l : list A) : option (list A) :=
  match i with
  | O => Some l
  | S i' =>
      match swap i (draw i) l with
      | Some l' => shuffle_from i' draw l'
      | None => None
      end
  end.

(** The effect: [shuffledDefinitions] after it ran; it is set only when
    [definitions] is not empty. *)
Definition shuffled (previous : list A) (draw : nat -> nat) (definitions : list A)
  : option (list A) :=
  if (0 <? List.length definitions)%nat
  then shuffle_from (List.length definitions - 1) draw definitions
  else Some previous.

End Ops.
End Shuffle.

Arguments Shuffle.put {A} i x l.
Arguments Shuffle.swap {A} i j l.
Arguments Shuffle.shuffle_from {A} i draw l.
Arguments Shuffle.shuffled {A} previous draw definitions.

(* ------------------------------------------------------------------ *)
(** ** The store of the browser ([useGameStore])

    [gameState] is [null] or the payload of the last [gameState] frame,
    whose [currentPlayer] may be missing. *)

Module Client.

Definition Store : Type := option (GameState * option Player.t).

(** [handleWebSocketMessage]: a [gameState] frame replaces the stored
    state, an error is shown and stores nothing. *)
Definition handleWebSocketMessage (message : ServerMsg) (st : Store) : Store :=
  match message with
  | GameStateMsg gameState currentPlayer => Some (gameState, Some currentPlayer)
  | ErrorMsg _ => st
  end.

Definition getCurrentRound (st : Store) : Z :=
  match st with
  | Some (gameState, _) => Js.or_one (Some (Game.currentRound (game gameState)))
  | None => 1
  end.

Definition getDefinitions (st : Store) : list Definition_.t :=
  match st with
  | Some (gameState, _) => definitions gameState
  | None => []
  end.

Definition getVotes (st : Store) : list Vote.t :=
  match st with
  | Some (gameState, _) => votes gameState
  | None => []
  end.

Definition getCurrentPlayer (st : Store) : option Player.t :=
  match st with
  | Some (_, currentPlayer) => currentPlayer
  | None => None
  end.

Definition isSpectator (st : Store) : bool :=
  match getCurrentPlayer st with
  | Some currentPlayer =>
      Player.isSpectator currentPlayer
      || String.eqb (Player.role currentPlayer) PlayerRole.SPECTATOR
  | None => false
  end.

Definition isAdmin (st : Store) : bool :=
  match getCurrentPlayer st with
  | Some currentPlayer => Player.isAdmin currentPlayer
  | None => false
  end.

Definition hasPlayerSubmittedDefinition (st : Store) : bool :=
  match getCurrentPlayer st with
  | None => false
  | Some currentPlayer =>
      existsb (fun def => (Definition_.playerId def =? Player.id currentPlayer)
                          && (Definition_.round def =? getCurrentRound st))
        (getDefinitions st)
  end.

Definition hasPlayerVoted (st : Store) : bool :=
  match getCurrentPlayer st with
  | None => false
  | Some currentPlayer =>
      existsb (fun vote => (Vote.playerId vote =? Player.id currentPlayer)
                           && (Vote.round vote =? getCurrentRound st))
        (getVotes st)
  end.

Definition getVotedDefinitionId (st : Store) : option Z :=
  match getCurrentPlayer st with
  | None => None
  | Some currentPlayer =>
      match find (fun vote => (Vote.playerId vote =? Player.id currentPlayer)
                              && (Vote.round vote =? getCurrentRound st))
              (getVotes st) with
      | Some playerVote => Vote.definitionId playerVote
      | None => None
      end
  end.

End Client.
(* ------------------------------------------------------------------ *)
(** ** Notions used to state the properties *)

(** *** Frames of a broadcast *)

(** The frame a session receives, if any. *)
Definition frame_for (w : World) (gameState : GameState) (sessionId : string)
  : option (Z * ServerMsg) :=
  match JsMap.get String.eqb sessionId (connections w) with
  | Some connection =>
      if isOpen connection w then
        match Storage.getPlayerBySessionId sessionId (storage w) with
        | Some thisPlayer => Some (connection, GameStateMsg gameState thisPlayer)
        | None => None
        end
      else None
  | None => None
  end.

Fixpoint frames (w : World) (gameState : GameState) (sessionIds : list string)
  : list (Z * ServerMsg) :=
  match sessionIds with
  | [] => []
  | sessionId :: rest =>
      match frame_for w gameState sessionId with
      | Some f => f :: frames w gameState rest
      | None => frames w gameState rest
      end
  end.

Definition add_sent (w : World) (fs : list (Z * ServerMsg)) : World :=
  mkWorld (storage w) (connections w) (gameRooms w) (notOpen w) (sent w ++ fs).

Definition room_of (gameId : Z) (w : World) : list string :=
  match JsMap.get Z.eqb gameId (gameRooms w) with
  | Some room => room
  | None => []
  end.

(** A session of a room is served when its socket is registered and [OPEN]
    and its session id resolves to a player. *)
Definition live (w : World) (sessionId : string) : bool :=
  match JsMap.get String.eqb sessionId (connections w) with
  | Some connection =>
      isOpen connection w
      && match Storage.getPlayerBySessionId sessionId (storage w) with
         | Some _ => true
         | None => false
         end
  | None => false
  end.

(** [player] is the session's own record: a stored player whose
    [sessionId] field is that session id, the first such player in the
    order of the [players] map. *)
Definition own_player (s : MemStorage) (sessionId : string) (player : Player.t) : Prop :=
  Player.sessionId player = sessionId
  /\ exists before after,
       JsMap.values (st_players s) = before ++ player :: after
       /\ forall other, In other before -> Player.sessionId other <> sessionId.

(** [f] is the frame owed to [sessionId]: the shared snapshot with the
    session's own player record, on the session's socket. *)
Definition personalized (w : World) (gameState : GameState) (sessionId : string)
    (f : Z * ServerMsg) : Prop :=
  exists connection thisPlayer,
    JsMap.get String.eqb sessionId (connections w) = Some connection
    /\ isOpen connection w = true
    /\ Storage.getPlayerBySessionId sessionId (storage w) = Some thisPlayer
    /\ own_player (storage w) sessionId thisPlayer
    /\ f = (connection, GameStateMsg gameState thisPlayer).

(** *** Scoring *)

(** What one guarded [updatePlayerScore] of the scoring pass does to the
    storage: nothing for an absent player or a spectator. *)
Definition credit (playerId n : Z) (s : MemStorage) : MemStorage :=
  match Storage.getPlayer playerId s with
  | Some player =>
      if negb (Player.isSpectator player) then
        Storage.set_players s
          (JsMap.set Z.eqb playerId
             (Player.with_score player (Player.score player + n)) (st_players s))
      else s
  | None => s
  end.

Definition apply_credits (cs : list (Z * Z)) (s : MemStorage) : MemStorage :=
  fold_left (fun acc c => credit (fst c) (snd c) acc) cs s.

Definition total_for (playerId : Z) (cs : list (Z * Z)) : Z :=
  fold_right Z.add 0 (map snd (filter (fun c => fst c =? playerId) cs)).

(** The definitions that earn their author points, and the votes that
    earn their voter points. *)
Definition fooled_someone (votes : list Vote.t) (definition : Definition_.t) : bool :=
  negb (Definition_.isCorrect definition) && (0 <? voteCount votes definition).

Definition correct_votes (definitions : list Definition_.t) (votes : list Vote.t)
  : list Vote.t :=
  match find Definition_.isCorrect definitions with
  | Some correctDefinition => filter (fun vote => refers_to vote correctDefinition) votes
  | None => []
  end.




(** A stored player after a scoring pass worth [pts] to non-spectators. *)
Definition scored (pts : Z) (player : Player.t) : Player.t :=
  Player.with_score player
    (Player.score player + (if Player.isSpectator player then 0 else pts)).

(** The credits of the two loops, in the order the loops give them. *)
Definition author_credits (definitions : list Definition_.t) (votes : list Vote.t)
  : list (Z * Z) :=
  map (fun d => (Definition_.playerId d, voteCount votes d))
    (filter (fooled_someone votes) definitions).

Definition voter_credits (correctVotes : list Vote.t) : list (Z * Z) :=
  map (fun v => (Vote.playerId v, 2)) correctVotes.

(** *** Rounds *)

(** [{ ...game, phase: 1, currentWord: "", currentRound }]. *)
Definition reset_game (game0 : Game.t) (currentRound : Z) : Game.t :=
  Game.mk (Game.id game0) (Game.code game0) 1 (Some EmptyString)
    (Game.dictionary game0) (Game.createdAt game0) currentRound.

(** *** The case a joined connection runs for a command other than [join] *)

Definition case_body (ws gameId : Z) (sessionId : string) (c : Command)
    (payload : option Payload.t) : M unit :=
  match c with
  | CJoin => ret tt
  | CRemovePlayer => removePlayer ws gameId sessionId payload
  | CSubmitWord => submitWord ws gameId sessionId payload
  | CSubmitDefinition => submitDefinition ws gameId sessionId payload
  | CEndSubmissions => endSubmissions ws gameId sessionId payload
  | CSubmitVote => submitVote ws gameId sessionId payload
  | CEndVoting => endVoting ws gameId sessionId payload
  | CNewRound => newRound ws gameId sessionId
  | CCancelRound => cancelRound ws gameId sessionId
  | CAwardBonus => awardBonus ws gameId sessionId payload
  | CUnknown => ret tt
  end.

(** *** The writes a handler makes to the storage

    One [StoreStep] is one mutation as the handler issues it, with the test
    that guards it in the source. *)

(** [join] passes [isSpectator = (role === SPECTATOR)] for a role that is
    not the empty string. *)
Definition flag_follows_role (ins : InsertPlayer.t) : Prop :=
  exists role,
    InsertPlayer.role ins = Some role
    /\ role <> EmptyString
    /\ InsertPlayer.isSpectator ins = Some (String.eqb role PlayerRole.SPECTATOR).

Inductive StoreStep (s : MemStorage) : MemStorage -> Prop :=
| step_game (g : Z) (game0 game1 : Game.t) :
    Storage.getGame g s = Some game0 ->
    Game.id game1 = Game.id game0 ->
    StoreStep s (Storage.set_games s (JsMap.set Z.eqb g game1 (st_games s)))
| step_createPlayer (ins : InsertPlayer.t) :
    flag_follows_role ins ->
    StoreStep s (snd (Storage.createPlayer ins s))
| step_score (pid n : Z) (player : Player.t) :
    Storage.getPlayer pid s = Some player ->
    Player.isSpectator player = false ->
    StoreStep s
      (Storage.set_players s
         (JsMap.set Z.eqb pid (Player.with_score player (Player.score player + n))
            (st_players s)))
| step_removePlayer (id : Z) (s' : MemStorage) :
    Storage.removePlayer id s = Ok (tt, s') ->
    StoreStep s s'
| step_createDefinition (ins : InsertDefinition.t) :
    existsb (fun def => Definition_.playerId def =? InsertDefinition.playerId ins)
      (Storage.getDefinitionsByGameId (InsertDefinition.gameId ins)
         (Js.nullish (InsertDefinition.round ins) 1) s) = false ->
    StoreStep s (snd (Storage.createDefinition ins s))
| step_createVote (ins : InsertVote.t) :
    existsb (fun vote => Vote.playerId vote =? InsertVote.playerId ins)
      (Storage.getVotesByGameId (InsertVote.gameId ins)
         (Js.or_one (InsertVote.round ins)) s) = false ->
    StoreStep s (snd (Storage.createVote ins s))
| step_clear (g r : Z) :
    StoreStep s (Storage.clearDefinitionsAndVotesByRound g r s).

Inductive Steps (s : MemStorage) : MemStorage -> Prop :=
| steps_done : Steps s s
| steps_more (s1 s2 : MemStorage) : Steps s s1 -> StoreStep s1 s2 -> Steps s s2.

(** A computation writes by steps from [w]. *)
Definition by_steps {A : Type} (m : M A) (w : World) : Prop :=
  Steps (storage w) (storage (snd (m w))).

(** *** Invariants of the storage *)

(** A map of rows keyed by their own id, ids below the counter, no key
    twice (a JavaScript [Map] has no key twice). *)
Definition keyed {V : Type} (idf : V -> Z) (counter : Z) (m : JsMap.t Z V) : Prop :=
  NoDup (JsMap.keys m) /\ forall k v, In (k, v) m -> idf v = k /\ k < counter.

Definition wf_store (s : MemStorage) : Prop :=
  keyed Game.id (gameIdCounter s) (st_games s)
  /\ keyed Player.id (playerIdCounter s) (st_players s)
  /\ keyed Definition_.id (definitionIdCounter s) (st_definitions s)
  /\ keyed Vote.id (voteIdCounter s) (st_votes s).

(** The two representations of the spectator role say the same. *)
Definition flags_agree (s : MemStorage) : Prop :=
  forall k p, In (k, p) (st_players s) ->
    (Player.role p = PlayerRole.SPECTATOR <-> Player.isSpectator p = true).

(** At most one definition and at most one vote per game, round and player. *)
Definition definitions_of (s : MemStorage) (gameId round playerId : Z) : list Definition_.t :=
  filter (fun d => Definition_.playerId d =? playerId)
    (Storage.getDefinitionsByGameId gameId round s).

Definition votes_of (s : MemStorage) (gameId round playerId : Z) : list Vote.t :=
  filter (fun v => Vote.playerId v =? playerId) (Storage.getVotesByGameId gameId round s).

Definition once_per_round (s : MemStorage) : Prop :=
  forall gameId round playerId,
    (List.length (definitions_of s gameId round playerId) <= 1)%nat
    /\ (List.length (votes_of s gameId round playerId) <= 1)%nat.

(** The rows of one game, round and player, as one test. *)
Definition def_matches (g r pid : Z) (d : Definition_.t) : bool :=
  ((Definition_.gameId d =? g) && (Definition_.round d =? r))
  && (Definition_.playerId d =? pid).

Definition vote_matches (g r pid : Z) (v : Vote.t) : bool :=
  ((Vote.gameId v =? g) && (Vote.round v =? r)) && (Vote.playerId v =? pid).

(** The storage after [join] on an existing game. *)
Definition join_storage (g : Z) (sid : string) (p : Payload.t) (rnd : Z) (s : MemStorage)
  : MemStorage :=
  match Storage.getPlayerBySessionId sid s with
  | Some _ => s
  | None =>
      snd (Storage.createPlayer (join_insert g sid p rnd (Storage.getPlayersByGameId g s)) s)
  end.

(** A word that is missing or made of white space only (the empty string
    included). *)
Definition blank (word : option string) : bool :=
  match word with
  | Some s => forallb Js.is_space (list_ascii_of_string s)
  | None => true
  end.

(** *** The writes of the socket handlers, with what the source knows
        about each value it writes

    [Write] refines [StoreStep]: a game row is replaced by one that keeps
    its identity and does not lower the round, a score only grows, a player
    is created by [join] for a stored game and a session id nobody has, and
    a definition or a vote is created for the player the sender's session id
    resolves to. *)

Definition game_kept (game0 game1 : Game.t) : Prop :=
  Game.id game1 = Game.id game0
  /\ Game.code game1 = Game.code game0
  /\ Game.dictionary game1 = Game.dictionary game0
  /\ Game.createdAt game1 = Game.createdAt game0
  /\ Game.currentRound game0 <= Game.currentRound game1.

Definition player_kept (player0 player1 : Player.t) : Prop :=
  Player.id player1 = Player.id player0
  /\ Player.gameId player1 = Player.gameId player0
  /\ Player.name player1 = Player.name player0
  /\ Player.sessionId player1 = Player.sessionId player0
  /\ Player.role player1 = Player.role player0
  /\ Player.isAdmin player1 = Player.isAdmin player0
  /\ Player.isSpectator player1 = Player.isSpectator player0
  /\ Player.score player0 <= Player.score player1.

Inductive Write (s : MemStorage) : MemStorage -> Prop :=
| write_game (g : Z) (game0 game1 : Game.t) :
    Storage.getGame g s = Some game0 ->
    game_kept game0 game1 ->
    Write s (Storage.set_games s (JsMap.set Z.eqb g game1 (st_games s)))
| write_join (g : Z) (sid : string) (p : Payload.t) (rnd : Z) (game0 : Game.t) :
    Storage.getGame g s = Some game0 ->
    Storage.getPlayerBySessionId sid s = None ->
    Write s
      (snd (Storage.createPlayer
              (join_insert g sid p rnd (Storage.getPlayersByGameId g s)) s))
| write_score (pid n : Z) (player : Player.t) :
    Storage.getPlayer pid s = Some player ->
    Player.isSpectator player = false ->
    0 <= n ->
    Write s
      (Storage.set_players s
         (JsMap.set Z.eqb pid (Player.with_score player (Player.score player + n))
            (st_players s)))
| write_removePlayer (id : Z) (s' : MemStorage) :
    Storage.removePlayer id s = Ok (tt, s') ->
    Write s s'
| write_definition (g : Z) (sid : string) (player : Player.t) (round : Z)
    (text : option string) (isCorrect : bool) :
    Storage.getPlayerBySessionId sid s = Some player ->
    is_spectator player = false ->
    round <> 0 ->
    existsb (fun def => Definition_.playerId def =? Player.id player)
      (Storage.getDefinitionsByGameId g round s) = false ->
    Write s
      (snd (Storage.createDefinition
              (InsertDefinition.mk g (Player.id player) (Some round) text (Some isCorrect)) s))
| write_vote (g : Z) (sid : string) (player : Player.t) (round : Z)
    (definitionId : option Z) :
    Storage.getPlayerBySessionId sid s = Some player ->
    is_spectator player = false ->
    round <> 0 ->
    existsb (fun vote => Vote.playerId vote =? Player.id player)
      (Storage.getVotesByGameId g round s) = false ->
    Write s
      (snd (Storage.createVote
              (InsertVote.mk g (Player.id player) definitionId (Some round)) s))
| write_clear (g r : Z) :
    Write s (Storage.clearDefinitionsAndVotesByRound g r s).

Inductive Writes (s : MemStorage) : MemStorage -> Prop :=
| writes_done : Writes s s
| writes_more (s1 s2 : MemStorage) : Writes s s1 -> Write s1 s2 -> Writes s s2.

Definition writes {A : Type} (m : M A) (w : World) : Prop :=
  Writes (storage w) (storage (snd (m w))).

(** *** What the writes keep true of the rows *)

(** No two stored players have the same session id. *)
Definition unique_sessions (s : MemStorage) : Prop :=
  forall k1 p1 k2 p2,
    In (k1, p1) (st_players s) -> In (k2, p2) (st_players s) ->
    Player.sessionId p1 = Player.sessionId p2 -> k1 = k2.

(** At most one stored player of a game is its admin. *)
Definition one_admin (s : MemStorage) : Prop :=
  forall k1 p1 k2 p2,
    In (k1, p1) (st_players s) -> In (k2, p2) (st_players s) ->
    Player.gameId p1 = Player.gameId p2 ->
    Player.isAdmin p1 = true -> Player.isAdmin p2 = true -> k1 = k2.

(** Every player belongs to a stored game. *)
Definition players_in_games (s : MemStorage) : Prop :=
  forall k p, In (k, p) (st_players s) -> Storage.getGame (Player.gameId p) s <> None.

(** Every definition and every vote has a round that is not 0 and a stored
    author who is not a spectator. *)
Definition authored (s : MemStorage) (playerId round : Z) : Prop :=
  round <> 0
  /\ exists player,
       Storage.getPlayer playerId s = Some player /\ is_spectator player = false.

Definition rows_authored (s : MemStorage) : Prop :=
  (forall k d, In (k, d) (st_definitions s) ->
               authored s (Definition_.playerId d) (Definition_.round d))
  /\ (forall k v, In (k, v) (st_votes s) -> authored s (Vote.playerId v) (Vote.round v)).

(** *** The registry *)

(** [gameRooms] as a [Map] of [Set]s: no room twice, no session twice in a
    room, no room without a session. *)
Definition rooms_wf (rooms : JsMap.t Z JsSet.t) : Prop :=
  NoDup (JsMap.keys rooms)
  /\ forall g room, In (g, room) rooms -> NoDup room /\ room <> [].

(** The world after the first lines of [join]: the socket is registered
    under the session id, which is added to the room of the game. *)
Definition join_registry (ws gameId : Z) (sessionId : string) (w : World) : World :=
  set_gameRooms (set_connections w (JsMap.set String.eqb sessionId ws (connections w)))
    (add_to_room gameId sessionId (gameRooms w)).

(** The player [join] answers with. *)
Definition join_player (g : Z) (sid : string) (p : Payload.t) (rnd : Z) (s : MemStorage)
  : Player.t :=
  match Storage.getPlayerBySessionId sid s with
  | Some player => player
  | None =>
      fst (Storage.createPlayer (join_insert g sid p rnd (Storage.getPlayersByGameId g s)) s)
  end.

(** *** What the writes keep of a game and of a player *)

Definition games_kept (s s' : MemStorage) : Prop :=
  JsMap.keys (st_games s') = JsMap.keys (st_games s)
  /\ gameIdCounter s' = gameIdCounter s
  /\ forall g game0, Storage.getGame g s = Some game0 ->
       exists game1, Storage.getGame g s' = Some game1 /\ game_kept game0 game1.

Definition players_kept (s s' : MemStorage) : Prop :=
  playerIdCounter s <= playerIdCounter s'
  /\ (forall k player0, Storage.getPlayer k s = Some player0 ->
        Storage.getPlayer k s' = None
        \/ exists player1, Storage.getPlayer k s' = Some player1 /\ player_kept player0 player1)
  /\ (forall k, k < playerIdCounter s -> Storage.getPlayer k s = None ->
        Storage.getPlayer k s' = None).

(** Two worlds with the same registry: [connections], [gameRooms] and the
    closed sockets. *)
Definition same_registry (w w' : World) : Prop :=
  connections w' = connections w
  /\ gameRooms w' = gameRooms w
  /\ notOpen w' = notOpen w.

Definition keeps_registry {A : Type} (m : M A) : Prop :=
  forall w, same_registry w (snd (m w)).

(** The registry as two [Map]s: no session id registered twice, and
    well-formed rooms. *)
Definition registry_wf (w : World) : Prop :=
  NoDup (JsMap.keys (connections w)) /\ rooms_wf (gameRooms w).

(** The [users] map, keyed like the other maps. *)
Definition users_wf (s : UserStorage) : Prop :=
  keyed User.id (userIdCounter s) (st_users s).

(** *** [broadcastToRoom] *)

(** The socket [broadcastToRoom] writes to for a session of the room. *)
Definition recipient (w : World) (excludeSessionId : option string) (sessionId : string)
  : option Z :=
  match Js.truthy_str excludeSessionId with
  | Some e => if String.eqb sessionId e then None
              else match JsMap.get String.eqb sessionId (connections w) with
                   | Some connection => if isOpen connection w then Some connection else None
                   | None => None
                   end
  | None => match JsMap.get String.eqb sessionId (connections w) with
            | Some connection => if isOpen connection w then Some connection else None
            | None => None
            end
  end.

Fixpoint recipients (w : World) (excludeSessionId : option string) (sessionIds : list string)
  : list Z :=
  match sessionIds with
  | [] => []
  | sessionId :: rest =>
      match recipient w excludeSessionId sessionId with
      | Some connection => connection :: recipients w excludeSessionId rest
      | None => recipients w excludeSessionId rest
      end
  end.

(** *** Numbers

    The integers a JavaScript number holds exactly
    ([Number.isSafeInteger]).  On them [+] is the addition of integers
    whenever the sum is one of them too, and a template literal prints all
    their digits. *)
Definition safe_integer (x : Z) : Prop := - (2 ^ 53 - 1) <= x <= 2 ^ 53 - 1.

(** *** A game played over the socket, used for the concrete checks *)

Module Scenario.

Definition game_row : InsertGame.t :=
  InsertGame.mk "ABC123" (Some 1) (Some EmptyString) (Some true) "2025-01-01" None.

(** The storage after [POST /api/games] on a fresh process. *)
Definition store0 : MemStorage := snd (Storage.createGame game_row Storage.empty).

Definition join_as (sessionId : string) (gameId : Z) (role : option string) : Incoming :=
  Envelope "join"
    (Some (Payload.mk (Some sessionId) (Some gameId) role None (Some 1)
             None None None None None)).

Definition word (w : string) : Incoming :=
  Envelope "submitWord"
    (Some (Payload.mk None (Some 1) None None None (Some w) None None None None)).

Definition definition (text : string) (isCorrect : bool) (round : Z) : Incoming :=
  Envelope "submitDefinition"
    (Some (Payload.mk None (Some 1) None None (Some round) None (Some text)
             (Some isCorrect) None None)).

Definition vote (definitionId round : Z) : Incoming :=
  Envelope "submitVote"
    (Some (Payload.mk None (Some 1) None None (Some round) None None None
             (Some definitionId) None)).

Definition control (type : string) (round : Z) : Incoming :=
  Envelope type
    (Some (Payload.mk None (Some 1) None None (Some round) None None None None None)).

Definition target (type : string) (playerId : Z) : Incoming :=
  Envelope type
    (Some (Payload.mk None (Some 1) None None (Some 1) None None None None
             (Some playerId))).

(** Seven players and a spectator join game 1, each on its own socket. *)
Definition arrivals : list Event :=
  [ Connect 1; Message 1 11 (join_as "s1" 1 None);
    Connect 2; Message 2 12 (join_as "s2" 1 None);
    Connect 3; Message 3 13 (join_as "s3" 1 None);
    Connect 4; Message 4 14 (join_as "s4" 1 None);
    Connect 5; Message 5 15 (join_as "s5" 1 None);
    Connect 6; Message 6 16 (join_as "s6" 1 None);
    Connect 7; Message 7 17 (join_as "s7" 1 None);
    Connect 8; Message 8 18 (join_as "s8" 1 (Some PlayerRole.SPECTATOR)) ].

Definition lobby : Server := Eval vm_compute in run (boot store0) arrivals.

(** Player 1 gives the word and a fake definition D1 (id 1); player 7
    enters the real one, D2 (id 2). *)
Definition writing : list Event :=
  [ Message 1 0 (word "zyzzyva");
    Message 1 0 (definition "a kind of weevil, honest" false 1);
    Message 7 0 (definition "a tropical weevil" true 1);
    Message 1 0 (control "endSubmissions" 1) ].

(** Players 4, 5 and 6 vote for D1; players 2 and 3 vote for D2. *)
Definition ballots : list Event :=
  [ Message 4 0 (vote 1 1); Message 5 0 (vote 1 1); Message 6 0 (vote 1 1);
    Message 2 0 (vote 2 1); Message 3 0 (vote 2 1) ].

Definition voted : Server := Eval vm_compute in run lobby (writing ++ ballots).

Definition results : Server :=
  Eval vm_compute in run voted [Message 1 0 (control "endVoting" 1)].

(** Session [s3] connects again, on socket 9, while socket 3 is still open. *)
Definition reconnected : Server :=
  Eval vm_compute in run voted [Connect 9; Message 9 19 (join_as "s3" 1 None)].

(** Socket 3 joins once more, as session [s10]: two sessions on one socket. *)
Definition shared : Server :=
  Eval vm_compute in run voted [Message 3 20 (join_as "s10" 1 None)].

(** The snapshot of game 1, round 1, after the votes. *)
Definition snapshot : GameState :=
  mkGameState (Game.mk 1 "ABC123" 3 (Some "zyzzyva"%string) true "2025-01-01" 1)
    (Storage.getPlayersByGameId 1 (storage (world voted)))
    (Storage.getDefinitionsByGameId 1 1 (storage (world voted)))
    (Storage.getVotesByGameId 1 1 (storage (world voted))).

Definition scores (sv : Server) : list (Z * Z) :=
  map (fun p => (Player.id p, Player.score p)) (JsMap.values (st_players (storage (world sv)))).

End Scenario.

Module Scenario2.

(** Two games on one process; session [s1] has joined game 1 only. *)
Definition game_row2 : InsertGame.t :=
  InsertGame.mk "DEF456" (Some 1) (Some EmptyString) (Some true) "2025-01-02" None.

Definition store2 : MemStorage := snd (Storage.createGame game_row2 Scenario.store0).

Definition one_joined : Server :=
  Eval vm_compute in
    run (boot store2) [Connect 1; Message 1 11 (Scenario.join_as "s1" 1 None)].

(** The admin of game 1 removes itself, then a second session joins. *)
Definition admin_gone : Server :=
  Eval vm_compute in
    run one_joined [Message 1 0 (Scenario.target "removePlayer" 1)].

Definition second_joined : Server :=
  Eval vm_compute in
    run admin_gone [Connect 2; Message 2 12 (Scenario.join_as "s2" 1 None)].

End Scenario2.
(* ------------------------------------------------------------------ *)
(** * Properties *)

(** ** Maps *)

Section JsMapFacts.
Variables K V : Type.
Variable eqb : K -> K -> bool.
Hypothesis eqb_eq : forall a b, eqb a b = true <-> a = b.

Lemma eqb_same (a : K) : eqb a a = true.
Proof. apply eqb_eq; reflexivity. Qed.

Lemma eqb_symm (a b : K) : eqb a b = eqb b a.
Proof.
  destruct (eqb a b) eqn:E, (eqb b a) eqn:E'; try reflexivity.
  - apply eqb_eq in E; subst. rewrite eqb_same in E'. discriminate.
  - apply eqb_eq in E'; subst. rewrite eqb_same in E. discriminate.
Qed.

Lemma get_set (k k' : K) (v : V) (m : JsMap.t K V) :
  JsMap.get eqb k (JsMap.set eqb k' v m) = if eqb k k' then Some v else JsMap.get eqb k m.
Proof.
  induction m as [|[k0 v0] r IH]; simpl.
  - reflexivity.
  - destruct (eqb k' k0) eqn:E; simpl.
    + apply eqb_eq in E; subst k0. destruct (eqb k k'); reflexivity.
    + destruct (eqb k k0) eqn:E0.
      * apply eqb_eq in E0; subst k0. rewrite eqb_symm, E. reflexivity.
      * apply IH.
Qed.

Lemma get_delete (k k' : K) (m : JsMap.t K V) :
  JsMap.get eqb k (JsMap.delete eqb k' m) = if eqb k k' then None else JsMap.get eqb k m.
Proof.
  induction m as [|[k0 v0] r IH]; simpl.
  - destruct (eqb k k'); reflexivity.
  - destruct (eqb k' k0) eqn:E; simpl.
    + apply eqb_eq in E; subst k0. rewrite IH. destruct (eqb k k'); reflexivity.
    + rewrite IH. destruct (eqb k k0) eqn:E0; [|reflexivity].
      apply eqb_eq in E0; subst k0. rewrite eqb_symm, E. reflexivity.
Qed.

Lemma keys_set_present (k : K) (v : V) (m : JsMap.t K V) :
  JsMap.has eqb k m = true -> JsMap.keys (JsMap.set eqb k v m) = JsMap.keys m.
Proof.
  unfold JsMap.has. induction m as [|[k0 v0] r IH]; simpl; [discriminate|].
  destruct (eqb k k0) eqn:E; simpl; intros H.
  - apply eqb_eq in E; subst; reflexivity.
  - f_equal. apply IH, H.
Qed.

Lemma get_In (k : K) (v : V) (m : JsMap.t K V) :
  JsMap.get eqb k m = Some v -> In (k, v) m.
Proof.
  induction m as [|[k0 v0] r IH]; simpl; [discriminate|].
  destruct (eqb k k0) eqn:E; intros H.
  - apply eqb_eq in E; subst. injection H as ->. left; reflexivity.
  - right; apply IH, H.
Qed.

Lemma In_get (k : K) (v : V) (m : JsMap.t K V) :
  NoDup (JsMap.keys m) -> In (k, v) m -> JsMap.get eqb k m = Some v.
Proof.
  induction m as [|[k0 v0] r IH]; simpl; [contradiction|].
  intros ND [E|HIn].
  - injection E as -> ->. rewrite eqb_same. reflexivity.
  - inversion ND as [|? ? Hnot ND']; subst.
    destruct (eqb k k0) eqn:E.
    + apply eqb_eq in E; subst. exfalso. apply Hnot.
      change k0 with (fst (k0, v)). apply in_map, HIn.
    + apply IH; assumption.
Qed.

Lemma get_none_not_key (k : K) (m : JsMap.t K V) :
  JsMap.get eqb k m = None -> ~ In k (JsMap.keys m).
Proof.
  induction m as [|[k0 v0] r IH]; simpl; [tauto|].
  destruct (eqb k k0) eqn:E; [discriminate|].
  intros H [E'|HIn]; [subst; rewrite eqb_same in E; discriminate|].
  exact (IH H HIn).
Qed.

Lemma set_absent (k : K) (v : V) (m : JsMap.t K V) :
  JsMap.get eqb k m = None -> JsMap.set eqb k v m = m ++ [(k, v)].
Proof.
  induction m as [|[k0 v0] r IH]; simpl; [reflexivity|].
  destruct (eqb k k0); [discriminate|]. intros H. rewrite IH by exact H. reflexivity.
Qed.

End JsMapFacts.

Lemma zget_set (V : Type) (k k' : Z) (v : V) (m : JsMap.t Z V) :
  JsMap.get Z.eqb k (JsMap.set Z.eqb k' v m) = if k =? k' then Some v else JsMap.get Z.eqb k m.
Proof. apply get_set, Z.eqb_eq. Qed.

Lemma zget_delete (V : Type) (k k' : Z) (m : JsMap.t Z V) :
  JsMap.get Z.eqb k (JsMap.delete Z.eqb k' m) = if k =? k' then None else JsMap.get Z.eqb k m.
Proof. apply get_delete, Z.eqb_eq. Qed.

(** ** Lists *)

Lemma filter_filter_and (A : Type) (f g : A -> bool) (l : list A) :
  filter f (filter g l) = filter (fun x => g x && f x) l.
Proof.
  induction l as [|a r IH]; simpl; [reflexivity|].
  destruct (g a); simpl; [|exact IH]. destruct (f a); rewrite IH; reflexivity.
Qed.

(** ** The handler monad *)

Lemma set_storage_same (w : World) : set_storage w (storage w) = w.
Proof. destruct w; reflexivity. Qed.

Lemma with_score_same (p : Player.t) : Player.with_score p (Player.score p + 0) = p.
Proof. destruct p; unfold Player.with_score; simpl. rewrite Z.add_0_r. reflexivity. Qed.

(** *** [broadcastGameState] sends one frame per live, known session *)


Lemma add_sent_nil (w : World) : add_sent w [] = w.
Proof. destruct w; unfold add_sent; simpl. rewrite app_nil_r. reflexivity. Qed.

Lemma frames_add_sent (w : World) (fs : list (Z * ServerMsg)) gs ids :
  frames (add_sent w fs) gs ids = frames w gs ids.
Proof. induction ids as [|i r IH]; simpl; [reflexivity|]. rewrite IH. reflexivity. Qed.

Lemma broadcast_loop_run (ids : list string) (gs : GameState) (w : World) :
  broadcast_loop ids gs w = (Ok tt, add_sent w (frames w gs ids)).
Proof.
  revert w. induction ids as [|i r IH]; intros w; simpl.
  - rewrite add_sent_nil. reflexivity.
  - unfold bind, frame_for.
    destruct (JsMap.get String.eqb i (connections w)) as [c|] eqn:Ec; simpl.
    + destruct (isOpen c w) eqn:Eo; simpl.
      * destruct (Storage.getPlayerBySessionId i (storage w)) as [p|] eqn:Ep; simpl.
        -- rewrite IH.
           change (push_sent w (c, GameStateMsg gs p))
             with (add_sent w [(c, GameStateMsg gs p)]).
           rewrite frames_add_sent. unfold add_sent; simpl.
           rewrite <- app_assoc. reflexivity.
        -- apply IH.
      * apply IH.
    + apply IH.
Qed.


Lemma broadcastGameState_run (gameId : Z) (gs : GameState) (w : World) :
  broadcastGameState gameId gs w = (Ok tt, add_sent w (frames w gs (room_of gameId w))).
Proof.
  unfold broadcastGameState, room_of.
  destruct (JsMap.get Z.eqb gameId (gameRooms w)).
  - apply broadcast_loop_run.
  - simpl. rewrite add_sent_nil. reflexivity.
Qed.

(** ** Dispatch *)

Lemma dispatch_joined (ws rnd : Z) (cv : ConnVars) (type : string)
    (payload : option Payload.t) (g : Z) (sid : string) :
  joined cv = Some (g, sid) ->
  classify type <> CJoin ->
  dispatch ws rnd cv (Envelope type payload) = case_body ws g sid (classify type) payload.
Proof.
  intros Hj Hc. unfold dispatch, when_joined, case_body. rewrite Hj.
  destruct (classify type); try reflexivity. contradiction.
Qed.

Lemma dispatch_not_joined (ws rnd : Z) (cv : ConnVars) (type : string)
    (payload : option Payload.t) :
  joined cv = None ->
  classify type <> CJoin ->
  dispatch ws rnd cv (Envelope type payload) = ret tt.
Proof.
  intros Hj Hc. unfold dispatch, when_joined. rewrite Hj.
  destruct (classify type); try reflexivity. contradiction.
Qed.

Lemma on_message_joined (ws rnd : Z) (cv : ConnVars) (type : string)
    (payload : option Payload.t) (w : World) (g : Z) (sid : string) :
  joined cv = Some (g, sid) ->
  classify type <> CJoin ->
  snd (on_message ws rnd cv (Envelope type payload) w)
  = try_catch ws (case_body ws g sid (classify type) payload) w.
Proof.
  intros Hj Hc. unfold on_message. cbn [snd].
  rewrite (dispatch_joined ws rnd cv type payload g sid Hj Hc). reflexivity.
Qed.

Lemma on_message_not_joined (ws rnd : Z) (cv : ConnVars) (type : string)
    (payload : option Payload.t) (w : World) :
  joined cv = None ->
  classify type <> CJoin ->
  snd (on_message ws rnd cv (Envelope type payload) w) = w.
Proof.
  intros Hj Hc. unfold on_message. cbn [snd].
  rewrite (dispatch_not_joined ws rnd cv type payload Hj Hc). reflexivity.
Qed.

(** ** The scoring pass *)

Lemma getPlayer_credit (q pid n : Z) (s : MemStorage) :
  Storage.getPlayer q (credit pid n s)
  = option_map (scored (if q =? pid then n else 0)) (Storage.getPlayer q s).
Proof.
  unfold credit, scored.
  destruct (Storage.getPlayer pid s) as [p|] eqn:Ep.
  - destruct (Player.isSpectator p) eqn:Es; simpl.
    + destruct (Storage.getPlayer q s) as [p'|] eqn:Eq; simpl; [|reflexivity].
      destruct (Z.eqb_spec q pid) as [->|Hne].
      * rewrite Ep in Eq. injection Eq as <-. rewrite Es, with_score_same. reflexivity.
      * destruct (Player.isSpectator p'); rewrite with_score_same; reflexivity.
    + unfold Storage.getPlayer, Storage.set_players; simpl. rewrite zget_set.
      destruct (Z.eqb_spec q pid) as [->|Hne].
      * unfold Storage.getPlayer in Ep. rewrite Ep; simpl. rewrite Es. reflexivity.
      * destruct (JsMap.get Z.eqb q (st_players s)) as [p'|]; simpl; [|reflexivity].
        destruct (Player.isSpectator p'); rewrite with_score_same; reflexivity.
  - destruct (Z.eqb_spec q pid) as [->|Hne].
    + rewrite Ep. reflexivity.
    + destruct (Storage.getPlayer q s) as [p'|]; simpl; [|reflexivity].
      destruct (Player.isSpectator p'); rewrite with_score_same; reflexivity.
Qed.

Lemma scored_scored (a b : Z) (p : Player.t) : scored b (scored a p) = scored (a + b) p.
Proof.
  destruct p; unfold scored, Player.with_score; simpl.
  destruct isSpectator; f_equal; lia.
Qed.

Lemma getPlayer_apply_credits (q : Z) (cs : list (Z * Z)) (s : MemStorage) :
  Storage.getPlayer q (apply_credits cs s)
  = option_map (scored (total_for q cs)) (Storage.getPlayer q s).
Proof.
  revert s. induction cs as [|[pid n] r IH]; intros s; simpl.
  - destruct (Storage.getPlayer q s) as [p|]; simpl; [|reflexivity].
    unfold scored. destruct (Player.isSpectator p); rewrite with_score_same; reflexivity.
  - unfold apply_credits in *; simpl. rewrite IH, getPlayer_credit.
    destruct (Storage.getPlayer q s) as [p|]; simpl; [|reflexivity].
    rewrite scored_scored. unfold total_for; simpl.
    destruct (pid =? q) eqn:E; rewrite Z.eqb_sym, E; simpl; f_equal; lia.
Qed.

Lemma credit_run (pid n : Z) (w : World) :
  (player <- query (Storage.getPlayer pid) ;;
   match player with
   | Some player =>
       if negb (Player.isSpectator player) then
         call (Storage.updatePlayerScore pid n) ;; ret tt
       else ret tt
   | None => ret tt
   end) w
  = (Ok tt, set_storage w (credit pid n (storage w))).
Proof.
  unfold bind, query, call, credit, Storage.updatePlayerScore; simpl.
  destruct (Storage.getPlayer pid (storage w)) as [p|] eqn:Ep; simpl.
  - destruct (Player.isSpectator p); simpl.
    + rewrite set_storage_same. reflexivity.
    + rewrite Ep. reflexivity.
  - rewrite set_storage_same. reflexivity.
Qed.

Lemma score_definitions_run (defs : list Definition_.t) (votes : list Vote.t) (w : World) :
  score_definitions defs votes w
  = (Ok tt, set_storage w (apply_credits (author_credits defs votes) (storage w))).
Proof.
  revert w. induction defs as [|d r IH]; intros w.
  - simpl. rewrite set_storage_same. reflexivity.
  - cbn [score_definitions]. unfold author_credits; cbn [filter].
    unfold fooled_someone at 1.
    destruct (negb (Definition_.isCorrect d) && (0 <? voteCount votes d)) eqn:E.
    + unfold bind at 1. rewrite credit_run. rewrite IH. reflexivity.
    + unfold bind at 1. simpl. rewrite IH. reflexivity.
Qed.

Lemma score_correct_votes_run (vs : list Vote.t) (w : World) :
  score_correct_votes vs w
  = (Ok tt, set_storage w (apply_credits (voter_credits vs) (storage w))).
Proof.
  revert w. induction vs as [|v r IH]; intros w.
  - simpl. rewrite set_storage_same. reflexivity.
  - cbn [score_correct_votes]. unfold voter_credits; cbn [map].
    unfold apply_credits; cbn [fold_left fst snd].
    fold (apply_credits (voter_credits r) (credit (Vote.playerId v) 2 (storage w))).
    unfold bind at 1. unfold query at 1. unfold credit.
    destruct (Storage.getPlayer (Vote.playerId v) (storage w)) as [p|] eqn:Ep.
    + destruct (Player.isSpectator p) eqn:Es; cbn [negb].
      * unfold bind at 1. cbn [ret]. apply IH.
      * unfold bind, call, Storage.updatePlayerScore. rewrite Ep. cbn [ret].
        rewrite IH. reflexivity.
    + unfold bind at 1. cbn [ret]. apply IH.
Qed.

Lemma calculate_scores_run (defs : list Definition_.t) (votes : list Vote.t) (w : World) :
  calculate_scores defs votes w
  = (Ok tt, set_storage w
              (apply_credits (author_credits defs votes ++ voter_credits (correct_votes defs votes))
                 (storage w))).
Proof.
  unfold calculate_scores, bind. rewrite score_definitions_run.
  unfold apply_credits at 2. rewrite fold_left_app. fold (apply_credits (author_credits defs votes) (storage w)).
  unfold correct_votes.
  destruct (find Definition_.isCorrect defs) as [cd|].
  - rewrite score_correct_votes_run. reflexivity.
  - reflexivity.
Qed.




Lemma credit_frame (pid n : Z) (s : MemStorage) :
  st_games (credit pid n s) = st_games s
  /\ st_definitions (credit pid n s) = st_definitions s
  /\ st_votes (credit pid n s) = st_votes s.
Proof.
  unfold credit. destruct (Storage.getPlayer pid s) as [p|]; [|auto].
  destruct (negb (Player.isSpectator p)); simpl; auto.
Qed.

Lemma apply_credits_frame (cs : list (Z * Z)) (s : MemStorage) :
  st_games (apply_credits cs s) = st_games s
  /\ st_definitions (apply_credits cs s) = st_definitions s
  /\ st_votes (apply_credits cs s) = st_votes s.
Proof.
  revert s. induction cs as [|c r IH]; intros s; [simpl; auto|].
  unfold apply_credits in *; simpl.
  destruct (IH (credit (fst c) (snd c) s)) as (A & B & C).
  destruct (credit_frame (fst c) (snd c) s) as (A' & B' & C').
  rewrite A, B, C. auto.
Qed.

(** The storage after an accepted [endVoting]. *)
Lemma endVoting_accepted (ws g : Z) (sid : string) (p : Payload.t) (w : World)
    (sender : Player.t) (game0 : Game.t) :
  Storage.getPlayerBySessionId sid (storage w) = Some sender ->
  is_spectator sender = false ->
  Storage.getGame g (storage w) = Some game0 ->
  let r := Js.or_one (Payload.round p) in
  let s := storage w in
  let defs := Storage.getDefinitionsByGameId g r s in
  let votes := Storage.getVotesByGameId g r s in
  let s1 := Storage.set_games s (JsMap.set Z.eqb g (Game.with_phase game0 4) (st_games s)) in
  let s2 := apply_credits (author_credits defs votes ++ voter_credits (correct_votes defs votes)) s1 in
  exists fs, endVoting ws g sid (Some p) w = (Ok tt, add_sent (set_storage w s2) fs).
Proof.
  intros Hs Hn Hg r s defs votes s1 s2.
  unfold endVoting, bind at 1, query at 1. rewrite Hs, Hn.
  unfold bind at 1, call at 1, Storage.updateGamePhase. rewrite Hg.
  unfold bind at 1, payload_of, ret at 1.
  unfold bind at 1, query at 1. unfold bind at 1, query at 1.
  unfold bind at 1. rewrite calculate_scores_run.
  cbn [storage set_storage connections gameRooms notOpen sent].
  fold s s1. change (Storage.getDefinitionsByGameId g (Js.or_one (Payload.round p)) s1) with defs.
  change (Storage.getVotesByGameId g (Js.or_one (Payload.round p)) s1) with votes.
  fold s2.
  unfold bind at 1, call at 1, Storage.getGameState.
  cbn [storage].
  assert (Hg2 : Storage.getGame g s2 = Some (Game.with_phase game0 4)).
  { unfold Storage.getGame, s2.
    destruct (apply_credits_frame
                (author_credits defs votes ++ voter_credits (correct_votes defs votes)) s1)
      as (A & _ & _).
    rewrite A. unfold s1; simpl. rewrite zget_set, Z.eqb_refl. reflexivity. }
  cbn [storage set_storage connections gameRooms notOpen sent]. rewrite Hg2.
  rewrite broadcastGameState_run. eexists. reflexivity.
Qed.



Lemma scored_zero (p : Player.t) : scored 0 p = p.
Proof. unfold scored. destruct (Player.isSpectator p); apply with_score_same. Qed.







(** ** Broadcast *)

Lemma find_first (A : Type) (f : A -> bool) (l : list A) (x : A) :
  find f l = Some x ->
  f x = true
  /\ exists before after,
       l = before ++ x :: after /\ forall y, In y before -> f y = false.
Proof.
  induction l as [|a r IH]; simpl; [discriminate|].
  destruct (f a) eqn:E.
  - intros H. injection H as <-. split; [exact E|].
    exists [], r. split; [reflexivity|]. intros y [].
  - intros H. destruct (IH H) as (Hx & before & after & -> & Hb).
    split; [exact Hx|]. exists (a :: before), after. split; [reflexivity|].
    intros y [<-|Hy]; [exact E|exact (Hb y Hy)].
Qed.

Lemma getPlayerBySessionId_own (sessionId : string) (s : MemStorage) (player : Player.t) :
  Storage.getPlayerBySessionId sessionId s = Some player -> own_player s sessionId player.
Proof.
  unfold Storage.getPlayerBySessionId. intros H.
  destruct (find_first _ _ _ _ H) as (Hx & before & after & E & Hb).
  split; [apply String.eqb_eq, Hx|].
  exists before, after. split; [exact E|].
  intros other Ho Es. pose proof (Hb other Ho) as Hf. simpl in Hf.
  rewrite Es, String.eqb_refl in Hf. discriminate.
Qed.

Lemma frames_personalized (w : World) (gs : GameState) (ids : list string) :
  Forall2 (personalized w gs) (filter (live w) ids) (frames w gs ids).
Proof.
  induction ids as [|i r IH]; simpl; [constructor|].
  unfold live at 1, frame_for.
  destruct (JsMap.get String.eqb i (connections w)) as [c|] eqn:Ec; [|exact IH].
  destruct (isOpen c w) eqn:Eo; [|exact IH].
  destruct (Storage.getPlayerBySessionId i (storage w)) as [p|] eqn:Ep; [|exact IH].
  simpl. constructor; [|exact IH].
  exists c, p. split; [exact Ec|]. split; [exact Eo|]. split; [exact Ep|].
  split; [exact (getPlayerBySessionId_own i (storage w) p Ep)|reflexivity].
Qed.

(** ** Deleting entries; cancelling and starting rounds *)

Lemma In_delete (V : Type) (k : Z) (e : Z * V) (m : JsMap.t Z V) :
  In e (JsMap.delete Z.eqb k m) <-> In e m /\ fst e <> k.
Proof.
  unfold JsMap.delete. rewrite filter_In.
  destruct (Z.eqb_spec k (fst e)) as [->|Hne]; simpl; intuition congruence.
Qed.

Lemma In_delete_all (V : Type) (ids : list Z) (e : Z * V) (m : JsMap.t Z V) :
  In e (Storage.delete_all ids m) <-> In e m /\ ~ In (fst e) ids.
Proof.
  unfold Storage.delete_all. revert m.
  induction ids as [|i r IH]; intros m; simpl.
  - tauto.
  - rewrite IH, In_delete. intuition congruence.
Qed.

Lemma filter_nil_iff (A : Type) (f : A -> bool) (l : list A) :
  filter f l = [] <-> forall x, In x l -> f x = false.
Proof.
  induction l as [|a r IH]; simpl.
  - split; [intros _ x []|reflexivity].
  - destruct (f a) eqn:E.
    + split; [discriminate|]. intros H. rewrite (H a (or_introl eq_refl)) in E. discriminate.
    + rewrite IH. split.
      * intros H x [<-|Hx]; [exact E|apply H, Hx].
      * intros H x Hx. apply H. right; exact Hx.
Qed.

Lemma clear_definitions_empty (g r : Z) (s : MemStorage) :
  Storage.getDefinitionsByGameId g r (Storage.clearDefinitionsAndVotesByRound g r s) = [].
Proof.
  unfold Storage.getDefinitionsByGameId, Storage.clearDefinitionsAndVotesByRound; simpl.
  apply filter_nil_iff. intros d Hd.
  unfold JsMap.values in Hd. apply in_map_iff in Hd. destruct Hd as ([k d'] & Heq & HIn).
  simpl in Heq; subst d'. apply In_delete_all in HIn. destruct HIn as [HIn Hnot].
  destruct ((Definition_.gameId d =? g) && (Definition_.round d =? r)) eqn:E; [|reflexivity].
  exfalso. apply Hnot. unfold Storage.round_def_ids. simpl.
  change k with (fst (k, d)). apply in_map. apply filter_In. split; [exact HIn|exact E].
Qed.

Lemma clear_votes_empty (g r : Z) (s : MemStorage) :
  Storage.getVotesByGameId g r (Storage.clearDefinitionsAndVotesByRound g r s) = [].
Proof.
  unfold Storage.getVotesByGameId, Storage.clearDefinitionsAndVotesByRound; simpl.
  apply filter_nil_iff. intros v Hv.
  unfold JsMap.values in Hv. apply in_map_iff in Hv. destruct Hv as ([k v'] & Heq & HIn).
  simpl in Heq; subst v'. apply In_delete_all in HIn. destruct HIn as [HIn Hnot].
  destruct ((Vote.gameId v =? g) && (Vote.round v =? r)) eqn:E; [|reflexivity].
  exfalso. apply Hnot. unfold Storage.round_vote_ids. simpl.
  change k with (fst (k, v)). apply in_map. apply filter_In. split; [exact HIn|exact E].
Qed.

(** The game row written by [cancelRound] and by [startNewRound]. *)
Lemma cancelRound_run (g : Z) (s : MemStorage) (game0 : Game.t) :
  Storage.getGame g s = Some game0 ->
  exists s',
    Storage.cancelRound g s = Ok (reset_game game0 (Game.currentRound game0), s')
    /\ Storage.getGame g s' = Some (reset_game game0 (Game.currentRound game0))
    /\ Storage.getDefinitionsByGameId g (Storage.round_of game0) s' = []
    /\ Storage.getVotesByGameId g (Storage.round_of game0) s' = []
    /\ st_players s' = st_players s.
Proof.
  intros Hg. unfold Storage.cancelRound. rewrite Hg. eexists. split; [reflexivity|].
  split; [|split; [|split]].
  - unfold Storage.getGame; simpl. rewrite zget_set, Z.eqb_refl. reflexivity.
  - exact (clear_definitions_empty g (Storage.round_of game0) s).
  - exact (clear_votes_empty g (Storage.round_of game0) s).
  - reflexivity.
Qed.

Lemma round_of_nonzero (game0 : Game.t) :
  Game.currentRound game0 <> 0 -> Storage.round_of game0 = Game.currentRound game0.
Proof.
  intros H. unfold Storage.round_of, Js.or_one.
  destruct (Z.eqb_spec (Game.currentRound game0) 0); [contradiction|reflexivity].
Qed.

Lemma cancelRound_by_admin (ws g : Z) (sid : string) (w : World) (sender : Player.t)
    (game0 : Game.t) :
  Storage.getPlayerBySessionId sid (storage w) = Some sender ->
  Player.isAdmin sender = true ->
  Storage.getGame g (storage w) = Some game0 ->
  exists s' fs,
    cancelRound ws g sid w = (Ok tt, add_sent (set_storage w s') fs)
    /\ Storage.cancelRound g (storage w)
       = Ok (reset_game game0 (Game.currentRound game0), s').
Proof.
  intros Hs Ha Hg.
  destruct (cancelRound_run g (storage w) game0 Hg) as (s' & Hc & Hg' & _).
  exists s'. unfold cancelRound, bind at 1, query at 1. rewrite Hs, Ha. cbn [negb].
  unfold bind at 1, call at 1. rewrite Hc.
  unfold bind at 1, call at 1, Storage.getGameState. cbn [storage set_storage].
  rewrite Hg'. rewrite broadcastGameState_run. eexists. split; reflexivity.
Qed.

Lemma cancelRound_by_other (ws g : Z) (sid : string) (w : World) (sender : Player.t) :
  Storage.getPlayerBySessionId sid (storage w) = Some sender ->
  Player.isAdmin sender = false ->
  cancelRound ws g sid w
  = (Ok tt, push_sent w (ws, ErrorMsg "Only admins can cancel the current round.")).
Proof.
  intros Hs Ha. unfold cancelRound, bind at 1, query at 1. rewrite Hs, Ha. reflexivity.
Qed.

Lemma newRound_accepted (ws g : Z) (sid : string) (w : World) (sender : Player.t)
    (game0 : Game.t) :
  Storage.getPlayerBySessionId sid (storage w) = Some sender ->
  is_spectator sender = false ->
  Storage.getGame g (storage w) = Some game0 ->
  exists fs,
    newRound ws g sid w
    = (Ok tt,
       add_sent
         (set_storage w
            (Storage.set_games (storage w)
               (JsMap.set Z.eqb g (reset_game game0 (Storage.round_of game0 + 1))
                  (st_games (storage w))))) fs).
Proof.
  intros Hs Hn Hg.
  unfold newRound, bind at 1, query at 1. rewrite Hs, Hn.
  unfold bind at 1, call at 1, Storage.startNewRound. rewrite Hg.
  unfold bind at 1, call at 1, Storage.getGameState. cbn [storage set_storage].
  unfold Storage.getGame at 1. cbn [st_games Storage.set_games].
  rewrite zget_set, Z.eqb_refl. rewrite broadcastGameState_run. eexists. reflexivity.
Qed.

(** ** What each accepted command writes *)

Lemma getGameState_ok (g r : Z) (s : MemStorage) (game0 : Game.t) :
  Storage.getGame g s = Some game0 ->
  exists gs, Storage.getGameState g r s = Ok (gs, s).
Proof. intros H. unfold Storage.getGameState. rewrite H. eexists. reflexivity. Qed.

(** The tail of every accepted command: snapshot, then broadcast. *)
Lemma snapshot_broadcast (g r : Z) (w : World) (game0 : Game.t) :
  Storage.getGame g (storage w) = Some game0 ->
  exists fs,
    (gameState <- call (Storage.getGameState g r) ;; broadcastGameState g gameState) w
    = (Ok tt, add_sent w fs)
    /\ Forall (fun f => exists gs p, snd f = GameStateMsg gs p) fs.
Proof.
  intros Hg. destruct (getGameState_ok g r (storage w) game0 Hg) as (gs & Hgs).
  unfold bind, call. rewrite Hgs. rewrite set_storage_same.
  rewrite broadcastGameState_run. eexists. split; [reflexivity|].
  induction (room_of g w) as [|i l IH]; simpl; [constructor|].
  unfold frame_for.
  destruct (JsMap.get String.eqb i (connections w)) as [c|]; [|exact IH].
  destruct (isOpen c w); [|exact IH].
  destruct (Storage.getPlayerBySessionId i (storage w)) as [p|]; [|exact IH].
  constructor; [|exact IH]. simpl. eauto.
Qed.

Lemma set_set (V : Type) (k : Z) (v1 v2 : V) (m : JsMap.t Z V) :
  JsMap.set Z.eqb k v2 (JsMap.set Z.eqb k v1 m) = JsMap.set Z.eqb k v2 m.
Proof.
  induction m as [|[k0 v0] r IH]; simpl.
  - rewrite Z.eqb_refl. reflexivity.
  - destruct (Z.eqb_spec k k0); simpl.
    + rewrite Z.eqb_refl. reflexivity.
    + destruct (Z.eqb_spec k k0); [contradiction|]. rewrite IH. reflexivity.
Qed.

Lemma getGame_written (g : Z) (game1 : Game.t) (s : MemStorage) :
  Storage.getGame g (Storage.set_games s (JsMap.set Z.eqb g game1 (st_games s))) = Some game1.
Proof. unfold Storage.getGame; simpl. rewrite zget_set, Z.eqb_refl. reflexivity. Qed.

Lemma updateGamePhase_run (g ph : Z) (s : MemStorage) (game0 : Game.t) :
  Storage.getGame g s = Some game0 ->
  Storage.updateGamePhase g ph s
  = Ok (Game.with_phase game0 ph,
        Storage.set_games s (JsMap.set Z.eqb g (Game.with_phase game0 ph) (st_games s))).
Proof. intros H. unfold Storage.updateGamePhase. rewrite H. reflexivity. Qed.

Lemma updateGameWord_run (g : Z) (word : string) (s : MemStorage) (game0 : Game.t) :
  Storage.getGame g s = Some game0 ->
  Storage.updateGameWord g word s
  = Ok (Game.with_word game0 word,
        Storage.set_games s (JsMap.set Z.eqb g (Game.with_word game0 word) (st_games s))).
Proof. intros H. unfold Storage.updateGameWord. rewrite H. reflexivity. Qed.

Lemma submitWord_accepted (ws g : Z) (sid : string) (p : Payload.t) (w : World)
    (sender : Player.t) (game0 : Game.t) (word : string) :
  Storage.getPlayerBySessionId sid (storage w) = Some sender ->
  is_spectator sender = false ->
  valid_word (Payload.word p) = Some word ->
  Storage.getGame g (storage w) = Some game0 ->
  exists fs,
    submitWord ws g sid (Some p) w
    = (Ok tt,
       add_sent
         (set_storage w
            (Storage.set_games (storage w)
               (JsMap.set Z.eqb g
                  (Game.with_phase (Game.with_word game0 (Js.trim word)) 2)
                  (st_games (storage w))))) fs).
Proof.
  intros Hs Hn Hw Hg.
  unfold submitWord, bind at 1, query at 1. rewrite Hs, Hn.
  unfold bind at 1, payload_of, ret at 1. rewrite Hw.
  unfold bind at 1, call at 1.
  rewrite (updateGameWord_run g (Js.trim word) (storage w) game0 Hg).
  unfold bind at 1, call at 1. cbn [storage set_storage].
  rewrite (updateGamePhase_run g 2 _ (Game.with_word game0 (Js.trim word))
             (getGame_written g _ (storage w))).
  cbn [st_games Storage.set_games]. rewrite set_set.
  match goal with
  | |- context [(_ <- call (Storage.getGameState g ?r) ;; _) ?w1] =>
      destruct (snapshot_broadcast g r w1
                  (Game.with_phase (Game.with_word game0 (Js.trim word)) 2)) as (fs & Hrun & _)
  end.
  { apply (getGame_written g _ (storage w)). }
  rewrite Hrun. exists fs. reflexivity.
Qed.

Lemma existsb_In (A : Type) (f : A -> bool) (l : list A) (x : A) :
  In x l -> f x = true -> existsb f l = true.
Proof. intros HIn Hf. apply existsb_exists. exists x. auto. Qed.

Lemma submitDefinition_duplicate (ws g : Z) (sid : string) (p : Payload.t) (w : World)
    (sender : Player.t) (d : Definition_.t) :
  Storage.getPlayerBySessionId sid (storage w) = Some sender ->
  In d (Storage.getDefinitionsByGameId g (Js.or_one (Payload.round p)) (storage w)) ->
  Definition_.playerId d = Player.id sender ->
  submitDefinition ws g sid (Some p) w
  = (Ok tt,
     push_sent w
       (ws, ErrorMsg (if is_spectator sender
                      then "Spectators cannot submit definitions."
                      else "You have already submitted a definition for this round."))).
Proof.
  intros Hs HIn Hd. unfold submitDefinition, bind at 1, query at 1. rewrite Hs.
  destruct (is_spectator sender); [reflexivity|].
  unfold bind at 1, payload_of, ret at 1. unfold bind at 1, query at 1.
  rewrite (existsb_In _ _ _ d HIn); [reflexivity|].
  rewrite Hd. apply Z.eqb_refl.
Qed.

Lemma submitVote_duplicate (ws g : Z) (sid : string) (p : Payload.t) (w : World)
    (sender : Player.t) (v : Vote.t) :
  Storage.getPlayerBySessionId sid (storage w) = Some sender ->
  In v (Storage.getVotesByGameId g (Js.or_one (Payload.round p)) (storage w)) ->
  Vote.playerId v = Player.id sender ->
  submitVote ws g sid (Some p) w
  = (Ok tt,
     push_sent w
       (ws, ErrorMsg (if is_spectator sender
                      then "Spectators cannot vote."
                      else "You have already voted for this round."))).
Proof.
  intros Hs HIn Hv. unfold submitVote, bind at 1, query at 1. rewrite Hs.
  destruct (is_spectator sender); [reflexivity|].
  unfold bind at 1, payload_of, ret at 1. unfold bind at 1, query at 1.
  rewrite (existsb_In _ _ _ v HIn); [reflexivity|].
  rewrite Hv. apply Z.eqb_refl.
Qed.

Lemma submitDefinition_accepted (ws g : Z) (sid : string) (p : Payload.t) (w : World)
    (sender : Player.t) (game0 : Game.t) :
  Storage.getPlayerBySessionId sid (storage w) = Some sender ->
  is_spectator sender = false ->
  existsb (fun def => Definition_.playerId def =? Player.id sender)
    (Storage.getDefinitionsByGameId g (Js.or_one (Payload.round p)) (storage w)) = false ->
  Storage.getGame g (storage w) = Some game0 ->
  exists fs,
    submitDefinition ws g sid (Some p) w
    = (Ok tt,
       add_sent
         (set_storage w
            (snd (Storage.createDefinition
                    (InsertDefinition.mk g (Player.id sender)
                       (Some (Js.or_one (Payload.round p))) (Payload.text p)
                       (Some (Js.nullish (Payload.isCorrect p) false)))
                    (storage w)))) fs)
    /\ Forall (fun f => exists gs q, snd f = GameStateMsg gs q) fs.
Proof.
  intros Hs Hn Hnew Hg. unfold submitDefinition, bind at 1, query at 1. rewrite Hs, Hn.
  unfold bind at 1, payload_of, ret at 1. unfold bind at 1, query at 1. rewrite Hnew.
  unfold bind at 1, create at 1. cbn [Storage.createDefinition snd].
  match goal with
  | |- context [(_ <- call (Storage.getGameState g ?r) ;; _) ?w1] =>
      destruct (snapshot_broadcast g r w1 game0) as (fs & Hrun & Hfs)
  end.
  { exact Hg. }
  rewrite Hrun. exists fs. split; [reflexivity|exact Hfs].
Qed.

Lemma submitVote_accepted (ws g : Z) (sid : string) (p : Payload.t) (w : World)
    (sender : Player.t) (game0 : Game.t) :
  Storage.getPlayerBySessionId sid (storage w) = Some sender ->
  is_spectator sender = false ->
  existsb (fun vote => Vote.playerId vote =? Player.id sender)
    (Storage.getVotesByGameId g (Js.or_one (Payload.round p)) (storage w)) = false ->
  Storage.getGame g (storage w) = Some game0 ->
  exists fs,
    submitVote ws g sid (Some p) w
    = (Ok tt,
       add_sent
         (set_storage w
            (snd (Storage.createVote
                    (InsertVote.mk g (Player.id sender) (Payload.definitionId p)
                       (Some (Js.or_one (Payload.round p))))
                    (storage w)))) fs)
    /\ Forall (fun f => exists gs q, snd f = GameStateMsg gs q) fs.
Proof.
  intros Hs Hn Hnew Hg. unfold submitVote, bind at 1, query at 1. rewrite Hs, Hn.
  unfold bind at 1, payload_of, ret at 1. unfold bind at 1, query at 1. rewrite Hnew.
  unfold bind at 1, create at 1. cbn [Storage.createVote snd].
  match goal with
  | |- context [(_ <- call (Storage.getGameState g ?r) ;; _) ?w1] =>
      destruct (snapshot_broadcast g r w1 game0) as (fs & Hrun & Hfs)
  end.
  { exact Hg. }
  rewrite Hrun. exists fs. split; [reflexivity|exact Hfs].
Qed.

(** *** [join] *)

Lemma getGame_createPlayer (g : Z) (ins : InsertPlayer.t) (s : MemStorage) :
  Storage.getGame g (snd (Storage.createPlayer ins s)) = Storage.getGame g s.
Proof. reflexivity. Qed.

Lemma join_existing_game (ws rnd : Z) (p : Payload.t) (w : World) (g : Z) (sid : string)
    (game0 : Game.t) :
  Js.truthy_num (Payload.gameId p) = Some g ->
  Js.truthy_str (Payload.sessionId p) = Some sid ->
  Storage.getGame g (storage w) = Some game0 ->
  exists w',
    join ws rnd p w = (Ok tt, w')
    /\ storage w' = join_storage g sid p rnd (storage w).
Proof.
  intros Hg Hs Hgame. unfold join. rewrite Hg, Hs.
  unfold bind at 1. unfold bind at 1. cbn [storage set_connections set_gameRooms].
  unfold bind at 1, query at 1. cbn [storage set_connections set_gameRooms].
  rewrite Hgame.
  unfold bind at 1, query at 1. cbn [storage set_connections set_gameRooms].
  unfold join_storage.
  destruct (Storage.getPlayerBySessionId sid (storage w)) as [player|] eqn:Ep.
  - unfold bind at 1, ret at 1.
    unfold bind at 1, call at 1, Storage.getGameState.
    cbn [storage set_connections set_gameRooms]. rewrite Hgame.
    unfold bind at 1, sendMessage at 1. rewrite broadcastGameState_run.
    eexists. split; [reflexivity|reflexivity].
  - unfold bind at 1. unfold bind at 1, query at 1, create.
    cbn [storage set_connections set_gameRooms Storage.createPlayer snd].
    unfold bind at 1, call at 1, Storage.getGameState.
    cbn [storage set_storage].
    unfold Storage.getGame in *. cbn [st_games]. rewrite Hgame.
    unfold bind at 1, sendMessage at 1. rewrite broadcastGameState_run.
    eexists. split; [reflexivity|reflexivity].
Qed.

Lemma on_message_join (ws rnd : Z) (cv : ConnVars) (p : Payload.t) (w : World) :
  snd (on_message ws rnd cv (Envelope "join" (Some p)) w) = try_catch ws (join ws rnd p) w.
Proof. reflexivity. Qed.

(** *** The phase after a phase command *)

Lemma endSubmissions_storage (ws g : Z) (sid : string) (payload : option Payload.t)
    (w : World) (sender : Player.t) (game0 : Game.t) :
  Storage.getPlayerBySessionId sid (storage w) = Some sender ->
  is_spectator sender = false ->
  Storage.getGame g (storage w) = Some game0 ->
  storage (try_catch ws (endSubmissions ws g sid payload) w)
  = Storage.set_games (storage w)
      (JsMap.set Z.eqb g (Game.with_phase game0 3) (st_games (storage w))).
Proof.
  intros Hs Hn Hg. unfold try_catch, endSubmissions, bind at 1, query at 1. rewrite Hs, Hn.
  unfold bind at 1, call at 1. rewrite (updateGamePhase_run g 3 (storage w) game0 Hg).
  destruct payload as [p|].
  - unfold bind at 1, payload_of, ret at 1.
    match goal with
    | |- context [(_ <- call (Storage.getGameState g ?r) ;; _) ?w1] =>
        destruct (snapshot_broadcast g r w1 (Game.with_phase game0 3)) as (fs & Hrun & _)
    end.
    { apply (getGame_written g _ (storage w)). }
    rewrite Hrun. reflexivity.
  - reflexivity.
Qed.

Lemma endVoting_phase (ws g : Z) (sid : string) (payload : option Payload.t)
    (w : World) (sender : Player.t) (game0 : Game.t) :
  Storage.getPlayerBySessionId sid (storage w) = Some sender ->
  is_spectator sender = false ->
  Storage.getGame g (storage w) = Some game0 ->
  Storage.getGame g (storage (try_catch ws (endVoting ws g sid payload) w))
  = Some (Game.with_phase game0 4).
Proof.
  intros Hs Hn Hg. destruct payload as [p|].
  - destruct (endVoting_accepted ws g sid p w sender game0 Hs Hn Hg) as [fs Hrun].
    unfold try_catch. rewrite Hrun. cbn [storage add_sent set_storage].
    unfold Storage.getGame.
    match goal with
    | |- context [apply_credits ?cs ?s1] =>
        destruct (apply_credits_frame cs s1) as (A & _ & _); rewrite A
    end.
    simpl. rewrite zget_set, Z.eqb_refl. reflexivity.
  - unfold try_catch, endVoting, bind at 1, query at 1. rewrite Hs, Hn.
    unfold bind at 1, call at 1. rewrite (updateGamePhase_run g 4 (storage w) game0 Hg).
    cbn. rewrite zget_set, Z.eqb_refl. reflexivity.
Qed.

(** *** What [endVoting] does to a stored player, accepted or not *)

Lemma try_catch_storage (ws : Z) (m : M unit) (w : World) :
  storage (try_catch ws m w) = storage (snd (m w)).
Proof. unfold try_catch. destruct (m w) as [[[]|e] w']; reflexivity. Qed.

Lemma tail_storage (g r : Z) (w : World) :
  storage (snd ((gameState <- call (Storage.getGameState g r) ;;
                 broadcastGameState g gameState) w))
  = storage w.
Proof.
  unfold bind, call, Storage.getGameState.
  destruct (Storage.getGame g (storage w)) as [game0|]; [|reflexivity].
  rewrite broadcastGameState_run. reflexivity.
Qed.

Lemma option_map_scored_zero (x : option Player.t) : option_map (scored 0) x = x.
Proof. destruct x as [p|]; [|reflexivity]. simpl. rewrite scored_zero. reflexivity. Qed.

Lemma endVoting_players (ws g : Z) (sid : string) (payload : option Payload.t) (w : World)
    (pid : Z) :
  exists pts,
    Storage.getPlayer pid (storage (try_catch ws (endVoting ws g sid payload) w))
    = option_map (scored pts) (Storage.getPlayer pid (storage w)).
Proof.
  rewrite try_catch_storage. unfold endVoting, bind at 1, query at 1.
  destruct (Storage.getPlayerBySessionId sid (storage w)) as [sender|];
    [|exists 0; rewrite option_map_scored_zero; reflexivity].
  destruct (is_spectator sender); [exists 0; rewrite option_map_scored_zero; reflexivity|].
  unfold bind at 1, call at 1, Storage.updateGamePhase.
  destruct (Storage.getGame g (storage w)) as [game0|];
    [|exists 0; rewrite option_map_scored_zero; reflexivity].
  destruct payload as [p|];
    [|exists 0; rewrite option_map_scored_zero; reflexivity].
  unfold bind at 1, payload_of, ret at 1.
  unfold bind at 1, query at 1. unfold bind at 1, query at 1.
  unfold bind at 1. rewrite calculate_scores_run.
  match goal with
  | |- context [(_ <- call (Storage.getGameState g ?r) ;; _) ?w1] =>
      rewrite (tail_storage g r w1)
  end.
  cbn [storage set_storage]. eexists. rewrite getPlayer_apply_credits. reflexivity.
Qed.

Lemma scored_spectator (pts : Z) (p : Player.t) :
  Player.isSpectator p = true -> scored pts p = p.
Proof. intros H. unfold scored. rewrite H. apply with_score_same. Qed.

(** ** Every event writes to the storage by guarded steps *)

Lemma Steps_trans (a b c : MemStorage) : Steps a b -> Steps b c -> Steps a c.
Proof.
  intros Hab Hbc. induction Hbc as [|s1 s2 _ IH Hs]; [exact Hab|].
  exact (steps_more a s1 s2 IH Hs).
Qed.

Lemma Steps_one (a b : MemStorage) : StoreStep a b -> Steps a b.
Proof. intros H. exact (steps_more a a b (steps_done a) H). Qed.

Lemma by_steps_bind (A B : Type) (m : M A) (f : A -> M B) (w : World) :
  by_steps m w ->
  (forall a w', m w = (Ok a, w') -> by_steps (f a) w') ->
  by_steps (bind m f) w.
Proof.
  unfold by_steps, bind. intros Hm Hf.
  destruct (m w) as [[a|e] w'] eqn:E; simpl in *.
  - exact (Steps_trans _ _ _ Hm (Hf a w' eq_refl)).
  - exact Hm.
Qed.

Lemma by_steps_same (A : Type) (m : M A) (w : World) :
  storage (snd (m w)) = storage w -> by_steps m w.
Proof. unfold by_steps. intros ->. constructor. Qed.

Lemma by_steps_ret (A : Type) (a : A) (w : World) : by_steps (ret a) w.
Proof. apply by_steps_same. reflexivity. Qed.

Lemma by_steps_throw (A : Type) (e : string) (w : World) : by_steps (@throw A e) w.
Proof. apply by_steps_same. reflexivity. Qed.

Lemma by_steps_query (A : Type) (q : MemStorage -> A) (w : World) : by_steps (query q) w.
Proof. apply by_steps_same. reflexivity. Qed.

Lemma by_steps_send (ws : Z) (m : ServerMsg) (w : World) : by_steps (sendMessage ws m) w.
Proof. apply by_steps_same. reflexivity. Qed.

Lemma by_steps_error (ws : Z) (m : string) (w : World) : by_steps (sendError ws m) w.
Proof. apply by_steps_same. reflexivity. Qed.

Lemma by_steps_payload (payload : option Payload.t) (w : World) :
  by_steps (payload_of payload) w.
Proof. apply by_steps_same. destruct payload; reflexivity. Qed.

Lemma by_steps_broadcast (g : Z) (gs : GameState) (w : World) :
  by_steps (broadcastGameState g gs) w.
Proof. apply by_steps_same. rewrite broadcastGameState_run. reflexivity. Qed.

Lemma by_steps_call (A : Type) (op : StoreOp A) (w : World) :
  (forall a s', op (storage w) = Ok (a, s') -> Steps (storage w) s') ->
  by_steps (call op) w.
Proof.
  unfold by_steps, call. intros H.
  destruct (op (storage w)) as [[a s']|e] eqn:E; simpl.
  - exact (H a s' eq_refl).
  - constructor.
Qed.

Lemma query_inv (A : Type) (q : MemStorage -> A) (w w' : World) (a : A) :
  query q w = (Ok a, w') -> a = q (storage w) /\ w' = w.
Proof. unfold query. intros H. injection H as <- <-. auto. Qed.

Lemma payload_inv (payload : option Payload.t) (w w' : World) (p : Payload.t) :
  payload_of payload w = (Ok p, w') -> payload = Some p /\ w' = w.
Proof.
  unfold payload_of. destruct payload; unfold ret, throw; intros H; [|discriminate].
  injection H as <- <-. auto.
Qed.

Lemma by_steps_getGameState (g r : Z) (w : World) :
  by_steps (call (Storage.getGameState g r)) w.
Proof.
  apply by_steps_call. intros a s'. unfold Storage.getGameState.
  destruct (Storage.getGame g (storage w)); [|discriminate].
  intros H. injection H as _ <-. constructor.
Qed.

(** The tail of every case: snapshot, then broadcast. *)
Lemma by_steps_tail (g r : Z) (w : World) :
  by_steps (gameState <- call (Storage.getGameState g r) ;; broadcastGameState g gameState) w.
Proof.
  apply by_steps_bind; [apply by_steps_getGameState|].
  intros gs w' _. apply by_steps_broadcast.
Qed.

Lemma by_steps_updateGame (g : Z) (op : StoreOp Game.t) (w : World) (f : Game.t -> Game.t) :
  (forall game0, Game.id (f game0) = Game.id game0) ->
  (forall s, op s = match Storage.getGame g s with
                    | None => Throw (Storage.not_found "Game" g)
                    | Some game0 =>
                        Ok (f game0,
                            Storage.set_games s (JsMap.set Z.eqb g (f game0) (st_games s)))
                    end) ->
  by_steps (call op) w.
Proof.
  intros Hid Hop. apply by_steps_call. intros a s'. rewrite Hop.
  destruct (Storage.getGame g (storage w)) as [game0|] eqn:Hg; [|discriminate].
  intros H. injection H as _ <-.
  apply Steps_one. exact (step_game (storage w) g game0 (f game0) Hg (Hid game0)).
Qed.

Lemma by_steps_updateGamePhase (g ph : Z) (w : World) :
  by_steps (call (Storage.updateGamePhase g ph)) w.
Proof.
  apply (by_steps_updateGame g _ w (fun game0 => Game.with_phase game0 ph));
    [reflexivity|reflexivity].
Qed.

Lemma by_steps_updateGameWord (g : Z) (word : string) (w : World) :
  by_steps (call (Storage.updateGameWord g word)) w.
Proof.
  apply (by_steps_updateGame g _ w (fun game0 => Game.with_word game0 word));
    [reflexivity|reflexivity].
Qed.

Lemma by_steps_startNewRound (g : Z) (w : World) :
  by_steps (call (Storage.startNewRound g)) w.
Proof.
  apply (by_steps_updateGame g _ w
           (fun game0 => reset_game game0 (Storage.round_of game0 + 1)));
    [reflexivity|reflexivity].
Qed.

Lemma by_steps_cancelRound (g : Z) (w : World) :
  by_steps (call (Storage.cancelRound g)) w.
Proof.
  apply by_steps_call. intros a s'. unfold Storage.cancelRound.
  destruct (Storage.getGame g (storage w)) as [game0|] eqn:Hg; [|discriminate].
  intros H. injection H as _ <-.
  apply (steps_more _
           (Storage.clearDefinitionsAndVotesByRound g (Storage.round_of game0) (storage w))).
  - apply Steps_one. exact (step_clear (storage w) g (Storage.round_of game0)).
  - exact (step_game
             (Storage.clearDefinitionsAndVotesByRound g (Storage.round_of game0) (storage w))
             g game0 (reset_game game0 (Game.currentRound game0)) Hg eq_refl).
Qed.

Lemma by_steps_removePlayer (id : Z) (w : World) :
  by_steps (call (Storage.removePlayer id)) w.
Proof.
  apply by_steps_call. intros [] s' H. apply Steps_one.
  exact (step_removePlayer (storage w) id s' H).
Qed.

Lemma Steps_credit (pid n : Z) (s : MemStorage) : Steps s (credit pid n s).
Proof.
  unfold credit. destruct (Storage.getPlayer pid s) as [p|] eqn:Ep; [|constructor].
  destruct (Player.isSpectator p) eqn:Es; simpl; [constructor|].
  apply Steps_one. exact (step_score s pid n p Ep Es).
Qed.

Lemma Steps_apply_credits (cs : list (Z * Z)) (s : MemStorage) : Steps s (apply_credits cs s).
Proof.
  revert s. induction cs as [|c r IH]; intros s; [constructor|].
  unfold apply_credits in *; simpl.
  exact (Steps_trans _ _ _ (Steps_credit (fst c) (snd c) s) (IH _)).
Qed.

Lemma by_steps_scores (defs : list Definition_.t) (votes : list Vote.t) (w : World) :
  by_steps (calculate_scores defs votes) w.
Proof.
  unfold by_steps. rewrite calculate_scores_run. simpl. apply Steps_apply_credits.
Qed.

Ltac by_steps_leaf :=
  first
    [ apply by_steps_tail | apply by_steps_error | apply by_steps_send
    | apply by_steps_ret | apply by_steps_throw | apply by_steps_query
    | apply by_steps_payload | apply by_steps_updateGamePhase
    | apply by_steps_updateGameWord | apply by_steps_startNewRound
    | apply by_steps_cancelRound | apply by_steps_removePlayer
    | apply by_steps_broadcast | apply by_steps_scores
    | apply by_steps_getGameState ].

Ltac by_steps_split :=
  match goal with
  | |- by_steps (match ?x with _ => _ end) _ => destruct x eqn:?
  | |- by_steps (if ?x then _ else _) _ => destruct x eqn:?
  end.

Ltac by_steps_auto :=
  repeat first
    [ by_steps_leaf
    | by_steps_split
    | apply by_steps_bind; [|intros ? ? ?] ].

Lemma by_steps_removePlayer_case (ws g : Z) (sid : string) (payload : option Payload.t)
    (w : World) : by_steps (removePlayer ws g sid payload) w.
Proof. unfold removePlayer. by_steps_auto. Qed.

Lemma by_steps_submitWord (ws g : Z) (sid : string) (payload : option Payload.t)
    (w : World) : by_steps (submitWord ws g sid payload) w.
Proof. unfold submitWord. by_steps_auto. Qed.

Lemma by_steps_endSubmissions (ws g : Z) (sid : string) (payload : option Payload.t)
    (w : World) : by_steps (endSubmissions ws g sid payload) w.
Proof. unfold endSubmissions. by_steps_auto. Qed.

Lemma by_steps_endVoting (ws g : Z) (sid : string) (payload : option Payload.t)
    (w : World) : by_steps (endVoting ws g sid payload) w.
Proof. unfold endVoting. by_steps_auto. Qed.

Lemma by_steps_newRound (ws g : Z) (sid : string) (w : World) :
  by_steps (newRound ws g sid) w.
Proof. unfold newRound. by_steps_auto. Qed.

Lemma by_steps_cancelRound_case (ws g : Z) (sid : string) (w : World) :
  by_steps (cancelRound ws g sid) w.
Proof. unfold cancelRound. by_steps_auto. Qed.

Lemma by_steps_create_definition (ins : InsertDefinition.t) (w : World) :
  existsb (fun def => Definition_.playerId def =? InsertDefinition.playerId ins)
    (Storage.getDefinitionsByGameId (InsertDefinition.gameId ins)
       (Js.nullish (InsertDefinition.round ins) 1) (storage w)) = false ->
  by_steps (create (Storage.createDefinition ins)) w.
Proof.
  intros H. unfold by_steps, create.
  destruct (Storage.createDefinition ins (storage w)) as [d s'] eqn:E. simpl.
  apply Steps_one. replace s' with (snd (Storage.createDefinition ins (storage w)))
    by (rewrite E; reflexivity).
  exact (step_createDefinition (storage w) ins H).
Qed.

Lemma or_one_again (x : option Z) : Js.or_one (Some (Js.or_one x)) = Js.or_one x.
Proof.
  unfold Js.or_one. destruct x as [n|]; [|reflexivity].
  destruct (Z.eqb_spec n 0) as [->|Hn]; [reflexivity|].
  destruct (Z.eqb_spec n 0); [contradiction|reflexivity].
Qed.

Lemma by_steps_create_vote (ins : InsertVote.t) (w : World) :
  existsb (fun vote => Vote.playerId vote =? InsertVote.playerId ins)
    (Storage.getVotesByGameId (InsertVote.gameId ins)
       (Js.or_one (InsertVote.round ins)) (storage w)) = false ->
  by_steps (create (Storage.createVote ins)) w.
Proof.
  intros H. unfold by_steps, create.
  destruct (Storage.createVote ins (storage w)) as [d s'] eqn:E. simpl.
  apply Steps_one. replace s' with (snd (Storage.createVote ins (storage w)))
    by (rewrite E; reflexivity).
  exact (step_createVote (storage w) ins H).
Qed.

Lemma by_steps_submitDefinition (ws g : Z) (sid : string) (payload : option Payload.t)
    (w : World) : by_steps (submitDefinition ws g sid payload) w.
Proof.
  unfold submitDefinition.
  apply by_steps_bind; [apply by_steps_query|]. intros a w0 E.
  apply query_inv in E. destruct E as [-> ->].
  destruct (Storage.getPlayerBySessionId sid (storage w)) as [player|]; [|by_steps_auto].
  destruct (is_spectator player); [by_steps_auto|].
  apply by_steps_bind; [apply by_steps_payload|]. intros p w0 E.
  apply payload_inv in E. destruct E as [_ ->].
  apply by_steps_bind; [apply by_steps_query|]. intros a w0 E.
  apply query_inv in E. destruct E as [-> ->].
  match goal with |- by_steps (if ?x then _ else _) _ => destruct x eqn:Hdup end;
    [by_steps_auto|].
  apply by_steps_bind; [|intros; apply by_steps_tail].
  apply by_steps_create_definition. exact Hdup.
Qed.

Lemma by_steps_submitVote (ws g : Z) (sid : string) (payload : option Payload.t)
    (w : World) : by_steps (submitVote ws g sid payload) w.
Proof.
  unfold submitVote.
  apply by_steps_bind; [apply by_steps_query|]. intros a w0 E.
  apply query_inv in E. destruct E as [-> ->].
  destruct (Storage.getPlayerBySessionId sid (storage w)) as [player|]; [|by_steps_auto].
  destruct (is_spectator player); [by_steps_auto|].
  apply by_steps_bind; [apply by_steps_payload|]. intros p w0 E.
  apply payload_inv in E. destruct E as [_ ->].
  apply by_steps_bind; [apply by_steps_query|]. intros a w0 E.
  apply query_inv in E. destruct E as [-> ->].
  match goal with |- by_steps (if ?x then _ else _) _ => destruct x eqn:Hdup end;
    [by_steps_auto|].
  apply by_steps_bind; [|intros; apply by_steps_tail].
  apply by_steps_create_vote. cbn [InsertVote.playerId InsertVote.gameId InsertVote.round].
  rewrite or_one_again. exact Hdup.
Qed.

Lemma by_steps_awardBonus (ws g : Z) (sid : string) (payload : option Payload.t)
    (w : World) : by_steps (awardBonus ws g sid payload) w.
Proof.
  unfold awardBonus.
  apply by_steps_bind; [apply by_steps_query|]. intros a w0 E.
  apply query_inv in E. destruct E as [-> ->].
  destruct (Storage.getPlayerBySessionId sid (storage w)) as [adminPlayer|]; [|by_steps_auto].
  destruct (negb (Player.isAdmin adminPlayer)); [by_steps_auto|].
  apply by_steps_bind; [apply by_steps_payload|]. intros p w0 E.
  apply payload_inv in E. destruct E as [_ ->].
  destruct (Js.truthy_num (Payload.playerId p)) as [playerId|]; [|by_steps_auto].
  apply by_steps_bind; [apply by_steps_query|]. intros a w0 E.
  apply query_inv in E. destruct E as [-> ->].
  destruct (Storage.getPlayer playerId (storage w)) as [target|] eqn:Et; [|by_steps_auto].
  destruct (Player.isSpectator target) eqn:Es; cbn [negb]; [by_steps_auto|].
  apply by_steps_bind; [|intros; by_steps_auto].
  apply by_steps_call. intros a s'. unfold Storage.updatePlayerScore. rewrite Et.
  intros H. injection H as _ <-. apply Steps_one.
  exact (step_score (storage w) playerId 3 target Et Es).
Qed.

Lemma join_role_not_empty (p : Payload.t) : join_role p <> EmptyString.
Proof.
  unfold join_role, Js.truthy_str.
  destruct (Payload.role p) as [r|].
  - destruct (String.eqb r EmptyString) eqn:E.
    + destruct (Payload.isSpectator p) as [[|]|]; discriminate.
    + intros ->. discriminate.
  - destruct (Payload.isSpectator p) as [[|]|]; discriminate.
Qed.

Lemma by_steps_join (ws rnd : Z) (p : Payload.t) (w : World) : by_steps (join ws rnd p) w.
Proof.
  unfold join.
  apply by_steps_bind.
  { apply by_steps_same. destruct (Js.truthy_str (Payload.sessionId p)); reflexivity. }
  intros _ w0 _.
  destruct (Js.truthy_num (Payload.gameId p)) as [g|]; [|by_steps_auto].
  destruct (Js.truthy_str (Payload.sessionId p)) as [sid|]; [|by_steps_auto].
  apply by_steps_bind; [apply by_steps_same; reflexivity|]. intros _ w1 _.
  apply by_steps_bind; [apply by_steps_query|]. intros game0 w2 _.
  destruct game0 as [game0|]; [|by_steps_auto].
  apply by_steps_bind; [apply by_steps_query|]. intros found w3 _.
  apply by_steps_bind; [|intros; by_steps_auto].
  destruct found as [player|]; [by_steps_auto|].
  apply by_steps_bind; [apply by_steps_query|]. intros existing w4 _.
  unfold by_steps, create.
  destruct (Storage.createPlayer (join_insert g sid p rnd existing) (storage w4))
    as [pl s'] eqn:E. simpl.
  apply Steps_one.
  replace s' with (snd (Storage.createPlayer (join_insert g sid p rnd existing) (storage w4)))
    by (rewrite E; reflexivity).
  apply step_createPlayer. exists (join_role p).
  split; [reflexivity|]. split; [apply join_role_not_empty|reflexivity].
Qed.

Lemma dispatch_by_steps (ws rnd : Z) (cv : ConnVars) (message : Incoming) (w : World) :
  by_steps (dispatch ws rnd cv message) w.
Proof.
  unfold dispatch. destruct message as [|type payload]; [apply by_steps_throw|].
  unfold when_joined.
  destruct (classify type).
  - apply by_steps_bind; [apply by_steps_payload|]. intros p w' _. apply by_steps_join.
  - destruct (joined cv) as [[g sid]|]; [apply by_steps_removePlayer_case|apply by_steps_ret].
  - destruct (joined cv) as [[g sid]|]; [apply by_steps_submitWord|apply by_steps_ret].
  - destruct (joined cv) as [[g sid]|]; [apply by_steps_submitDefinition|apply by_steps_ret].
  - destruct (joined cv) as [[g sid]|]; [apply by_steps_endSubmissions|apply by_steps_ret].
  - destruct (joined cv) as [[g sid]|]; [apply by_steps_submitVote|apply by_steps_ret].
  - destruct (joined cv) as [[g sid]|]; [apply by_steps_endVoting|apply by_steps_ret].
  - destruct (joined cv) as [[g sid]|]; [apply by_steps_newRound|apply by_steps_ret].
  - destruct (joined cv) as [[g sid]|]; [apply by_steps_cancelRound_case|apply by_steps_ret].
  - destruct (joined cv) as [[g sid]|]; [apply by_steps_awardBonus|apply by_steps_ret].
  - apply by_steps_ret.
Qed.

(** Whatever arrives on whatever socket, the storage after the handler is
    reached from the storage before it by guarded steps. *)
Lemma on_message_steps (ws rnd : Z) (cv : ConnVars) (message : Incoming) (w : World) :
  Steps (storage w) (storage (snd (on_message ws rnd cv message w))).
Proof.
  unfold on_message, try_catch; cbn [snd].
  pose proof (dispatch_by_steps ws rnd cv message w) as H. unfold by_steps in H.
  destruct (dispatch ws rnd cv message w) as [[[]|e] w']; exact H.
Qed.

Lemma on_close_storage (ws : Z) (cv : ConnVars) (w : World) :
  storage (on_close ws cv w) = storage w.
Proof.
  unfold on_close.
  destruct (Js.truthy_str (cv_sessionId cv)) as [sid|]; [|reflexivity].
  destruct (Js.truthy_num (cv_gameId cv)) as [g|]; [|reflexivity].
  cbn [gameRooms set_connections].
  destruct (JsMap.get Z.eqb g (gameRooms w)) as [room|]; [|reflexivity].
  destruct (List.length (JsSet.delete sid room) =? 0)%nat; reflexivity.
Qed.

Lemma step_steps (sv : Server) (e : Event) :
  Steps (storage (world sv)) (storage (world (step sv e))).
Proof.
  destruct e as [ws|ws rnd message|ws]; simpl.
  - constructor.
  - destruct (JsMap.get Z.eqb ws (conns sv)) as [cv|]; [|constructor].
    exact (on_message_steps ws rnd cv message (world sv)).
  - destruct (JsMap.get Z.eqb ws (conns sv)) as [cv|]; [|constructor].
    simpl. rewrite on_close_storage. constructor.
Qed.

Lemma run_steps (es : list Event) (sv : Server) :
  Steps (storage (world sv)) (storage (world (run sv es))).
Proof.
  revert sv. induction es as [|e r IH]; intros sv; [constructor|].
  unfold run in *; simpl.
  exact (Steps_trans _ _ _ (step_steps sv e) (IH (step sv e))).
Qed.

(** ** Every event writes to the storage by [Write]s *)

Lemma Write_StoreStep (s s' : MemStorage) : Write s s' -> StoreStep s s'.
Proof.
  intros H. destruct H as [g game0 game1 Hg Hk|g sid p rnd game0 Hg Hn|pid n pl Hp Hs Hn
                          |id s' Hr|g sid pl r text c Hp Hs Hr Hd|g sid pl r d Hp Hs Hr Hv|g r].
  - exact (step_game s g game0 game1 Hg (proj1 Hk)).
  - apply step_createPlayer. exists (join_role p).
    split; [reflexivity|]. split; [apply join_role_not_empty|reflexivity].
  - exact (step_score s pid n pl Hp Hs).
  - exact (step_removePlayer s id s' Hr).
  - apply step_createDefinition. exact Hd.
  - apply step_createVote. cbn [InsertVote.playerId InsertVote.gameId InsertVote.round].
    unfold Js.or_one. destruct (Z.eqb_spec r 0) as [E|_]; [contradiction|exact Hv].
  - apply step_clear.
Qed.

Lemma Writes_Steps (s s' : MemStorage) : Writes s s' -> Steps s s'.
Proof.
  intros H. induction H as [|s1 s2 _ IH Hw]; [constructor|].
  exact (steps_more s s1 s2 IH (Write_StoreStep s1 s2 Hw)).
Qed.

Lemma Writes_trans (a b c : MemStorage) : Writes a b -> Writes b c -> Writes a c.
Proof.
  intros Hab Hbc. induction Hbc as [|s1 s2 _ IH Hs]; [exact Hab|].
  exact (writes_more a s1 s2 IH Hs).
Qed.

Lemma Writes_one (a b : MemStorage) : Write a b -> Writes a b.
Proof. intros H. exact (writes_more a a b (writes_done a) H). Qed.

Lemma writes_bind (A B : Type) (m : M A) (f : A -> M B) (w : World) :
  writes m w ->
  (forall a w', m w = (Ok a, w') -> writes (f a) w') ->
  writes (bind m f) w.
Proof.
  unfold writes, bind. intros Hm Hf.
  destruct (m w) as [[a|e] w'] eqn:E; simpl in *.
  - exact (Writes_trans _ _ _ Hm (Hf a w' eq_refl)).
  - exact Hm.
Qed.

Lemma writes_same (A : Type) (m : M A) (w : World) :
  storage (snd (m w)) = storage w -> writes m w.
Proof. unfold writes. intros ->. constructor. Qed.

Lemma writes_ret (A : Type) (a : A) (w : World) : writes (ret a) w.
Proof. apply writes_same. reflexivity. Qed.

Lemma writes_throw (A : Type) (e : string) (w : World) : writes (@throw A e) w.
Proof. apply writes_same. reflexivity. Qed.

Lemma writes_query (A : Type) (q : MemStorage -> A) (w : World) : writes (query q) w.
Proof. apply writes_same. reflexivity. Qed.

Lemma writes_error (ws : Z) (m : string) (w : World) : writes (sendError ws m) w.
Proof. apply writes_same. reflexivity. Qed.

Lemma writes_send (ws : Z) (m : ServerMsg) (w : World) : writes (sendMessage ws m) w.
Proof. apply writes_same. reflexivity. Qed.

Lemma writes_payload (payload : option Payload.t) (w : World) :
  writes (payload_of payload) w.
Proof. apply writes_same. destruct payload; reflexivity. Qed.

Lemma writes_tail (g r : Z) (w : World) :
  writes (gameState <- call (Storage.getGameState g r) ;; broadcastGameState g gameState) w.
Proof. apply writes_same. apply tail_storage. Qed.

Lemma writes_broadcast (g : Z) (gs : GameState) (w : World) :
  writes (broadcastGameState g gs) w.
Proof. apply writes_same. rewrite broadcastGameState_run. reflexivity. Qed.

Lemma writes_getGameState (g r : Z) (w : World) :
  writes (call (Storage.getGameState g r)) w.
Proof.
  apply writes_same. unfold call, Storage.getGameState.
  destruct (Storage.getGame g (storage w)); reflexivity.
Qed.

Lemma writes_call (A : Type) (op : StoreOp A) (w : World) :
  (forall a s', op (storage w) = Ok (a, s') -> Writes (storage w) s') ->
  writes (call op) w.
Proof.
  unfold writes, call. intros H.
  destruct (op (storage w)) as [[a s']|e] eqn:E; simpl.
  - exact (H a s' eq_refl).
  - constructor.
Qed.

Lemma game_kept_refl (game0 : Game.t) : game_kept game0 game0.
Proof. unfold game_kept. repeat split; lia. Qed.

Lemma round_of_ge (game0 : Game.t) : Game.currentRound game0 <= Storage.round_of game0 + 1.
Proof.
  unfold Storage.round_of, Js.or_one.
  destruct (Z.eqb_spec (Game.currentRound game0) 0) as [->|_]; lia.
Qed.

Lemma writes_updateGame (g : Z) (op : StoreOp Game.t) (w : World) (f : Game.t -> Game.t) :
  (forall game0, game_kept game0 (f game0)) ->
  (forall s, op s = match Storage.getGame g s with
                    | None => Throw (Storage.not_found "Game" g)
                    | Some game0 =>
                        Ok (f game0,
                            Storage.set_games s (JsMap.set Z.eqb g (f game0) (st_games s)))
                    end) ->
  writes (call op) w.
Proof.
  intros Hk Hop. apply writes_call. intros a s'. rewrite Hop.
  destruct (Storage.getGame g (storage w)) as [game0|] eqn:Hg; [|discriminate].
  intros H. injection H as _ <-.
  apply Writes_one. exact (write_game (storage w) g game0 (f game0) Hg (Hk game0)).
Qed.

Lemma writes_updateGamePhase (g ph : Z) (w : World) :
  writes (call (Storage.updateGamePhase g ph)) w.
Proof.
  apply (writes_updateGame g _ w (fun game0 => Game.with_phase game0 ph)); [|reflexivity].
  intros game0. unfold game_kept. simpl. repeat split; lia.
Qed.

Lemma writes_updateGameWord (g : Z) (word : string) (w : World) :
  writes (call (Storage.updateGameWord g word)) w.
Proof.
  apply (writes_updateGame g _ w (fun game0 => Game.with_word game0 word)); [|reflexivity].
  intros game0. unfold game_kept. simpl. repeat split; lia.
Qed.

Lemma writes_startNewRound (g : Z) (w : World) :
  writes (call (Storage.startNewRound g)) w.
Proof.
  apply (writes_updateGame g _ w
           (fun game0 => reset_game game0 (Storage.round_of game0 + 1))); [|reflexivity].
  intros game0. unfold game_kept, reset_game. cbn [Game.id Game.code Game.dictionary
    Game.createdAt Game.currentRound].
  split; [reflexivity|]. split; [reflexivity|]. split; [reflexivity|].
  split; [reflexivity|apply round_of_ge].
Qed.

Lemma writes_cancelRound (g : Z) (w : World) :
  writes (call (Storage.cancelRound g)) w.
Proof.
  apply writes_call. intros a s'. unfold Storage.cancelRound.
  destruct (Storage.getGame g (storage w)) as [game0|] eqn:Hg; [|discriminate].
  intros H. injection H as _ <-.
  apply (writes_more _
           (Storage.clearDefinitionsAndVotesByRound g (Storage.round_of game0) (storage w))).
  - apply Writes_one. exact (write_clear (storage w) g (Storage.round_of game0)).
  - apply (write_game
             (Storage.clearDefinitionsAndVotesByRound g (Storage.round_of game0) (storage w))
             g game0 (reset_game game0 (Game.currentRound game0)) Hg).
    unfold game_kept, reset_game. cbn [Game.id Game.code Game.dictionary
      Game.createdAt Game.currentRound].
    repeat split; lia.
Qed.

Lemma writes_removePlayer (id : Z) (w : World) :
  writes (call (Storage.removePlayer id)) w.
Proof.
  apply writes_call. intros [] s' H. apply Writes_one.
  exact (write_removePlayer (storage w) id s' H).
Qed.

Lemma Writes_credit (pid n : Z) (s : MemStorage) : 0 <= n -> Writes s (credit pid n s).
Proof.
  intros Hn. unfold credit. destruct (Storage.getPlayer pid s) as [p|] eqn:Ep; [|constructor].
  destruct (Player.isSpectator p) eqn:Es; simpl; [constructor|].
  apply Writes_one. exact (write_score s pid n p Ep Es Hn).
Qed.

Lemma Writes_apply_credits (cs : list (Z * Z)) (s : MemStorage) :
  Forall (fun c => 0 <= snd c) cs -> Writes s (apply_credits cs s).
Proof.
  revert s. induction cs as [|c r IH]; intros s H; [constructor|].
  inversion H as [|? ? Hc Hr]; subst.
  unfold apply_credits in *; simpl.
  exact (Writes_trans _ _ _ (Writes_credit (fst c) (snd c) s Hc) (IH _ Hr)).
Qed.

Lemma writes_scores (defs : list Definition_.t) (votes : list Vote.t) (w : World) :
  writes (calculate_scores defs votes) w.
Proof.
  unfold writes. rewrite calculate_scores_run. simpl. apply Writes_apply_credits.
  apply Forall_app. split.
  - unfold author_credits. apply Forall_forall. intros c Hc.
    apply in_map_iff in Hc. destruct Hc as (d & <- & _). simpl. unfold voteCount. lia.
  - unfold voter_credits. apply Forall_forall. intros c Hc.
    apply in_map_iff in Hc. destruct Hc as (v & <- & _). simpl. lia.
Qed.

Ltac writes_leaf :=
  first
    [ apply writes_tail | apply writes_error | apply writes_send
    | apply writes_ret | apply writes_throw | apply writes_query
    | apply writes_payload | apply writes_updateGamePhase
    | apply writes_updateGameWord | apply writes_startNewRound
    | apply writes_cancelRound | apply writes_removePlayer
    | apply writes_scores | apply writes_broadcast | apply writes_getGameState ].

Ltac writes_split :=
  match goal with
  | |- writes (match ?x with _ => _ end) _ => destruct x eqn:?
  | |- writes (if ?x then _ else _) _ => destruct x eqn:?
  end.

Ltac writes_auto :=
  repeat first
    [ writes_leaf
    | writes_split
    | apply writes_bind; [|intros ? ? ?] ].

Lemma writes_removePlayer_case (ws g : Z) (sid : string) (payload : option Payload.t)
    (w : World) : writes (removePlayer ws g sid payload) w.
Proof. unfold removePlayer. writes_auto. Qed.

Lemma writes_submitWord (ws g : Z) (sid : string) (payload : option Payload.t)
    (w : World) : writes (submitWord ws g sid payload) w.
Proof. unfold submitWord. writes_auto. Qed.

Lemma writes_endSubmissions (ws g : Z) (sid : string) (payload : option Payload.t)
    (w : World) : writes (endSubmissions ws g sid payload) w.
Proof. unfold endSubmissions. writes_auto. Qed.

Lemma writes_endVoting (ws g : Z) (sid : string) (payload : option Payload.t)
    (w : World) : writes (endVoting ws g sid payload) w.
Proof. unfold endVoting. writes_auto. Qed.

Lemma writes_newRound (ws g : Z) (sid : string) (w : World) :
  writes (newRound ws g sid) w.
Proof. unfold newRound. writes_auto. Qed.

Lemma writes_cancelRound_case (ws g : Z) (sid : string) (w : World) :
  writes (cancelRound ws g sid) w.
Proof. unfold cancelRound. writes_auto. Qed.

Lemma or_one_nonzero (x : option Z) : Js.or_one x <> 0.
Proof.
  unfold Js.or_one. destruct x as [n|]; [|discriminate].
  destruct (Z.eqb_spec n 0); [discriminate|assumption].
Qed.

Lemma writes_create (A : Type) (f : MemStorage -> A * MemStorage) (w : World) :
  Write (storage w) (snd (f (storage w))) -> writes (create f) w.
Proof.
  intros H. unfold writes, create. destruct (f (storage w)) as [a s']. simpl in *.
  apply Writes_one. exact H.
Qed.

Lemma writes_submitDefinition (ws g : Z) (sid : string) (payload : option Payload.t)
    (w : World) : writes (submitDefinition ws g sid payload) w.
Proof.
  unfold submitDefinition.
  apply writes_bind; [apply writes_query|]. intros a w0 E.
  apply query_inv in E. destruct E as [-> ->].
  destruct (Storage.getPlayerBySessionId sid (storage w)) as [player|] eqn:Hp; [|writes_auto].
  destruct (is_spectator player) eqn:Hs; [writes_auto|].
  apply writes_bind; [apply writes_payload|]. intros p w0 E.
  apply payload_inv in E. destruct E as [_ ->].
  apply writes_bind; [apply writes_query|]. intros a w0 E.
  apply query_inv in E. destruct E as [-> ->].
  match goal with |- writes (if ?x then _ else _) _ => destruct x eqn:Hdup end;
    [writes_auto|].
  apply writes_bind; [|intros; apply writes_tail].
  apply writes_create.
  exact (write_definition (storage w) g sid player (Js.or_one (Payload.round p))
           (Payload.text p) (Js.nullish (Payload.isCorrect p) false)
           Hp Hs (or_one_nonzero _) Hdup).
Qed.

Lemma writes_submitVote (ws g : Z) (sid : string) (payload : option Payload.t)
    (w : World) : writes (submitVote ws g sid payload) w.
Proof.
  unfold submitVote.
  apply writes_bind; [apply writes_query|]. intros a w0 E.
  apply query_inv in E. destruct E as [-> ->].
  destruct (Storage.getPlayerBySessionId sid (storage w)) as [player|] eqn:Hp; [|writes_auto].
  destruct (is_spectator player) eqn:Hs; [writes_auto|].
  apply writes_bind; [apply writes_payload|]. intros p w0 E.
  apply payload_inv in E. destruct E as [_ ->].
  apply writes_bind; [apply writes_query|]. intros a w0 E.
  apply query_inv in E. destruct E as [-> ->].
  match goal with |- writes (if ?x then _ else _) _ => destruct x eqn:Hdup end;
    [writes_auto|].
  apply writes_bind; [|intros; apply writes_tail].
  apply writes_create.
  exact (write_vote (storage w) g sid player (Js.or_one (Payload.round p))
           (Payload.definitionId p) Hp Hs (or_one_nonzero _) Hdup).
Qed.

Lemma writes_awardBonus (ws g : Z) (sid : string) (payload : option Payload.t)
    (w : World) : writes (awardBonus ws g sid payload) w.
Proof.
  unfold awardBonus.
  apply writes_bind; [apply writes_query|]. intros a w0 E.
  apply query_inv in E. destruct E as [-> ->].
  destruct (Storage.getPlayerBySessionId sid (storage w)) as [adminPlayer|]; [|writes_auto].
  destruct (negb (Player.isAdmin adminPlayer)); [writes_auto|].
  apply writes_bind; [apply writes_payload|]. intros p w0 E.
  apply payload_inv in E. destruct E as [_ ->].
  destruct (Js.truthy_num (Payload.playerId p)) as [playerId|]; [|writes_auto].
  apply writes_bind; [apply writes_query|]. intros a w0 E.
  apply query_inv in E. destruct E as [-> ->].
  assert (Hfinish : forall w1,
             writes (game <- query (Storage.getGame g) ;;
                     match game with
                     | None => throw (Storage.not_found "Game" g)
                     | Some game =>
                         gameState <- call (Storage.getGameState g (Storage.round_of game)) ;;
                         broadcastGameState g gameState
                     end) w1).
  { intros w1. writes_auto. }
  destruct (Storage.getPlayer playerId (storage w)) as [target|] eqn:Et; [|apply Hfinish].
  destruct (Player.isSpectator target) eqn:Es; cbn [negb]; [writes_auto|].
  apply writes_bind; [|intros; apply Hfinish].
  apply writes_call. intros a s'. unfold Storage.updatePlayerScore. rewrite Et.
  intros H. injection H as _ <-. apply Writes_one.
  apply (write_score (storage w) playerId 3 target Et Es). lia.
Qed.

Lemma writes_join (ws rnd : Z) (p : Payload.t) (w : World) : writes (join ws rnd p) w.
Proof.
  unfold join.
  apply writes_bind.
  { apply writes_same. destruct (Js.truthy_str (Payload.sessionId p)); reflexivity. }
  intros _ w0 _.
  destruct (Js.truthy_num (Payload.gameId p)) as [g|]; [|writes_auto].
  destruct (Js.truthy_str (Payload.sessionId p)) as [sid|]; [|writes_auto].
  apply writes_bind; [apply writes_same; reflexivity|]. intros _ w1 _.
  apply writes_bind; [apply writes_query|]. intros game0 w2 E.
  apply query_inv in E. destruct E as [-> ->].
  destruct (Storage.getGame g (storage w1)) as [game0|] eqn:Hg; [|writes_auto].
  apply writes_bind; [apply writes_query|]. intros found w3 E.
  apply query_inv in E. destruct E as [-> ->].
  apply writes_bind; [|intros; writes_auto].
  destruct (Storage.getPlayerBySessionId sid (storage w1)) as [player|] eqn:Hp; [writes_auto|].
  apply writes_bind; [apply writes_query|]. intros existing w4 E.
  apply query_inv in E. destruct E as [-> ->].
  apply writes_create.
  exact (write_join (storage w1) g sid p rnd game0 Hg Hp).
Qed.

Lemma dispatch_writes (ws rnd : Z) (cv : ConnVars) (message : Incoming) (w : World) :
  writes (dispatch ws rnd cv message) w.
Proof.
  unfold dispatch. destruct message as [|type payload]; [apply writes_throw|].
  unfold when_joined.
  destruct (classify type).
  - apply writes_bind; [apply writes_payload|]. intros p w' _. apply writes_join.
  - destruct (joined cv) as [[g sid]|]; [apply writes_removePlayer_case|apply writes_ret].
  - destruct (joined cv) as [[g sid]|]; [apply writes_submitWord|apply writes_ret].
  - destruct (joined cv) as [[g sid]|]; [apply writes_submitDefinition|apply writes_ret].
  - destruct (joined cv) as [[g sid]|]; [apply writes_endSubmissions|apply writes_ret].
  - destruct (joined cv) as [[g sid]|]; [apply writes_submitVote|apply writes_ret].
  - destruct (joined cv) as [[g sid]|]; [apply writes_endVoting|apply writes_ret].
  - destruct (joined cv) as [[g sid]|]; [apply writes_newRound|apply writes_ret].
  - destruct (joined cv) as [[g sid]|]; [apply writes_cancelRound_case|apply writes_ret].
  - destruct (joined cv) as [[g sid]|]; [apply writes_awardBonus|apply writes_ret].
  - apply writes_ret.
Qed.

Lemma on_message_writes (ws rnd : Z) (cv : ConnVars) (message : Incoming) (w : World) :
  Writes (storage w) (storage (snd (on_message ws rnd cv message w))).
Proof.
  unfold on_message, try_catch; cbn [snd].
  pose proof (dispatch_writes ws rnd cv message w) as H. unfold writes in H.
  destruct (dispatch ws rnd cv message w) as [[[]|e] w']; exact H.
Qed.

Lemma step_writes (sv : Server) (e : Event) :
  Writes (storage (world sv)) (storage (world (step sv e))).
Proof.
  destruct e as [ws|ws rnd message|ws]; simpl.
  - constructor.
  - destruct (JsMap.get Z.eqb ws (conns sv)) as [cv|]; [|constructor].
    exact (on_message_writes ws rnd cv message (world sv)).
  - destruct (JsMap.get Z.eqb ws (conns sv)) as [cv|]; [|constructor].
    simpl. rewrite on_close_storage. constructor.
Qed.

Lemma run_writes (es : list Event) (sv : Server) :
  Writes (storage (world sv)) (storage (world (run sv es))).
Proof.
  revert sv. induction es as [|e r IH]; intros sv; [constructor|].
  unfold run in *; simpl.
  exact (Writes_trans _ _ _ (step_writes sv e) (IH (step sv e))).
Qed.

(** ** The registry: only [join] and [close] write to it *)

Lemma same_registry_refl (w : World) : same_registry w w.
Proof. unfold same_registry. auto. Qed.

Lemma same_registry_trans (a b c : World) :
  same_registry a b -> same_registry b c -> same_registry a c.
Proof. unfold same_registry. intros (A1 & A2 & A3) (B1 & B2 & B3). repeat split; congruence. Qed.

Lemma keeps_bind (A B : Type) (m : M A) (f : A -> M B) :
  keeps_registry m -> (forall a, keeps_registry (f a)) -> keeps_registry (bind m f).
Proof.
  intros Hm Hf w. unfold bind. pose proof (Hm w) as H.
  destruct (m w) as [[a|e] w']; simpl in *; [|exact H].
  exact (same_registry_trans _ _ _ H (Hf a w')).
Qed.

Lemma keeps_ret (A : Type) (a : A) : keeps_registry (ret a).
Proof. intros w. apply same_registry_refl. Qed.

Lemma keeps_throw (A : Type) (e : string) : keeps_registry (@throw A e).
Proof. intros w. apply same_registry_refl. Qed.

Lemma keeps_query (A : Type) (q : MemStorage -> A) : keeps_registry (query q).
Proof. intros w. apply same_registry_refl. Qed.

Lemma keeps_call (A : Type) (op : StoreOp A) : keeps_registry (call op).
Proof.
  intros w. unfold call. destruct (op (storage w)) as [[a s']|e]; simpl;
    unfold same_registry; auto.
Qed.

Lemma keeps_create (A : Type) (f : MemStorage -> A * MemStorage) : keeps_registry (create f).
Proof.
  intros w. unfold create. destruct (f (storage w)) as [a s']. simpl.
  unfold same_registry; auto.
Qed.

Lemma keeps_send (ws : Z) (m : ServerMsg) : keeps_registry (sendMessage ws m).
Proof. intros w. unfold same_registry; simpl; auto. Qed.

Lemma keeps_error (ws : Z) (m : string) : keeps_registry (sendError ws m).
Proof. apply keeps_send. Qed.

Lemma keeps_payload (payload : option Payload.t) : keeps_registry (payload_of payload).
Proof. destruct payload; [apply keeps_ret|apply keeps_throw]. Qed.

Lemma keeps_broadcast (g : Z) (gs : GameState) : keeps_registry (broadcastGameState g gs).
Proof. intros w. rewrite broadcastGameState_run. unfold same_registry; simpl; auto. Qed.

Lemma keeps_scores (defs : list Definition_.t) (votes : list Vote.t) :
  keeps_registry (calculate_scores defs votes).
Proof. intros w. rewrite calculate_scores_run. unfold same_registry; simpl; auto. Qed.

Ltac keeps_leaf :=
  first
    [ apply keeps_error | apply keeps_send | apply keeps_ret | apply keeps_throw
    | apply keeps_query | apply keeps_payload | apply keeps_call | apply keeps_create
    | apply keeps_broadcast | apply keeps_scores ].

Ltac keeps_split :=
  match goal with
  | |- keeps_registry (match ?x with _ => _ end) => destruct x
  | |- keeps_registry (if ?x then _ else _) => destruct x
  | |- keeps_registry (let _ := _ in _) => cbv zeta
  end.

Ltac keeps_auto :=
  repeat first
    [ keeps_leaf
    | keeps_split
    | apply keeps_bind; [|intros ?] ].

Lemma keeps_case_body (ws g : Z) (sid : string) (c : Command) (payload : option Payload.t) :
  keeps_registry (case_body ws g sid c payload).
Proof.
  destruct c; cbn [case_body]; try apply keeps_ret.
  - unfold removePlayer. keeps_auto.
  - unfold submitWord. keeps_auto.
  - unfold submitDefinition. keeps_auto.
  - unfold endSubmissions. keeps_auto.
  - unfold submitVote. keeps_auto.
  - unfold endVoting. keeps_auto.
  - unfold newRound. keeps_auto.
  - unfold cancelRound. keeps_auto.
  - unfold awardBonus. keeps_auto.
Qed.

Lemma try_catch_registry (ws : Z) (m : M unit) (w : World) :
  same_registry w (snd (m w)) -> same_registry w (try_catch ws m w).
Proof.
  unfold try_catch. destruct (m w) as [[[]|e] w']; simpl; [auto|].
  unfold same_registry; simpl; auto.
Qed.

(** Any message that is not a [join] with a payload. *)
Lemma on_message_registry (ws rnd : Z) (cv : ConnVars) (message : Incoming) (w : World) :
  match message with
  | Envelope type (Some _) => classify type <> CJoin
  | _ => True
  end ->
  fst (on_message ws rnd cv message w) = cv
  /\ same_registry w (snd (on_message ws rnd cv message w)).
Proof.
  intros H. unfold on_message. cbn [fst snd].
  destruct message as [|type payload].
  - split; [reflexivity|]. apply try_catch_registry. apply same_registry_refl.
  - split.
    + unfold conn_after. destruct payload as [p|]; [|reflexivity].
      destruct (classify type); try reflexivity. contradiction.
    + apply try_catch_registry. unfold dispatch, when_joined.
      destruct (classify type) eqn:Ec;
        try (destruct (joined cv) as [[g sid]|]; [|apply same_registry_refl]).
      * destruct payload as [p|]; [contradiction|]. apply same_registry_refl.
      * exact (keeps_case_body ws g sid CRemovePlayer payload w).
      * exact (keeps_case_body ws g sid CSubmitWord payload w).
      * exact (keeps_case_body ws g sid CSubmitDefinition payload w).
      * exact (keeps_case_body ws g sid CEndSubmissions payload w).
      * exact (keeps_case_body ws g sid CSubmitVote payload w).
      * exact (keeps_case_body ws g sid CEndVoting payload w).
      * exact (keeps_case_body ws g sid CNewRound payload w).
      * exact (keeps_case_body ws g sid CCancelRound payload w).
      * exact (keeps_case_body ws g sid CAwardBonus payload w).
      * apply same_registry_refl.
Qed.

(** *** [join] *)

Lemma join_tail_registry (ws g : Z) (sid : string) (p : Payload.t) (rnd : Z) :
  keeps_registry
    (game <- query (Storage.getGame g) ;;
     match game with
     | None => sendError ws "Game not found. Please check your game code."
     | Some _ =>
         found <- query (Storage.getPlayerBySessionId sid) ;;
         player <- match found with
                   | Some player => ret player
                   | None =>
                       existingPlayers <- query (Storage.getPlayersByGameId g) ;;
                       create (Storage.createPlayer
                                 (join_insert g sid p rnd existingPlayers))
                   end ;;
         gameState <- call (Storage.getGameState g (Js.or_one (Payload.round p))) ;;
         sendMessage ws (GameStateMsg gameState player) ;;
         broadcastGameState g gameState
     end).
Proof. keeps_auto. Qed.

Lemma join_unfold (ws rnd : Z) (p : Payload.t) (w : World) :
  join ws rnd p w
  = match Js.truthy_num (Payload.gameId p), Js.truthy_str (Payload.sessionId p) with
    | Some g, Some sid =>
        (game <- query (Storage.getGame g) ;;
         match game with
         | None => sendError ws "Game not found. Please check your game code."
         | Some _ =>
             found <- query (Storage.getPlayerBySessionId sid) ;;
             player <- match found with
                       | Some player => ret player
                       | None =>
                           existingPlayers <- query (Storage.getPlayersByGameId g) ;;
                           create (Storage.createPlayer
                                     (join_insert g sid p rnd existingPlayers))
                       end ;;
             gameState <- call (Storage.getGameState g (Js.or_one (Payload.round p))) ;;
             sendMessage ws (GameStateMsg gameState player) ;;
             broadcastGameState g gameState
         end) (join_registry ws g sid w)
    | None, Some sid =>
        (Ok tt, set_connections w (JsMap.set String.eqb sid ws (connections w)))
    | _, None => (Ok tt, w)
    end.
Proof.
  unfold join, join_registry.
  destruct (Js.truthy_num (Payload.gameId p)) as [g|];
    destruct (Js.truthy_str (Payload.sessionId p)) as [sid|]; reflexivity.
Qed.

Lemma join_registry_run (ws rnd : Z) (p : Payload.t) (w : World) :
  let w' := snd (join ws rnd p w) in
  connections w'
  = match Js.truthy_str (Payload.sessionId p) with
    | Some sid => JsMap.set String.eqb sid ws (connections w)
    | None => connections w
    end
  /\ gameRooms w'
     = match Js.truthy_num (Payload.gameId p), Js.truthy_str (Payload.sessionId p) with
       | Some g, Some sid => add_to_room g sid (gameRooms w)
       | _, _ => gameRooms w
       end
  /\ notOpen w' = notOpen w.
Proof.
  cbv zeta. rewrite join_unfold.
  destruct (Js.truthy_num (Payload.gameId p)) as [g|];
    destruct (Js.truthy_str (Payload.sessionId p)) as [sid|]; try (simpl; auto; fail).
  destruct (join_tail_registry ws g sid p rnd (join_registry ws g sid w)) as (Hc & Hr & Hn).
  rewrite Hc, Hr, Hn. simpl. auto.
Qed.

(** *** The registry stays a pair of maps *)

Section MapShape.
Variables K V : Type.
Variable eqb : K -> K -> bool.
Hypothesis eqb_eq : forall a b, eqb a b = true <-> a = b.

Lemma keys_set_any (k : K) (v : V) (m : JsMap.t K V) :
  JsMap.keys (JsMap.set eqb k v m)
  = if JsMap.has eqb k m then JsMap.keys m else JsMap.keys m ++ [k].
Proof.
  unfold JsMap.has. induction m as [|[k0 v0] r IH]; simpl; [reflexivity|].
  destruct (eqb k k0) eqn:E; simpl.
  - apply eqb_eq in E. subst k0. reflexivity.
  - rewrite IH. destruct (JsMap.get eqb k r); reflexivity.
Qed.

Lemma NoDup_keys_set_any (k : K) (v : V) (m : JsMap.t K V) :
  NoDup (JsMap.keys m) -> NoDup (JsMap.keys (JsMap.set eqb k v m)).
Proof.
  intros ND. rewrite keys_set_any. unfold JsMap.has.
  destruct (JsMap.get eqb k m) eqn:E; [exact ND|].
  apply NoDup_app; [exact ND|repeat constructor; intros []|].
  intros x Hx [E'|[]]. subst x.
  exact (get_none_not_key K V eqb eqb_eq k m E Hx).
Qed.

Lemma NoDup_keys_filter_any (f : K * V -> bool) (m : JsMap.t K V) :
  NoDup (JsMap.keys m) -> NoDup (JsMap.keys (filter f m)).
Proof.
  unfold JsMap.keys. induction m as [|e r IH]; simpl; [auto|].
  intros ND. inversion ND as [|? ? Hnot ND']; subst.
  destruct (f e); simpl; [|exact (IH ND')].
  constructor; [|exact (IH ND')].
  intros HIn. apply Hnot. apply in_map_iff in HIn. destruct HIn as (x & Hx & HIn).
  apply filter_In in HIn. rewrite <- Hx. apply in_map. exact (proj1 HIn).
Qed.

(** With no key twice, [set] replaces the entry of its key. *)
Lemma In_set_replaces (k : K) (v : V) (e : K * V) (m : JsMap.t K V) :
  NoDup (JsMap.keys m) ->
  In e (JsMap.set eqb k v m) -> e = (k, v) \/ (In e m /\ fst e <> k).
Proof.
  induction m as [|[k0 v0] r IH]; simpl.
  - intros _ [<-|[]]. left; reflexivity.
  - intros ND. inversion ND as [|? ? Hnot ND']; subst.
    destruct (eqb k k0) eqn:E; simpl.
    + apply eqb_eq in E. subst k0. intros [<-|H]; [left; reflexivity|].
      right. split; [right; exact H|]. intros Hk. apply Hnot. rewrite <- Hk.
      apply in_map. exact H.
    + intros [<-|H].
      * right. split; [left; reflexivity|]. simpl. intros Hk. subst k0.
        rewrite (eqb_same K eqb eqb_eq k) in E. discriminate.
      * destruct (IH ND' H) as [->|[H' Hne]]; [left; reflexivity|].
        right. split; [right; exact H'|exact Hne].
Qed.

End MapShape.

Lemma NoDup_add (sid : string) (room : JsSet.t) : NoDup room -> NoDup (JsSet.add sid room).
Proof.
  intros ND. unfold JsSet.add. destruct (JsSet.has sid room) eqn:E; [exact ND|].
  apply NoDup_app; [exact ND|repeat constructor; intros []|].
  intros x Hx [E'|[]]. subst x.
  unfold JsSet.has in E. assert (existsb (String.eqb sid) room = true); [|congruence].
  apply existsb_exists. exists sid. split; [exact Hx|apply String.eqb_refl].
Qed.

Lemma add_not_empty (sid : string) (room : JsSet.t) : JsSet.add sid room <> [].
Proof.
  unfold JsSet.add. destruct (JsSet.has sid room) eqn:E.
  - destruct room; [discriminate E|discriminate].
  - destruct room; discriminate.
Qed.

Lemma In_add (sid : string) (room : JsSet.t) : In sid (JsSet.add sid room).
Proof.
  unfold JsSet.add. destruct (JsSet.has sid room) eqn:E.
  - unfold JsSet.has in E. apply existsb_exists in E. destruct E as (x & Hx & E).
    apply String.eqb_eq in E. subst x. exact Hx.
  - apply in_or_app. right. left. reflexivity.
Qed.

Lemma add_to_room_run (g : Z) (sid : string) (rooms : JsMap.t Z JsSet.t) :
  add_to_room g sid rooms
  = match JsMap.get Z.eqb g rooms with
    | Some room => JsMap.set Z.eqb g (JsSet.add sid room) rooms
    | None => rooms ++ [(g, [sid])]
    end.
Proof.
  unfold add_to_room, JsMap.has.
  destruct (JsMap.get Z.eqb g rooms) as [room|] eqn:E.
  - rewrite E. reflexivity.
  - rewrite zget_set, Z.eqb_refl.
    assert (H : forall m : JsMap.t Z JsSet.t,
               JsMap.get Z.eqb g m = None ->
               JsMap.set Z.eqb g (JsSet.add sid []) (JsMap.set Z.eqb g [] m)
               = m ++ [(g, [sid])]).
    { induction m as [|[k0 v0] r IH]; simpl.
      - rewrite Z.eqb_refl. reflexivity.
      - destruct (g =? k0) eqn:Ek; [discriminate|]. intros H. simpl. rewrite Ek.
        rewrite (IH H). reflexivity. }
    exact (H rooms E).
Qed.

Lemma rooms_wf_add (g : Z) (sid : string) (rooms : JsMap.t Z JsSet.t) :
  rooms_wf rooms -> rooms_wf (add_to_room g sid rooms).
Proof.
  intros [ND H]. rewrite add_to_room_run.
  destruct (JsMap.get Z.eqb g rooms) as [room|] eqn:E.
  - split; [apply (NoDup_keys_set_any Z JsSet.t Z.eqb Z.eqb_eq), ND|].
    intros g' room' HIn.
    apply (In_set_replaces Z JsSet.t Z.eqb Z.eqb_eq) in HIn; [|exact ND].
    destruct HIn as [E'|[HIn _]].
    + injection E' as -> ->. split; [|apply add_not_empty].
      apply NoDup_add. apply (get_In Z JsSet.t Z.eqb Z.eqb_eq) in E. exact (proj1 (H g room E)).
    + exact (H g' room' HIn).
  - split.
    + unfold JsMap.keys. rewrite map_app. simpl.
      apply NoDup_app; [exact ND|repeat constructor; intros []|].
      intros x Hx [E'|[]]. subst x.
      exact (get_none_not_key Z JsSet.t Z.eqb Z.eqb_eq g rooms E Hx).
    + intros g' room' HIn. apply in_app_iff in HIn. destruct HIn as [HIn|[E'|[]]].
      * exact (H g' room' HIn).
      * injection E' as <- <-. split; [repeat constructor; intros []|discriminate].
Qed.

Lemma registry_wf_join (ws rnd : Z) (p : Payload.t) (w : World) :
  registry_wf w -> registry_wf (snd (join ws rnd p w)).
Proof.
  intros [Hc Hr]. destruct (join_registry_run ws rnd p w) as (Ec & Er & _).
  unfold registry_wf. rewrite Ec, Er. split.
  - destruct (Js.truthy_str (Payload.sessionId p)) as [sid|]; [|exact Hc].
    apply (NoDup_keys_set_any string Z String.eqb String.eqb_eq), Hc.
  - destruct (Js.truthy_num (Payload.gameId p)) as [g|]; [|exact Hr].
    destruct (Js.truthy_str (Payload.sessionId p)) as [sid|]; [|exact Hr].
    apply rooms_wf_add, Hr.
Qed.

Lemma registry_wf_same (w w' : World) : same_registry w w' -> registry_wf w -> registry_wf w'.
Proof. intros (Ec & Er & _). unfold registry_wf. rewrite Ec, Er. auto. Qed.

Lemma registry_wf_on_message (ws rnd : Z) (cv : ConnVars) (message : Incoming) (w : World) :
  registry_wf w -> registry_wf (snd (on_message ws rnd cv message w)).
Proof.
  intros Hwf.
  assert (Hother : match message with
                   | Envelope type (Some _) => classify type <> CJoin
                   | _ => True
                   end -> registry_wf (snd (on_message ws rnd cv message w))).
  { intros H. exact (registry_wf_same _ _ (proj2 (on_message_registry ws rnd cv message w H)) Hwf). }
  destruct message as [|type [p|]]; try (apply Hother; exact I).
  destruct (classify type) eqn:Ec; try (apply Hother; discriminate).
  clear Hother. unfold on_message, dispatch. cbn [snd]. rewrite Ec.
  unfold payload_of, bind at 1, ret at 1.
  pose proof (registry_wf_join ws rnd p w Hwf) as H.
  unfold try_catch. destruct (join ws rnd p w) as [[[]|e] w']; simpl in *; [exact H|].
  exact H.
Qed.

Lemma NoDup_set_delete (sid : string) (room : JsSet.t) :
  NoDup room -> NoDup (JsSet.delete sid room).
Proof. intros ND. unfold JsSet.delete. apply NoDup_filter, ND. Qed.

Lemma registry_wf_on_close (ws : Z) (cv : ConnVars) (w : World) :
  registry_wf w -> registry_wf (on_close ws cv w).
Proof.
  intros [Hc [ND H]]. unfold on_close.
  destruct (Js.truthy_str (cv_sessionId cv)) as [sid|]; [|split; [exact Hc|split; assumption]].
  assert (Hc' : NoDup (JsMap.keys (JsMap.delete String.eqb sid (connections w)))).
  { unfold JsMap.delete. apply NoDup_keys_filter_any, Hc. }
  destruct (Js.truthy_num (cv_gameId cv)) as [g|]; [|split; [exact Hc'|split; assumption]].
  cbn [gameRooms set_connections connections].
  destruct (JsMap.get Z.eqb g (gameRooms w)) as [room|] eqn:E;
    [|split; [exact Hc'|split; assumption]].
  destruct (List.length (JsSet.delete sid room) =? 0)%nat eqn:El.
  - split; [exact Hc'|]. cbn [gameRooms set_gameRooms]. split.
    + unfold JsMap.delete. apply NoDup_keys_filter_any, ND.
    + intros g' room' HIn. apply In_delete in HIn. exact (H g' room' (proj1 HIn)).
  - split; [exact Hc'|]. cbn [gameRooms set_gameRooms]. split.
    + apply (NoDup_keys_set_any Z JsSet.t Z.eqb Z.eqb_eq), ND.
    + intros g' room' HIn.
      apply (In_set_replaces Z JsSet.t Z.eqb Z.eqb_eq) in HIn; [|exact ND].
      destruct HIn as [E'|[HIn _]]; [|exact (H g' room' HIn)].
      injection E' as -> ->. apply (get_In Z JsSet.t Z.eqb Z.eqb_eq) in E. split.
      * apply NoDup_set_delete. exact (proj1 (H g room E)).
      * intros Hnil. rewrite Hnil in El. discriminate.
Qed.

Lemma registry_wf_run (es : list Event) (sv : Server) :
  registry_wf (world sv) -> registry_wf (world (run sv es)).
Proof.
  revert sv. induction es as [|e r IH]; intros sv Hwf; [exact Hwf|].
  unfold run in *; simpl. apply IH.
  destruct e as [ws|ws rnd message|ws]; simpl.
  - exact Hwf.
  - destruct (JsMap.get Z.eqb ws (conns sv)) as [cv|]; [|exact Hwf].
    exact (registry_wf_on_message ws rnd cv message (world sv) Hwf).
  - destruct (JsMap.get Z.eqb ws (conns sv)) as [cv|]; [|exact Hwf].
    exact (registry_wf_on_close ws cv (world sv) Hwf).
Qed.

Lemma classify_join (type : string) : classify type = CJoin -> type = "join"%string.
Proof.
  unfold classify. destruct (String.eqb_spec type "join") as [E|_]; [intros _; exact E|].
  repeat match goal with
         | |- context [if ?b then _ else _] => destruct b
         end; discriminate.
Qed.

Lemma In_frames (w : World) (gs : GameState) (ids : list string) (sid : string)
    (f : Z * ServerMsg) :
  In sid ids -> frame_for w gs sid = Some f -> In f (frames w gs ids).
Proof.
  intros HIn Hf. induction ids as [|i r IH]; [destruct HIn|].
  simpl. destruct HIn as [->|HIn].
  - rewrite Hf. left. reflexivity.
  - destruct (frame_for w gs i); [right|]; exact (IH HIn).
Qed.

Lemma frames_are_states (w : World) (gs : GameState) (ids : list string) :
  Forall (fun f => exists q, snd f = GameStateMsg gs q) (frames w gs ids).
Proof.
  induction ids as [|i r IH]; simpl; [constructor|].
  unfold frame_for.
  destruct (JsMap.get String.eqb i (connections w)) as [c|]; [|exact IH].
  destruct (isOpen c w); [|exact IH].
  destruct (Storage.getPlayerBySessionId i (storage w)) as [q|]; [|exact IH].
  constructor; [exists q; reflexivity|exact IH].
Qed.

Lemma In_room_after_join (ws g : Z) (sid : string) (w : World) :
  In sid (room_of g (join_registry ws g sid w)).
Proof.
  unfold room_of, join_registry. cbn [gameRooms set_gameRooms set_connections].
  rewrite add_to_room_run.
  destruct (JsMap.get Z.eqb g (gameRooms w)) as [room|] eqn:E.
  - rewrite zget_set, Z.eqb_refl. apply In_add.
  - assert (H : forall m : JsMap.t Z JsSet.t,
               JsMap.get Z.eqb g m = None ->
               JsMap.get Z.eqb g (m ++ [(g, [sid])]) = Some [sid]).
    { induction m as [|[k0 v0] r IH]; simpl.
      - rewrite Z.eqb_refl. reflexivity.
      - destruct (g =? k0); [discriminate|exact IH]. }
    rewrite (H _ E). left. reflexivity.
Qed.

(** The whole of [join] on a stored game. *)
Lemma join_run (ws rnd : Z) (p : Payload.t) (w : World) (g : Z) (sid : string)
    (game0 : Game.t) :
  Js.truthy_num (Payload.gameId p) = Some g ->
  Js.truthy_str (Payload.sessionId p) = Some sid ->
  Storage.getGame g (storage w) = Some game0 ->
  let s1 := join_storage g sid p rnd (storage w) in
  let w1 := set_storage (join_registry ws g sid w) s1 in
  let player := join_player g sid p rnd (storage w) in
  exists gs,
    Storage.getGameState g (Js.or_one (Payload.round p)) s1 = Ok (gs, s1)
    /\ join ws rnd p w
       = (Ok tt, add_sent w1 ((ws, GameStateMsg gs player) :: frames w1 gs (room_of g w1))).
Proof.
  intros Hg Hs Hgame. cbv zeta. rewrite join_unfold, Hg, Hs. unfold join_registry.
  unfold bind at 1, query at 1. cbn [storage set_gameRooms set_connections].
  rewrite Hgame. unfold bind at 1, query at 1.
  cbn [storage set_gameRooms set_connections].
  unfold join_storage, join_player.
  destruct (Storage.getPlayerBySessionId sid (storage w)) as [player|] eqn:Ep.
  - unfold bind at 1, ret at 1. unfold bind at 1, call at 1, Storage.getGameState.
    cbn [storage set_gameRooms set_connections]. rewrite Hgame.
    eexists. split; [reflexivity|].
    unfold bind at 1, sendMessage at 1. rewrite broadcastGameState_run.
    match goal with
    | |- context [push_sent ?W ?f] => change (push_sent W f) with (add_sent W [f])
    end.
    rewrite frames_add_sent.
    unfold add_sent, set_storage, room_of. simpl.
    rewrite <- app_assoc. reflexivity.
  - unfold bind at 1. unfold bind at 1, query at 1, create.
    cbn [storage set_gameRooms set_connections Storage.createPlayer snd fst].
    unfold bind at 1, call at 1, Storage.getGameState. cbn [storage set_storage].
    unfold Storage.getGame in *. cbn [st_games]. rewrite Hgame.
    eexists. split; [reflexivity|].
    unfold bind at 1, sendMessage at 1. rewrite broadcastGameState_run.
    match goal with
    | |- context [push_sent ?W ?f] => change (push_sent W f) with (add_sent W [f])
    end.
    rewrite frames_add_sent.
    unfold add_sent, set_storage, room_of. simpl.
    rewrite <- app_assoc. reflexivity.
Qed.

(** ** Invariants kept by every step *)

Section Keyed.
Variable V : Type.
Variable idf : V -> Z.

Lemma In_set (k : Z) (v : V) (e : Z * V) (m : JsMap.t Z V) :
  In e (JsMap.set Z.eqb k v m) -> e = (k, v) \/ In e m.
Proof.
  induction m as [|[k0 v0] r IH]; simpl.
  - intros [<-|[]]. left; reflexivity.
  - destruct (k =? k0); simpl.
    + intros [<-|H]; [left; reflexivity|right; right; exact H].
    + intros [<-|H]; [right; left; reflexivity|].
      destruct (IH H) as [->|H']; [left; reflexivity|right; right; exact H'].
Qed.

Lemma keys_set (k : Z) (v : V) (m : JsMap.t Z V) :
  JsMap.keys (JsMap.set Z.eqb k v m)
  = if JsMap.has Z.eqb k m then JsMap.keys m else JsMap.keys m ++ [k].
Proof.
  unfold JsMap.has. induction m as [|[k0 v0] r IH]; simpl; [reflexivity|].
  destruct (Z.eqb_spec k k0) as [->|Hne]; simpl; [reflexivity|].
  rewrite IH. destruct (JsMap.get Z.eqb k r); reflexivity.
Qed.

Lemma NoDup_keys_set (k : Z) (v : V) (m : JsMap.t Z V) :
  NoDup (JsMap.keys m) -> NoDup (JsMap.keys (JsMap.set Z.eqb k v m)).
Proof.
  intros ND. rewrite keys_set. unfold JsMap.has.
  destruct (JsMap.get Z.eqb k m) eqn:E; [exact ND|].
  apply NoDup_app; [exact ND|repeat constructor; intros []|].
  intros x Hx [E'|[]]. subst x.
  exact (get_none_not_key Z V Z.eqb Z.eqb_eq k m E Hx).
Qed.

Lemma keyed_fresh (c : Z) (v : V) (m : JsMap.t Z V) :
  keyed idf c m -> idf v = c -> keyed idf (c + 1) (JsMap.set Z.eqb c v m).
Proof.
  intros [ND H] Hid. split; [apply NoDup_keys_set, ND|].
  intros k v' HIn. apply In_set in HIn. destruct HIn as [E|HIn].
  - injection E as -> ->. split; [exact Hid|lia].
  - destruct (H k v' HIn). split; [assumption|lia].
Qed.

Lemma keyed_update (c k : Z) (v0 v1 : V) (m : JsMap.t Z V) :
  keyed idf c m -> JsMap.get Z.eqb k m = Some v0 -> idf v1 = k ->
  keyed idf c (JsMap.set Z.eqb k v1 m).
Proof.
  intros [ND H] Hg Hid. split; [apply NoDup_keys_set, ND|].
  intros k' v' HIn. apply In_set in HIn. destruct HIn as [E|HIn].
  - injection E as -> ->. split; [exact Hid|].
    apply (get_In Z V Z.eqb Z.eqb_eq) in Hg. exact (proj2 (H k v0 Hg)).
  - exact (H k' v' HIn).
Qed.

Lemma NoDup_keys_filter (f : Z * V -> bool) (m : JsMap.t Z V) :
  NoDup (JsMap.keys m) -> NoDup (JsMap.keys (filter f m)).
Proof.
  unfold JsMap.keys. induction m as [|e r IH]; simpl; [constructor|].
  intros ND. inversion ND as [|? ? Hnot ND']; subst.
  destruct (f e); simpl; [|exact (IH ND')].
  constructor; [|exact (IH ND')].
  intros HIn. apply Hnot. apply in_map_iff in HIn. destruct HIn as (e' & He & HIn).
  apply filter_In in HIn. rewrite <- He. apply in_map. exact (proj1 HIn).
Qed.

Lemma keyed_filter (c : Z) (f : Z * V -> bool) (m : JsMap.t Z V) :
  keyed idf c m -> keyed idf c (filter f m).
Proof.
  intros [ND H]. split; [apply NoDup_keys_filter, ND|].
  intros k v HIn. apply filter_In in HIn. exact (H k v (proj1 HIn)).
Qed.

Lemma keyed_delete (c k : Z) (m : JsMap.t Z V) :
  keyed idf c m -> keyed idf c (JsMap.delete Z.eqb k m).
Proof. apply keyed_filter. Qed.

Lemma keyed_delete_all (c : Z) (ids : list Z) (m : JsMap.t Z V) :
  keyed idf c m -> keyed idf c (Storage.delete_all ids m).
Proof.
  unfold Storage.delete_all. revert m.
  induction ids as [|i r IH]; intros m H; simpl; [exact H|].
  apply IH, keyed_delete, H.
Qed.

(** Deleting a list of keys is one filter. *)
Lemma delete_all_filter (ids : list Z) (m : JsMap.t Z V) :
  Storage.delete_all ids m
  = filter (fun e => negb (existsb (Z.eqb (fst e)) ids)) m.
Proof.
  unfold Storage.delete_all. revert m.
  induction ids as [|i r IH]; intros m; simpl.
  - induction m as [|e l IHm]; simpl; [reflexivity|]. rewrite <- IHm. reflexivity.
  - rewrite IH. unfold JsMap.delete.
    induction m as [|e l IHm]; simpl; [reflexivity|].
    rewrite (Z.eqb_sym (fst e) i).
    destruct (i =? fst e); simpl; [exact IHm|].
    destruct (existsb (Z.eqb (fst e)) r); simpl; [exact IHm|rewrite IHm; reflexivity].
Qed.

End Keyed.

Lemma removePlayer_run (id : Z) (s : MemStorage) (p : Player.t) :
  Storage.getPlayer id s = Some p ->
  Storage.removePlayer id s
  = Ok (tt,
        mkStorage (st_games s) (JsMap.delete Z.eqb id (st_players s))
          (Storage.delete_all
             (map Definition_.id
                (filter (fun def => Definition_.playerId def =? id)
                   (JsMap.values (st_definitions s))))
             (st_definitions s))
          (Storage.delete_all
             (map Vote.id
                (filter (fun vote => Vote.playerId vote =? id) (JsMap.values (st_votes s))))
             (st_votes s))
          (gameIdCounter s) (playerIdCounter s) (definitionIdCounter s) (voteIdCounter s)).
Proof. intros H. unfold Storage.removePlayer. rewrite H. reflexivity. Qed.

Lemma removePlayer_inv (id : Z) (s s' : MemStorage) :
  Storage.removePlayer id s = Ok (tt, s') ->
  exists p, Storage.getPlayer id s = Some p
            /\ Storage.removePlayer id s
               = Ok (tt,
                     mkStorage (st_games s) (JsMap.delete Z.eqb id (st_players s))
                       (Storage.delete_all
                          (map Definition_.id
                             (filter (fun def => Definition_.playerId def =? id)
                                (JsMap.values (st_definitions s))))
                          (st_definitions s))
                       (Storage.delete_all
                          (map Vote.id
                             (filter (fun vote => Vote.playerId vote =? id)
                                (JsMap.values (st_votes s))))
                          (st_votes s))
                       (gameIdCounter s) (playerIdCounter s) (definitionIdCounter s)
                       (voteIdCounter s)).
Proof.
  intros H. destruct (Storage.getPlayer id s) as [p|] eqn:E.
  - exists p. split; [reflexivity|]. exact (removePlayer_run id s p E).
  - unfold Storage.removePlayer in H. rewrite E in H. discriminate.
Qed.

Lemma wf_store_step (s s' : MemStorage) : wf_store s -> StoreStep s s' -> wf_store s'.
Proof.
  intros (Hg & Hp & Hd & Hv) Hstep.
  destruct Hstep as [g game0 game1 Hget Hid|ins _|pid n player Hget Hsp|id s' Hrm|ins _|ins _|g r].
  - split; [|split; [exact Hp|split; [exact Hd|exact Hv]]]. simpl.
    apply (keyed_update Game.t Game.id _ g game0 game1 _ Hg Hget).
    rewrite Hid. apply (get_In Z Game.t Z.eqb Z.eqb_eq) in Hget.
    exact (proj1 (proj2 Hg g game0 Hget)).
  - split; [exact Hg|]. split; [|split; [exact Hd|exact Hv]]. simpl.
    apply keyed_fresh; [exact Hp|reflexivity].
  - split; [exact Hg|]. split; [|split; [exact Hd|exact Hv]]. simpl.
    apply (keyed_update Player.t Player.id _ pid player _ _ Hp Hget).
    apply (get_In Z Player.t Z.eqb Z.eqb_eq) in Hget.
    exact (proj1 (proj2 Hp pid player Hget)).
  - destruct (removePlayer_inv id s s' Hrm) as (p & _ & Hrun).
    rewrite Hrun in Hrm. injection Hrm as <-. simpl.
    split; [exact Hg|]. split; [apply keyed_delete, Hp|].
    split; apply keyed_delete_all; assumption.
  - split; [exact Hg|]. split; [exact Hp|]. split; [|exact Hv]. simpl.
    apply keyed_fresh; [exact Hd|reflexivity].
  - split; [exact Hg|]. split; [exact Hp|]. split; [exact Hd|]. simpl.
    apply keyed_fresh; [exact Hv|reflexivity].
  - unfold Storage.clearDefinitionsAndVotesByRound. simpl.
    split; [exact Hg|]. split; [exact Hp|].
    split; apply keyed_delete_all; assumption.
Qed.

Lemma wf_store_steps (s s' : MemStorage) : wf_store s -> Steps s s' -> wf_store s'.
Proof.
  intros Hwf H. induction H as [|s1 s2 _ IH Hs]; [exact Hwf|].
  exact (wf_store_step s1 s2 IH Hs).
Qed.

Lemma wf_store_empty : wf_store Storage.empty.
Proof.
  unfold wf_store, keyed, Storage.empty; simpl.
  repeat split; try constructor; contradiction.
Qed.

Lemma wf_store_createGame (ins : InsertGame.t) (s : MemStorage) :
  wf_store s -> wf_store (snd (Storage.createGame ins s)).
Proof.
  intros (Hg & Hp & Hd & Hv). split; [|split; [exact Hp|split; [exact Hd|exact Hv]]]. simpl.
  apply keyed_fresh; [exact Hg|reflexivity].
Qed.

Lemma flags_agree_step (s s' : MemStorage) : flags_agree s -> StoreStep s s' -> flags_agree s'.
Proof.
  intros Hf Hstep.
  destruct Hstep as [g game0 game1 Hget Hid|ins Hins|pid n player Hget Hsp|id s' Hrm|ins _|ins _|g r];
    try exact Hf.
  - intros k p HIn. simpl in HIn. apply In_set in HIn. destruct HIn as [E|HIn]; [|exact (Hf k p HIn)].
    injection E as -> ->. destruct Hins as (role & Hr & Hne & Hs).
    simpl. rewrite Hr, Hs. unfold Js.truthy_str.
    destruct (String.eqb_spec role EmptyString) as [->|_]; [contradiction|].
    simpl. split.
    + intros ->. reflexivity.
    + intros H. apply String.eqb_eq. exact H.
  - intros k p HIn. simpl in HIn. apply In_set in HIn. destruct HIn as [E|HIn]; [|exact (Hf k p HIn)].
    injection E as -> ->. simpl.
    apply (get_In Z Player.t Z.eqb Z.eqb_eq) in Hget. exact (Hf pid player Hget).
  - destruct (removePlayer_inv id s s' Hrm) as (p & _ & Hrun).
    rewrite Hrun in Hrm. injection Hrm as <-.
    intros k q HIn. simpl in HIn. apply In_delete in HIn. exact (Hf k q (proj1 HIn)).
Qed.

Lemma flags_agree_steps (s s' : MemStorage) : flags_agree s -> Steps s s' -> flags_agree s'.
Proof.
  intros Hf H. induction H as [|s1 s2 _ IH Hs]; [exact Hf|].
  exact (flags_agree_step s1 s2 IH Hs).
Qed.

(** *** At most one submission per player and round *)

Lemma existsb_false_filter (A : Type) (f : A -> bool) (l : list A) :
  existsb f l = false -> filter f l = [].
Proof.
  induction l as [|a r IH]; simpl; [reflexivity|].
  destruct (f a); simpl; [discriminate|exact IH].
Qed.

Lemma count_values_filter (V : Type) (P : V -> bool) (Q : Z * V -> bool) (m : JsMap.t Z V) :
  (List.length (filter P (JsMap.values (filter Q m)))
   <= List.length (filter P (JsMap.values m)))%nat.
Proof.
  unfold JsMap.values. induction m as [|e r IH]; simpl; [lia|].
  destruct (Q e); simpl; destruct (P (snd e)); simpl; lia.
Qed.

Lemma count_values_delete_all (V : Type) (P : V -> bool) (ids : list Z) (m : JsMap.t Z V) :
  (List.length (filter P (JsMap.values (Storage.delete_all ids m)))
   <= List.length (filter P (JsMap.values m)))%nat.
Proof. rewrite delete_all_filter. apply count_values_filter. Qed.

Lemma count_values_set (V : Type) (P : V -> bool) (k : Z) (v : V) (m : JsMap.t Z V) :
  (List.length (filter P (JsMap.values (JsMap.set Z.eqb k v m)))
   <= List.length (filter P (JsMap.values m)) + (if P v then 1 else 0))%nat.
Proof.
  unfold JsMap.values. induction m as [|[k0 v0] r IH]; simpl.
  - destruct (P v); simpl; lia.
  - destruct (k =? k0); simpl.
    + destruct (P v), (P v0); simpl; lia.
    + destruct (P v0); simpl; lia.
Qed.

Lemma definitions_of_filter (s : MemStorage) (g r pid : Z) :
  definitions_of s g r pid = filter (def_matches g r pid) (JsMap.values (st_definitions s)).
Proof. unfold definitions_of, Storage.getDefinitionsByGameId. apply filter_filter_and. Qed.

Lemma votes_of_filter (s : MemStorage) (g r pid : Z) :
  votes_of s g r pid = filter (vote_matches g r pid) (JsMap.values (st_votes s)).
Proof. unfold votes_of, Storage.getVotesByGameId. apply filter_filter_and. Qed.

Lemma once_per_round_step (s s' : MemStorage) :
  once_per_round s -> StoreStep s s' -> once_per_round s'.
Proof.
  intros Ho Hstep g r pid. destruct (Ho g r pid) as [Hd Hv].
  rewrite definitions_of_filter, votes_of_filter in *.
  destruct Hstep as [g0 game0 game1 Hget Hid|ins _|pid0 n player Hget Hsp|id s' Hrm|ins Hnew|ins Hnew|g0 r0];
    try (split; assumption).
  - destruct (removePlayer_inv id s s' Hrm) as (p & _ & Hrun).
    rewrite Hrun in Hrm. injection Hrm as <-. simpl. split.
    + eapply Nat.le_trans; [apply count_values_delete_all|exact Hd].
    + eapply Nat.le_trans; [apply count_values_delete_all|exact Hv].
  - split; [|exact Hv]. simpl.
    eapply Nat.le_trans; [apply count_values_set|].
    match goal with |- context [if ?b then _ else _] => destruct b eqn:E end; [|lia].
    unfold def_matches in E. simpl in E.
    apply andb_true_iff in E. destruct E as [E E3]. apply andb_true_iff in E. destruct E as [E1 E2].
    apply Z.eqb_eq in E1, E2, E3. subst g r pid.
    apply existsb_false_filter in Hnew.
    pose proof (definitions_of_filter s (InsertDefinition.gameId ins)
                  (Js.nullish (InsertDefinition.round ins) 1) (InsertDefinition.playerId ins))
      as Hrw.
    unfold definitions_of in Hrw. rewrite Hnew in Hrw. rewrite <- Hrw. simpl. lia.
  - split; [exact Hd|]. simpl.
    eapply Nat.le_trans; [apply count_values_set|].
    match goal with |- context [if ?b then _ else _] => destruct b eqn:E end; [|lia].
    unfold vote_matches in E. simpl in E.
    apply andb_true_iff in E. destruct E as [E E3]. apply andb_true_iff in E. destruct E as [E1 E2].
    apply Z.eqb_eq in E1, E2, E3. subst g r pid.
    apply existsb_false_filter in Hnew.
    pose proof (votes_of_filter s (InsertVote.gameId ins)
                  (Js.or_one (InsertVote.round ins)) (InsertVote.playerId ins)) as Hrw.
    unfold votes_of in Hrw. rewrite Hnew in Hrw. rewrite <- Hrw. simpl. lia.
  - unfold Storage.clearDefinitionsAndVotesByRound. simpl. split.
    + eapply Nat.le_trans; [apply count_values_delete_all|exact Hd].
    + eapply Nat.le_trans; [apply count_values_delete_all|exact Hv].
Qed.

Lemma once_per_round_steps (s s' : MemStorage) :
  once_per_round s -> Steps s s' -> once_per_round s'.
Proof.
  intros Ho H. induction H as [|s1 s2 _ IH Hs]; [exact Ho|].
  exact (once_per_round_step s1 s2 IH Hs).
Qed.

(** *** A spectator's record is never rewritten *)

Lemma spectator_step (pid : Z) (p : Player.t) (s s' : MemStorage) :
  StoreStep s s' ->
  Player.isSpectator p = true ->
  pid < playerIdCounter s ->
  Storage.getPlayer pid s = Some p \/ Storage.getPlayer pid s = None ->
  (Storage.getPlayer pid s' = Some p \/ Storage.getPlayer pid s' = None)
  /\ pid < playerIdCounter s'.
Proof.
  intros Hstep Hsp Hlt Hcur.
  destruct Hstep as [g0 game0 game1 Hget Hid|ins _|pid0 n player Hget Hns|id s' Hrm|ins _|ins _|g0 r0];
    try (split; assumption).
  - unfold Storage.getPlayer. simpl. rewrite zget_set.
    destruct (Z.eqb_spec pid (playerIdCounter s)); [lia|]. split; [exact Hcur|lia].
  - unfold Storage.getPlayer. simpl. rewrite zget_set.
    destruct (Z.eqb_spec pid pid0) as [->|_]; [|split; assumption].
    exfalso. destruct Hcur as [Hc|Hc]; rewrite Hc in Hget; [|discriminate].
    injection Hget as <-. rewrite Hsp in Hns. discriminate.
  - destruct (removePlayer_inv id s s' Hrm) as (q & _ & Hrun).
    rewrite Hrun in Hrm. injection Hrm as <-.
    unfold Storage.getPlayer. simpl. rewrite zget_delete.
    destruct (pid =? id); [split; [right; reflexivity|exact Hlt]|split; assumption].
Qed.

Lemma spectator_steps (pid : Z) (p : Player.t) (s s' : MemStorage) :
  Steps s s' ->
  Player.isSpectator p = true ->
  pid < playerIdCounter s ->
  Storage.getPlayer pid s = Some p \/ Storage.getPlayer pid s = None ->
  (Storage.getPlayer pid s' = Some p \/ Storage.getPlayer pid s' = None)
  /\ pid < playerIdCounter s'.
Proof.
  intros H Hsp Hlt Hcur. induction H as [|s1 s2 _ IH Hs]; [split; assumption|].
  destruct IH as [Hc Hl]. exact (spectator_step pid p s1 s2 Hs Hsp Hl Hc).
Qed.

(** *** Cascading removal *)

Lemma values_filter_snd (V : Type) (P : V -> bool) (m : JsMap.t Z V) :
  JsMap.values (filter (fun e => P (snd e)) m) = filter P (JsMap.values m).
Proof.
  unfold JsMap.values. induction m as [|e r IH]; simpl; [reflexivity|].
  destruct (P (snd e)); simpl; rewrite IH; reflexivity.
Qed.

Lemma keyed_unique (V : Type) (idf : V -> Z) (c : Z) (m : JsMap.t Z V) (k : Z) (v1 v2 : V) :
  keyed idf c m -> In (k, v1) m -> In (k, v2) m -> v1 = v2.
Proof.
  intros [ND _] H1 H2.
  pose proof (In_get Z V Z.eqb Z.eqb_eq k v1 m ND H1) as E1.
  pose proof (In_get Z V Z.eqb Z.eqb_eq k v2 m ND H2) as E2.
  congruence.
Qed.

(** Deleting, by their [id] field, the rows that satisfy [Q] removes
    exactly those rows when the map is keyed by that field. *)
Lemma delete_by_id (V : Type) (idf : V -> Z) (c : Z) (Q : V -> bool) (m : JsMap.t Z V) :
  keyed idf c m ->
  Storage.delete_all (map idf (filter Q (JsMap.values m))) m
  = filter (fun e => negb (Q (snd e))) m.
Proof.
  intros Hk. rewrite delete_all_filter. apply filter_ext_in.
  intros [k v] HIn. simpl. f_equal.
  destruct (Q v) eqn:Eq.
  - apply existsb_exists. exists k. split; [|apply Z.eqb_refl].
    apply in_map_iff. exists v. split; [exact (proj1 (proj2 Hk k v HIn))|].
    apply filter_In. split; [|exact Eq].
    unfold JsMap.values. change v with (snd (k, v)). apply in_map, HIn.
  - destruct (existsb (Z.eqb k) (map idf (filter Q (JsMap.values m)))) eqn:Ex; [|reflexivity].
    exfalso. apply existsb_exists in Ex. destruct Ex as (x & Hx & Hkx).
    apply Z.eqb_eq in Hkx. subst x.
    apply in_map_iff in Hx. destruct Hx as (v' & Hid & Hv').
    apply filter_In in Hv'. destruct Hv' as [Hv' Hq].
    unfold JsMap.values in Hv'. apply in_map_iff in Hv'. destruct Hv' as ([k' v''] & Hs & HIn').
    simpl in Hs. subst v''.
    assert (k' = k) by (rewrite <- Hid; symmetry; exact (proj1 (proj2 Hk k' v' HIn'))).
    subst k'. rewrite (keyed_unique V idf c m k v v' Hk HIn HIn') in Eq. congruence.
Qed.

Lemma removePlayer_cascade (id : Z) (s : MemStorage) (p : Player.t) :
  wf_store s ->
  Storage.getPlayer id s = Some p ->
  Storage.removePlayer id s
  = Ok (tt,
        mkStorage (st_games s) (JsMap.delete Z.eqb id (st_players s))
          (filter (fun e => negb (Definition_.playerId (snd e) =? id)) (st_definitions s))
          (filter (fun e => negb (Vote.playerId (snd e) =? id)) (st_votes s))
          (gameIdCounter s) (playerIdCounter s) (definitionIdCounter s) (voteIdCounter s)).
Proof.
  intros (_ & _ & Hd & Hv) Hget. rewrite (removePlayer_run id s p Hget).
  rewrite (delete_by_id Definition_.t Definition_.id _
             (fun def => Definition_.playerId def =? id) _ Hd).
  rewrite (delete_by_id Vote.t Vote.id _ (fun vote => Vote.playerId vote =? id) _ Hv).
  reflexivity.
Qed.

Lemma keyed_counter_absent (V : Type) (idf : V -> Z) (c : Z) (m : JsMap.t Z V) :
  keyed idf c m -> JsMap.get Z.eqb c m = None.
Proof.
  intros [_ H]. destruct (JsMap.get Z.eqb c m) as [v|] eqn:E; [|reflexivity].
  apply (get_In Z V Z.eqb Z.eqb_eq) in E. destruct (H c v E). lia.
Qed.

(** ** What the writes keep *)

(** *** Games *)

Lemma game_kept_trans (a b c : Game.t) : game_kept a b -> game_kept b c -> game_kept a c.
Proof.
  unfold game_kept. intros (A1 & A2 & A3 & A4 & A5) (B1 & B2 & B3 & B4 & B5).
  repeat split; try congruence. lia.
Qed.

Lemma games_kept_refl (s : MemStorage) : games_kept s s.
Proof.
  split; [reflexivity|]. split; [reflexivity|].
  intros g game0 H. exists game0. split; [exact H|apply game_kept_refl].
Qed.

Lemma games_kept_trans (a b c : MemStorage) :
  games_kept a b -> games_kept b c -> games_kept a c.
Proof.
  intros (K1 & C1 & G1) (K2 & C2 & G2). split; [congruence|]. split; [congruence|].
  intros g game0 H. destruct (G1 g game0 H) as (game1 & H1 & E1).
  destruct (G2 g game1 H1) as (game2 & H2 & E2).
  exists game2. split; [exact H2|exact (game_kept_trans _ _ _ E1 E2)].
Qed.

Lemma games_kept_same (s s' : MemStorage) :
  st_games s' = st_games s -> gameIdCounter s' = gameIdCounter s -> games_kept s s'.
Proof.
  intros Eg Ec. split; [rewrite Eg; reflexivity|]. split; [exact Ec|].
  intros g game0 H. exists game0. unfold Storage.getGame in *. rewrite Eg.
  split; [exact H|apply game_kept_refl].
Qed.

Lemma games_kept_write (s s' : MemStorage) : Write s s' -> games_kept s s'.
Proof.
  intros H. destruct H as [g game0 game1 Hg Hk|g sid p rnd game0 Hg Hn|pid n pl Hp Hs Hn
                          |id s' Hr|g sid pl r text c Hp Hs Hr Hd|g sid pl r d Hp Hs Hr Hv|g r];
    try (apply games_kept_same; reflexivity).
  - split; [|split; [reflexivity|]].
    + cbn [st_games Storage.set_games]. apply (keys_set_present Z Game.t Z.eqb Z.eqb_eq).
      unfold JsMap.has. unfold Storage.getGame in Hg. rewrite Hg. reflexivity.
    + intros g' game0' H'. unfold Storage.getGame. cbn [st_games Storage.set_games].
      rewrite zget_set. destruct (Z.eqb_spec g' g) as [->|_].
      * exists game1. split; [reflexivity|]. rewrite Hg in H'. injection H' as <-. exact Hk.
      * exists game0'. split; [exact H'|apply game_kept_refl].
  - destruct (removePlayer_inv id s s' Hr) as (q & _ & Hrun).
    rewrite Hrun in Hr. injection Hr as <-. apply games_kept_same; reflexivity.
Qed.

Lemma games_kept_writes (s s' : MemStorage) : Writes s s' -> games_kept s s'.
Proof.
  intros H. induction H as [|s1 s2 _ IH Hw]; [apply games_kept_refl|].
  exact (games_kept_trans _ _ _ IH (games_kept_write s1 s2 Hw)).
Qed.

(** *** Players *)

Lemma player_kept_refl (p : Player.t) : player_kept p p.
Proof. unfold player_kept. repeat split; lia. Qed.

Lemma player_kept_trans (a b c : Player.t) :
  player_kept a b -> player_kept b c -> player_kept a c.
Proof.
  unfold player_kept.
  intros (A1 & A2 & A3 & A4 & A5 & A6 & A7 & A8) (B1 & B2 & B3 & B4 & B5 & B6 & B7 & B8).
  repeat split; try congruence. lia.
Qed.

Lemma player_kept_score (p : Player.t) (n : Z) :
  0 <= n -> player_kept p (Player.with_score p (Player.score p + n)).
Proof. intros Hn. unfold player_kept. simpl. repeat split; lia. Qed.

Lemma player_kept_spectator (p q : Player.t) :
  player_kept p q -> is_spectator q = is_spectator p.
Proof.
  intros (_ & _ & _ & _ & Hr & _ & Hs & _). unfold is_spectator. rewrite Hr, Hs. reflexivity.
Qed.

Lemma stored_below_counter (s : MemStorage) (k : Z) (p : Player.t) :
  wf_store s -> Storage.getPlayer k s = Some p -> k < playerIdCounter s /\ Player.id p = k.
Proof.
  intros (_ & Hp & _) H. apply (get_In Z Player.t Z.eqb Z.eqb_eq) in H.
  destruct (proj2 Hp k p H). auto.
Qed.

Lemma players_kept_same (s s' : MemStorage) :
  st_players s' = st_players s -> playerIdCounter s' = playerIdCounter s -> players_kept s s'.
Proof.
  intros Ep Ec. unfold players_kept, Storage.getPlayer. rewrite Ep, Ec.
  split; [lia|]. split.
  - intros k p H. right. exists p. split; [exact H|apply player_kept_refl].
  - intros k _ H. exact H.
Qed.

Lemma players_kept_write (s s' : MemStorage) : wf_store s -> Write s s' -> players_kept s s'.
Proof.
  intros Hwf H.
  destruct H as [g game0 game1 Hg Hk|g sid p rnd game0 Hg Hn|pid n pl Hp Hs Hn
                |id s' Hr|g sid pl r text c Hp Hs Hr Hd|g sid pl r d Hp Hs Hr Hv|g r];
    try (apply players_kept_same; reflexivity).
  - unfold players_kept, Storage.getPlayer.
    cbn [Storage.createPlayer snd st_players playerIdCounter].
    split; [lia|]. split.
    + intros k p0 H. right. exists p0. rewrite zget_set.
      destruct (stored_below_counter s k p0 Hwf H) as [Hlt _].
      destruct (Z.eqb_spec k (playerIdCounter s)); [lia|].
      split; [exact H|apply player_kept_refl].
    + intros k Hlt H. rewrite zget_set.
      destruct (Z.eqb_spec k (playerIdCounter s)); [lia|exact H].
  - unfold players_kept, Storage.getPlayer.
    cbn [Storage.set_players st_players playerIdCounter].
    split; [lia|]. split.
    + intros k p0 H. right. rewrite zget_set. destruct (Z.eqb_spec k pid) as [->|_].
      * unfold Storage.getPlayer in Hp. rewrite Hp in H. injection H as <-.
        eexists. split; [reflexivity|exact (player_kept_score pl n Hn)].
      * exists p0. split; [exact H|apply player_kept_refl].
    + intros k Hlt H. rewrite zget_set. destruct (Z.eqb_spec k pid) as [->|_]; [|exact H].
      unfold Storage.getPlayer in Hp. rewrite Hp in H. discriminate.
  - destruct (removePlayer_inv id s s' Hr) as (q & _ & Hrun).
    rewrite Hrun in Hr. injection Hr as <-.
    unfold players_kept, Storage.getPlayer. cbn [st_players playerIdCounter].
    split; [lia|]. split.
    + intros k p0 H. rewrite zget_delete. destruct (k =? id); [left; reflexivity|].
      right. exists p0. split; [exact H|apply player_kept_refl].
    + intros k Hlt H. rewrite zget_delete. destruct (k =? id); [reflexivity|exact H].
Qed.

Lemma players_kept_writes (s s' : MemStorage) :
  wf_store s -> Writes s s' -> players_kept s s'.
Proof.
  intros Hwf H. induction H as [|s1 s2 H1 IH Hw].
  - apply players_kept_same; reflexivity.
  - pose proof (wf_store_steps s s1 Hwf (Writes_Steps s s1 H1)) as Hwf1.
    destruct IH as (C1 & P1 & N1).
    destruct (players_kept_write s1 s2 Hwf1 Hw) as (C2 & P2 & N2).
    split; [lia|]. split.
    + intros k p0 H. destruct (stored_below_counter s k p0 Hwf H) as [Hlt _].
      destruct (P1 k p0 H) as [E1|(p1 & E1 & K1)].
      * left. apply N2; [lia|exact E1].
      * destruct (P2 k p1 E1) as [E2|(p2 & E2 & K2)]; [left; exact E2|].
        right. exists p2. split; [exact E2|exact (player_kept_trans _ _ _ K1 K2)].
    + intros k Hlt H. apply N2; [lia|]. apply N1; assumption.
Qed.

(** The rows of [players] after one write: those of before, rewritten in
    their score at most, or those of before and the player [join] made. *)
Lemma Write_players (s s' : MemStorage) :
  wf_store s -> Write s s' ->
  (forall k p', In (k, p') (st_players s') ->
                exists p, In (k, p) (st_players s) /\ player_kept p p')
  \/ (exists g sid p rnd,
        Storage.getGame g s <> None
        /\ Storage.getPlayerBySessionId sid s = None
        /\ st_players s'
           = st_players s
             ++ [(playerIdCounter s,
                  fst (Storage.createPlayer
                         (join_insert g sid p rnd (Storage.getPlayersByGameId g s)) s))]).
Proof.
  intros Hwf H.
  assert (Hsame : st_players s' = st_players s ->
                  forall k p', In (k, p') (st_players s') ->
                               exists p, In (k, p) (st_players s) /\ player_kept p p').
  { intros E k p' HIn. rewrite E in HIn. exists p'. split; [exact HIn|apply player_kept_refl]. }
  destruct H as [g game0 game1 Hg Hk|g sid p rnd game0 Hg Hn|pid n pl Hp Hs Hn
                |id s' Hr|g sid pl r text c Hp Hs Hr Hd|g sid pl r d Hp Hs Hr Hv|g r];
    try (left; apply Hsame; reflexivity).
  - right. exists g, sid, p, rnd. split; [rewrite Hg; discriminate|]. split; [exact Hn|].
    cbn [Storage.createPlayer snd fst st_players].
    apply (set_absent Z Player.t Z.eqb).
    exact (keyed_counter_absent Player.t Player.id _ _ (proj1 (proj2 Hwf))).
  - left. intros k p' HIn. cbn [Storage.set_players st_players] in HIn.
    apply In_set in HIn. destruct HIn as [E|HIn].
    + injection E as -> ->. exists pl.
      split; [exact (get_In Z Player.t Z.eqb Z.eqb_eq pid pl _ Hp)|].
      exact (player_kept_score pl n Hn).
    + exists p'. split; [exact HIn|apply player_kept_refl].
  - left. destruct (removePlayer_inv id s s' Hr) as (q & _ & Hrun).
    rewrite Hrun in Hr. injection Hr as <-. cbn [st_players].
    intros k p' HIn. apply In_delete in HIn. exists p'.
    split; [exact (proj1 HIn)|apply player_kept_refl].
Qed.

Lemma session_is_stored (s : MemStorage) (k : Z) (p : Player.t) :
  In (k, p) (st_players s) -> Storage.getPlayerBySessionId (Player.sessionId p) s <> None.
Proof.
  intros HIn E. unfold Storage.getPlayerBySessionId in E.
  assert (Hp : In p (JsMap.values (st_players s))).
  { unfold JsMap.values. change p with (snd (k, p)). apply in_map, HIn. }
  pose proof (find_none _ _ E p Hp) as H. simpl in H.
  rewrite String.eqb_refl in H. discriminate.
Qed.

Lemma unique_sessions_write (s s' : MemStorage) :
  wf_store s -> unique_sessions s -> Write s s' -> unique_sessions s'.
Proof.
  intros Hwf Hu Hw. destruct (Write_players s s' Hwf Hw) as [Hsub|(g & sid & p & rnd & _ & Hn & E)].
  - intros k1 p1 k2 p2 H1 H2 Hs.
    destruct (Hsub k1 p1 H1) as (q1 & I1 & K1). destruct (Hsub k2 p2 H2) as (q2 & I2 & K2).
    apply (Hu k1 q1 k2 q2 I1 I2).
    destruct K1 as (_ & _ & _ & S1 & _). destruct K2 as (_ & _ & _ & S2 & _). congruence.
  - intros k1 p1 k2 p2 H1 H2 Hs. rewrite E in H1, H2.
    apply in_app_iff in H1. apply in_app_iff in H2.
    destruct H1 as [H1|[H1|[]]]; destruct H2 as [H2|[H2|[]]].
    + exact (Hu k1 p1 k2 p2 H1 H2 Hs).
    + exfalso. injection H2 as <- <-. cbn [Storage.createPlayer fst Player.sessionId
        join_insert InsertPlayer.sessionId] in Hs.
      apply (session_is_stored s k1 p1 H1). rewrite Hs. exact Hn.
    + exfalso. injection H1 as <- <-. cbn [Storage.createPlayer fst Player.sessionId
        join_insert InsertPlayer.sessionId] in Hs.
      apply (session_is_stored s k2 p2 H2). rewrite <- Hs. exact Hn.
    + injection H1 as <- _. injection H2 as <- _. reflexivity.
Qed.

Lemma one_admin_write (s s' : MemStorage) :
  wf_store s -> one_admin s -> Write s s' -> one_admin s'.
Proof.
  intros Hwf Hu Hw. destruct (Write_players s s' Hwf Hw) as [Hsub|(g & sid & p & rnd & _ & Hn & E)].
  - intros k1 p1 k2 p2 H1 H2 Hg A1 A2.
    destruct (Hsub k1 p1 H1) as (q1 & I1 & K1). destruct (Hsub k2 p2 H2) as (q2 & I2 & K2).
    destruct K1 as (_ & G1 & _ & _ & _ & B1 & _). destruct K2 as (_ & G2 & _ & _ & _ & B2 & _).
    apply (Hu k1 q1 k2 q2 I1 I2); congruence.
  - assert (Hnew : forall k q, In (k, q) (st_players s) -> Player.gameId q = g ->
                   (List.length (Storage.getPlayersByGameId g s) =? 0)%nat = true -> False).
    { intros k q HIn Hg Hz. apply Nat.eqb_eq in Hz. apply length_zero_iff_nil in Hz.
      unfold Storage.getPlayersByGameId in Hz.
      assert (Hq : In q (filter (fun player => Player.gameId player =? g)
                           (JsMap.values (st_players s)))).
      { apply filter_In. split; [|apply Z.eqb_eq, Hg].
        unfold JsMap.values. change q with (snd (k, q)). apply in_map, HIn. }
      rewrite Hz in Hq. destruct Hq. }
    intros k1 p1 k2 p2 H1 H2 Hg A1 A2. rewrite E in H1, H2.
    apply in_app_iff in H1. apply in_app_iff in H2.
    destruct H1 as [H1|[H1|[]]]; destruct H2 as [H2|[H2|[]]].
    + exact (Hu k1 p1 k2 p2 H1 H2 Hg A1 A2).
    + exfalso. injection H2 as <- <-.
      cbn [Storage.createPlayer fst Player.gameId Player.isAdmin join_insert
           InsertPlayer.gameId InsertPlayer.isAdmin Js.nullish] in Hg, A2.
      exact (Hnew k1 p1 H1 Hg A2).
    + exfalso. injection H1 as <- <-.
      cbn [Storage.createPlayer fst Player.gameId Player.isAdmin join_insert
           InsertPlayer.gameId InsertPlayer.isAdmin Js.nullish] in Hg, A1.
      exact (Hnew k2 p2 H2 (eq_sym Hg) A1).
    + injection H1 as <- _. injection H2 as <- _. reflexivity.
Qed.

Lemma players_in_games_write (s s' : MemStorage) :
  wf_store s -> players_in_games s -> Write s s' -> players_in_games s'.
Proof.
  intros Hwf Hu Hw. destruct (games_kept_write s s' Hw) as (_ & _ & Hg).
  assert (Hstill : forall g, Storage.getGame g s <> None -> Storage.getGame g s' <> None).
  { intros g H. destruct (Storage.getGame g s) as [game0|] eqn:E; [|contradiction].
    destruct (Hg g game0 E) as (game1 & -> & _). discriminate. }
  destruct (Write_players s s' Hwf Hw) as [Hsub|(g & sid & p & rnd & Hgame & Hn & E)].
  - intros k p' HIn. destruct (Hsub k p' HIn) as (q & I & K).
    destruct K as (_ & G & _). rewrite G. exact (Hstill _ (Hu k q I)).
  - intros k p' HIn. rewrite E in HIn. apply in_app_iff in HIn.
    destruct HIn as [HIn|[HIn|[]]]; [exact (Hstill _ (Hu k p' HIn))|].
    injection HIn as _ <-. exact (Hstill _ Hgame).
Qed.

(** *** Rows and their authors *)

Lemma getPlayer_of_session (s : MemStorage) (sid : string) (p : Player.t) :
  wf_store s ->
  Storage.getPlayerBySessionId sid s = Some p ->
  Storage.getPlayer (Player.id p) s = Some p.
Proof.
  intros (_ & Hp & _) H. unfold Storage.getPlayerBySessionId in H.
  apply find_some in H. destruct H as [HIn _].
  unfold JsMap.values in HIn. apply in_map_iff in HIn. destruct HIn as ([k q] & E & HIn).
  simpl in E. subst q. destruct (proj2 Hp k p HIn) as [Hid _]. rewrite Hid.
  exact (In_get Z Player.t Z.eqb Z.eqb_eq k p _ (proj1 Hp) HIn).
Qed.

Lemma authored_kept (s s' : MemStorage) (pid r : Z) :
  (forall p, Storage.getPlayer pid s = Some p ->
             exists p', Storage.getPlayer pid s' = Some p' /\ player_kept p p') ->
  authored s pid r -> authored s' pid r.
Proof.
  intros H (Hr & p & Hp & Hs). split; [exact Hr|].
  destruct (H p Hp) as (p' & Hp' & K). exists p'. split; [exact Hp'|].
  rewrite (player_kept_spectator p p' K). exact Hs.
Qed.

Lemma rows_authored_write (s s' : MemStorage) :
  wf_store s -> rows_authored s -> Write s s' -> rows_authored s'.
Proof.
  intros Hwf [Hd Hv] Hw.
  assert (Hsame : forall s1, st_players s1 = st_players s ->
                  forall pid r, authored s pid r -> authored s1 pid r).
  { intros s1 E pid r. apply authored_kept. intros p Hp. exists p.
    unfold Storage.getPlayer in *. rewrite E. split; [exact Hp|apply player_kept_refl]. }
  destruct Hw as [g game0 game1 Hg Hk|g sid p rnd game0 Hg Hn|pid n pl Hp Hs Hn
                 |id s' Hr|g sid pl r text c Hp Hs Hr Hdup|g sid pl r d Hp Hs Hr Hdup|g r].
  - split; intros k x HIn; apply Hsame; try reflexivity; [exact (Hd k x HIn)|exact (Hv k x HIn)].
  - assert (Hkeep : forall pid r, authored s pid r ->
              authored (snd (Storage.createPlayer
                               (join_insert g sid p rnd (Storage.getPlayersByGameId g s)) s))
                pid r).
    { intros pid r. apply authored_kept. intros q Hq. exists q.
      unfold Storage.getPlayer. cbn [Storage.createPlayer snd st_players]. rewrite zget_set.
      destruct (stored_below_counter s pid q Hwf Hq) as [Hlt _].
      destruct (Z.eqb_spec pid (playerIdCounter s)); [lia|].
      split; [exact Hq|apply player_kept_refl]. }
    split; intros k x HIn; apply Hkeep; [exact (Hd k x HIn)|exact (Hv k x HIn)].
  - assert (Hkeep : forall pid0 r, authored s pid0 r ->
              authored (Storage.set_players s
                          (JsMap.set Z.eqb pid
                             (Player.with_score pl (Player.score pl + n)) (st_players s)))
                pid0 r).
    { intros pid0 r. apply authored_kept. intros q Hq.
      unfold Storage.getPlayer. cbn [Storage.set_players st_players]. rewrite zget_set.
      destruct (Z.eqb_spec pid0 pid) as [->|_].
      - rewrite Hp in Hq. injection Hq as <-.
        eexists. split; [reflexivity|exact (player_kept_score pl n Hn)].
      - exists q. split; [exact Hq|apply player_kept_refl]. }
    split; intros k x HIn; apply Hkeep; [exact (Hd k x HIn)|exact (Hv k x HIn)].
  - destruct (removePlayer_inv id s s' Hr) as (q & Hq & _).
    rewrite (removePlayer_cascade id s q Hwf Hq) in Hr. injection Hr as <-.
    assert (Hkeep : forall pid r s1, st_players s1 = JsMap.delete Z.eqb id (st_players s) ->
              pid <> id -> authored s pid r -> authored s1 pid r).
    { intros pid r s1 E Hne. apply authored_kept. intros x Hx. exists x.
      unfold Storage.getPlayer in *. rewrite E, zget_delete.
      destruct (Z.eqb_spec pid id); [contradiction|].
      split; [exact Hx|apply player_kept_refl]. }
    split; intros k x HIn; cbn [st_definitions st_votes] in HIn;
      apply filter_In in HIn; destruct HIn as [HIn Hne]; simpl in Hne;
      apply negb_true_iff, Z.eqb_neq in Hne;
      (apply Hkeep; [reflexivity|exact Hne|]); [exact (Hd k x HIn)|exact (Hv k x HIn)].
  - split; intros k x HIn.
    + cbn [Storage.createDefinition snd st_definitions] in HIn.
      apply In_set in HIn. destruct HIn as [E|HIn].
      * injection E as _ ->. apply Hsame; [reflexivity|].
        cbn [Definition_.playerId Definition_.round InsertDefinition.playerId
             InsertDefinition.round Js.nullish].
        split; [exact Hr|]. exists pl.
        split; [exact (getPlayer_of_session s sid pl Hwf Hp)|exact Hs].
      * apply Hsame; [reflexivity|exact (Hd k x HIn)].
    + apply Hsame; [reflexivity|exact (Hv k x HIn)].
  - split; intros k x HIn.
    + apply Hsame; [reflexivity|exact (Hd k x HIn)].
    + cbn [Storage.createVote snd st_votes] in HIn.
      apply In_set in HIn. destruct HIn as [E|HIn].
      * injection E as _ ->. apply Hsame; [reflexivity|].
        cbn [Vote.playerId Vote.round InsertVote.playerId InsertVote.round].
        split.
        -- unfold Js.or_one. destruct (Z.eqb_spec r 0); [contradiction|exact Hr].
        -- exists pl. split; [exact (getPlayer_of_session s sid pl Hwf Hp)|exact Hs].
      * apply Hsame; [reflexivity|exact (Hv k x HIn)].
  - unfold Storage.clearDefinitionsAndVotesByRound.
    split; intros k x HIn; cbn [st_definitions st_votes Storage.set_votes
                                Storage.set_definitions] in HIn;
      apply In_delete_all in HIn; destruct HIn as [HIn _];
      (apply Hsame; [reflexivity|]); [exact (Hd k x HIn)|exact (Hv k x HIn)].
Qed.

(** *** All of it, along any list of writes *)

Lemma rows_kept_writes (s s' : MemStorage) :
  wf_store s -> Writes s s' ->
  (unique_sessions s -> unique_sessions s')
  /\ (one_admin s -> one_admin s')
  /\ (players_in_games s -> players_in_games s')
  /\ (rows_authored s -> rows_authored s').
Proof.
  intros Hwf H. induction H as [|s1 s2 H1 IH Hw]; [tauto|].
  pose proof (wf_store_steps s s1 Hwf (Writes_Steps s s1 H1)) as Hwf1.
  destruct IH as (A & B & C & D).
  split; [|split; [|split]]; intros H.
  - exact (unique_sessions_write s1 s2 Hwf1 (A H) Hw).
  - exact (one_admin_write s1 s2 Hwf1 (B H) Hw).
  - exact (players_in_games_write s1 s2 Hwf1 (C H) Hw).
  - exact (rows_authored_write s1 s2 Hwf1 (D H) Hw).
Qed.

(** ** The scenario satisfies the invariants *)

Lemma flags_agree_no_players (s : MemStorage) : st_players s = [] -> flags_agree s.
Proof. intros H k p HIn. rewrite H in HIn. contradiction. Qed.

Lemma once_per_round_no_rows (s : MemStorage) :
  st_definitions s = [] -> st_votes s = [] -> once_per_round s.
Proof.
  intros Hd Hv g r pid.
  unfold definitions_of, votes_of, Storage.getDefinitionsByGameId, Storage.getVotesByGameId.
  rewrite Hd, Hv. simpl. lia.
Qed.

Lemma store0_wf : wf_store Scenario.store0.
Proof. apply wf_store_createGame, wf_store_empty. Qed.

Lemma voted_is_a_run :
  Scenario.voted
  = run (boot Scenario.store0) (Scenario.arrivals ++ Scenario.writing ++ Scenario.ballots).
Proof. vm_compute. reflexivity. Qed.

Lemma voted_steps : Steps Scenario.store0 (storage (world Scenario.voted)).
Proof. rewrite voted_is_a_run. exact (run_steps _ (boot Scenario.store0)). Qed.

Lemma voted_wf : wf_store (storage (world Scenario.voted)).
Proof. exact (wf_store_steps _ _ store0_wf voted_steps). Qed.

Lemma voted_flags_agree : flags_agree (storage (world Scenario.voted)).
Proof.
  exact (flags_agree_steps _ _ (flags_agree_no_players Scenario.store0 eq_refl) voted_steps).
Qed.

Lemma voted_once_per_round : once_per_round (storage (world Scenario.voted)).
Proof.
  exact (once_per_round_steps _ _
           (once_per_round_no_rows Scenario.store0 eq_refl eq_refl) voted_steps).
Qed.

Lemma one_joined_wf : wf_store (storage (world Scenario2.one_joined)).
Proof.
  assert (E : Scenario2.one_joined
              = run (boot Scenario2.store2)
                  [Connect 1; Message 1 11 (Scenario.join_as "s1" 1 None)])
    by (vm_compute; reflexivity).
  rewrite E.
  refine (wf_store_steps _ _ _ (run_steps _ (boot Scenario2.store2))).
  apply wf_store_createGame, store0_wf.
Qed.

(** The three invariants hold in every state the server reaches from a
    storage that has them. *)
Lemma run_keeps_invariants (sv : Server) (es : list Event) :
  wf_store (storage (world sv)) /\ flags_agree (storage (world sv))
  /\ once_per_round (storage (world sv)) ->
  wf_store (storage (world (run sv es))) /\ flags_agree (storage (world (run sv es)))
  /\ once_per_round (storage (world (run sv es))).
Proof.
  intros (Hw & Hf & Ho). pose proof (run_steps es sv) as H.
  split; [exact (wf_store_steps _ _ Hw H)|].
  split; [exact (flags_agree_steps _ _ Hf H)|exact (once_per_round_steps _ _ Ho H)].
Qed.

(** ** Concrete runs *)

Example trim_removes_outer_space :
  Js.trim "  zyzzyva  " = "zyzzyva"%string
  /\ valid_word (Some "   "%string) = None
  /\ valid_word (Some EmptyString) = None
  /\ valid_word None = None
  /\ valid_word (Some " a b "%string) = Some " a b "%string.
Proof. vm_compute. repeat split. Qed.

(** The scenario of the specification: D1 (incorrect, by player 1) has
    three votes, D2 (correct) has the votes of players 2 and 3. *)
Example scoring_scenario :
  Scenario.scores Scenario.voted
  = [(1, 0); (2, 0); (3, 0); (4, 0); (5, 0); (6, 0); (7, 0); (8, 0)]
  /\ Scenario.scores Scenario.results
     = [(1, 3); (2, 2); (3, 2); (4, 0); (5, 0); (6, 0); (7, 0); (8, 0)].
Proof. vm_compute. split; reflexivity. Qed.

(** A broadcast to the room of game 1 while socket 3 is closing and the
    session of socket 5 has lost its player: six frames, none for 3 or 5. *)
Example broadcast_skips_dead_sockets :
  let w := world Scenario.voted in
  let w1 := mkWorld (Storage.set_players (storage w) (JsMap.delete Z.eqb 5 (st_players (storage w))))
              (connections w) (gameRooms w) [3] (sent w) in
  List.length (room_of 1 w1) = 8%nat
  /\ map fst (frames w1 (mkGameState (Game.mk 1 "ABC123" 3 None true "2025-01-01" 1) [] [] [])
                (room_of 1 w1))
     = [1; 2; 4; 6; 7; 8].
Proof. vm_compute. split; reflexivity. Qed.


(* ------------------------------------------------------------------ *)

(** * Main results



    Each theorem is followed by its run on the scenario; where the code

    departs from the specification, by the run that shows it. *)



(** C2, as the code has it.  On a joined connection whose session resolves
    to a non-spectator, for an existing game, each phase command sets the
    phase to its target whatever phase the game is in: [submitWord] with a
    non-blank word sets 2 (Definition), [endSubmissions] sets 3 (Voting),
    [endVoting] sets 4 (Results) and [newRound] sets 1 (WordEntry).  No
    hypothesis constrains [Game.phase game0]: the handler never reads it. *)
Theorem phase_commands_ignore_current_phase (ws randomId : Z) (cv : ConnVars)
    (payload : option Payload.t) (w : World) (gameId : Z) (sessionId : string)
    (sender : Player.t) (game0 : Game.t) :
  joined cv = Some (gameId, sessionId) ->
  Storage.getPlayerBySessionId sessionId (storage w) = Some sender ->
  is_spectator sender = false ->
  Storage.getGame gameId (storage w) = Some game0 ->
  let phase_after type :=
    option_map Game.phase
      (Storage.getGame gameId
         (storage (snd (on_message ws randomId cv (Envelope type payload) w)))) in
  (forall p word,
      payload = Some p -> valid_word (Payload.word p) = Some word ->
      phase_after "submitWord"%string = Some 2)
  /\ phase_after "endSubmissions"%string = Some 3
  /\ phase_after "endVoting"%string = Some 4
  /\ phase_after "newRound"%string = Some 1.
Proof.
  intros Hj Hs Hn Hg phase_after. unfold phase_after.
  split; [|split; [|split]].
  - intros p word -> Hw.
    rewrite (on_message_joined ws randomId cv "submitWord" (Some p) w gameId sessionId Hj);
      [|discriminate].
    cbn [classify case_body String.eqb Ascii.eqb Bool.eqb].
    destruct (submitWord_accepted ws gameId sessionId p w sender game0 word Hs Hn Hw Hg)
      as (fs & Hrun).
    unfold try_catch. rewrite Hrun. cbn [storage add_sent set_storage].
    rewrite getGame_written. reflexivity.
  - rewrite (on_message_joined ws randomId cv "endSubmissions" payload w gameId sessionId Hj);
      [|discriminate].
    cbn [classify case_body String.eqb Ascii.eqb Bool.eqb].
    rewrite (endSubmissions_storage ws gameId sessionId payload w sender game0 Hs Hn Hg).
    rewrite getGame_written. reflexivity.
  - rewrite (on_message_joined ws randomId cv "endVoting" payload w gameId sessionId Hj);
      [|discriminate].
    cbn [classify case_body String.eqb Ascii.eqb Bool.eqb].
    rewrite (endVoting_phase ws gameId sessionId payload w sender game0 Hs Hn Hg).
    reflexivity.
  - rewrite (on_message_joined ws randomId cv "newRound" payload w gameId sessionId Hj);
      [|discriminate].
    cbn [classify case_body String.eqb Ascii.eqb Bool.eqb].
    destruct (newRound_accepted ws gameId sessionId w sender game0 Hs Hn Hg) as (fs & Hrun).
    unfold try_catch. rewrite Hrun. cbn [storage add_sent set_storage].
    rewrite getGame_written. reflexivity.
Qed.

(** C2 fails as stated: with the game in phase 3 (Voting), a [submitWord]
    from player 1 moves it to phase 2 (Definition), and a [newRound] moves
    it to phase 1 (WordEntry) although the game is not in Results. *)
Lemma submitWord_leaves_voting_phase :
  let w := world Scenario.voted in
  let cv := mkConn (Some "s1"%string) (Some 1) in
  let phase_of w' := option_map Game.phase (Storage.getGame 1 (storage w')) in
  phase_of w = Some 3
  /\ phase_of (snd (on_message 1 0 cv (Scenario.word "quokka") w)) = Some 2
  /\ phase_of (snd (on_message 1 0 cv (Scenario.control "newRound" 1) w)) = Some 1.
Proof. vm_compute. repeat split. Qed.

(** On the scenario, with the game in phase 3. *)
Lemma phase_commands_ignore_current_phase_witness :
  option_map Game.phase (Storage.getGame 1 (storage (world Scenario.voted))) = Some 3
  /\ option_map Game.phase
       (Storage.getGame 1
          (storage (snd (on_message 1 0 (mkConn (Some "s1"%string) (Some 1))
                           (Scenario.word "quokka") (world Scenario.voted)))))
     = Some 2
  /\ option_map Game.phase
       (Storage.getGame 1
          (storage (snd (on_message 1 0 (mkConn (Some "s1"%string) (Some 1))
                           (Envelope "newRound"
                              (Some (Payload.mk None (Some 1) None None None
                                       (Some "quokka"%string) None None None None)))
                           (world Scenario.voted)))))
     = Some 1.
Proof.
  pose proof (phase_commands_ignore_current_phase 1 0 (mkConn (Some "s1"%string) (Some 1))
                (Some (Payload.mk None (Some 1) None None None
                         (Some "quokka"%string) None None None None))
                (world Scenario.voted) 1 "s1"%string
                (Player.mk 1 1 "Player 11" "s1" "player" true false 0)
                (Game.mk 1 "ABC123" 3 (Some "zyzzyva"%string) true "2025-01-01" 1)
                eq_refl eq_refl eq_refl eq_refl) as H.
  split; [reflexivity|]. split.
  - exact (proj1 H _ "quokka"%string eq_refl eq_refl).
  - exact (proj2 (proj2 (proj2 H))).
Defined.

(** C3 fails on the code: [submitDefinition] never looks at [text].  After
    the word is in, player 2 sends a definition made of three spaces: it is
    stored as definition 1 of the round, and every frame sent in answer is a
    [gameState]; the sender gets no error. *)
Lemma blank_definition_is_stored :
  let w := world (run Scenario.lobby [Message 1 0 (Scenario.word "zyzzyva")]) in
  let w' := snd (on_message 2 0 (mkConn (Some "s2"%string) (Some 1))
                   (Scenario.definition "   " false 1) w) in
  Js.trim "   " = EmptyString
  /\ Storage.getDefinitionsByGameId 1 1 (storage w) = []
  /\ Storage.getDefinitionsByGameId 1 1 (storage w')
     = [Definition_.mk 1 1 2 1 (Some "   "%string) false]
  /\ forallb (fun f => match snd f with ErrorMsg _ => false | GameStateMsg _ _ => true end)
       (skipn (List.length (sent w)) (sent w')) = true
  /\ existsb (fun f => fst f =? 2) (skipn (List.length (sent w)) (sent w')) = true.
Proof. vm_compute. repeat split. Qed.

(** C4, as the code has it.  [submitVote] from a known non-spectator who
    has not voted in the round, for an existing game, stores a vote that
    carries the payload's [definitionId], whatever it is: no hypothesis says
    that a definition with that id exists.  The vote gets the next vote id
    and the round of the command, and every frame sent in answer is a
    [gameState]. *)
Theorem submitVote_stores_any_definitionId (ws randomId : Z) (cv : ConnVars)
    (p : Payload.t) (w : World) (gameId : Z) (sessionId : string)
    (sender : Player.t) (game0 : Game.t) :
  joined cv = Some (gameId, sessionId) ->
  Storage.getPlayerBySessionId sessionId (storage w) = Some sender ->
  is_spectator sender = false ->
  Storage.getGame gameId (storage w) = Some game0 ->
  existsb (fun vote => Vote.playerId vote =? Player.id sender)
    (Storage.getVotesByGameId gameId (Js.or_one (Payload.round p)) (storage w)) = false ->
  let w' := snd (on_message ws randomId cv (Envelope "submitVote" (Some p)) w) in
  let stored :=
    Vote.mk (voteIdCounter (storage w)) gameId (Player.id sender) (Payload.definitionId p)
      (Js.or_one (Payload.round p)) in
  st_votes (storage w') = JsMap.set Z.eqb (voteIdCounter (storage w)) stored (st_votes (storage w))
  /\ Storage.getVotesByGameId gameId (Js.or_one (Payload.round p)) (storage w') <> []
  /\ exists fs, sent w' = sent w ++ fs
                /\ Forall (fun f => exists gs q, snd f = GameStateMsg gs q) fs.
Proof.
  intros Hj Hs Hn Hg Hnew w' stored.
  assert (Ew : exists fs,
             w' = add_sent
                    (set_storage w
                       (snd (Storage.createVote
                               (InsertVote.mk gameId (Player.id sender) (Payload.definitionId p)
                                  (Some (Js.or_one (Payload.round p))))
                               (storage w)))) fs
             /\ Forall (fun f => exists gs q, snd f = GameStateMsg gs q) fs).
  { unfold w'.
    rewrite (on_message_joined ws randomId cv "submitVote" (Some p) w gameId sessionId Hj);
      [|discriminate].
    cbn [classify case_body String.eqb Ascii.eqb Bool.eqb].
    destruct (submitVote_accepted ws gameId sessionId p w sender game0 Hs Hn Hnew Hg)
      as (fs & Hrun & Hfs).
    unfold try_catch. rewrite Hrun. exists fs. split; [reflexivity|exact Hfs]. }
  destruct Ew as (fs & -> & Hfs).
  cbn [storage add_sent set_storage sent Storage.createVote snd st_votes
       InsertVote.gameId InsertVote.playerId InsertVote.definitionId InsertVote.round].
  rewrite or_one_again. fold stored.
  split; [reflexivity|]. split; [|exists fs; split; [reflexivity|exact Hfs]].
  unfold Storage.getVotesByGameId. cbn [st_votes].
  intros Hnil.
  assert (HIn : In stored (filter
                  (fun vote => (Vote.gameId vote =? gameId)
                               && (Vote.round vote =? Js.or_one (Payload.round p)))
                  (JsMap.values (JsMap.set Z.eqb (voteIdCounter (storage w)) stored
                                   (st_votes (storage w)))))).
  { apply filter_In. split.
    - unfold JsMap.values. change stored with (snd (voteIdCounter (storage w), stored)).
      apply in_map. apply (get_In Z Vote.t Z.eqb Z.eqb_eq).
      rewrite zget_set, Z.eqb_refl. reflexivity.
    - unfold stored; simpl. rewrite !Z.eqb_refl. reflexivity. }
  rewrite Hnil in HIn. exact HIn.
Qed.

(** C4 fails as stated: player 7 votes for definition 999, which does not
    exist; the vote is stored with that [definitionId] and no error is
    sent. *)
Lemma vote_for_missing_definition_is_stored :
  let w := world Scenario.voted in
  let w' := snd (on_message 7 0 (mkConn (Some "s7"%string) (Some 1)) (Scenario.vote 999 1) w) in
  existsb (fun d => Definition_.id d =? 999) (JsMap.values (st_definitions (storage w))) = false
  /\ JsMap.get Z.eqb 6 (st_votes (storage w)) = None
  /\ JsMap.get Z.eqb 6 (st_votes (storage w')) = Some (Vote.mk 6 1 7 (Some 999) 1)
  /\ forallb (fun f => match snd f with ErrorMsg _ => false | GameStateMsg _ _ => true end)
       (skipn (List.length (sent w)) (sent w')) = true.
Proof. vm_compute. repeat split. Qed.

(** On the scenario: the vote of player 7 for definition 999. *)
Lemma submitVote_stores_any_definitionId_witness :
  st_votes (storage (snd (on_message 7 0 (mkConn (Some "s7"%string) (Some 1))
                            (Scenario.vote 999 1) (world Scenario.voted))))
  = JsMap.set Z.eqb 6 (Vote.mk 6 1 7 (Some 999) 1) (st_votes (storage (world Scenario.voted))).
Proof.
  exact (proj1 (submitVote_stores_any_definitionId 7 0 (mkConn (Some "s7"%string) (Some 1))
                  (Payload.mk None (Some 1) None None (Some 1) None None None (Some 999) None)
                  (world Scenario.voted) 1 "s7"%string
                  (Player.mk 7 1 "Player 17" "s7" "player" false false 0)
                  (Game.mk 1 "ABC123" 3 (Some "zyzzyva"%string) true "2025-01-01" 1)
                  eq_refl eq_refl eq_refl eq_refl eq_refl)).
Defined.

(** C5.  On a joined connection whose session resolves to [sender]:
    if a definition by [sender] is already stored for the game and the round
    the command names, [submitDefinition] only answers the sender with an
    error (the duplicate notice, or the spectator notice for a spectator) and
    leaves the whole world, storage included, as it was; the same holds for
    [submitVote] and a stored vote.  And whatever events follow, a storage with
    at most one definition and at most one vote per game, round and player
    stays so. *)
Theorem second_submission_is_rejected (sv : Server) (ws randomId : Z) (cv : ConnVars)
    (p : Payload.t) (gameId : Z) (sessionId : string) (sender : Player.t) :
  joined cv = Some (gameId, sessionId) ->
  Storage.getPlayerBySessionId sessionId (storage (world sv)) = Some sender ->
  let w := world sv in
  let round := Js.or_one (Payload.round p) in
  (forall d,
      In d (Storage.getDefinitionsByGameId gameId round (storage w)) ->
      Definition_.playerId d = Player.id sender ->
      snd (on_message ws randomId cv (Envelope "submitDefinition" (Some p)) w)
      = push_sent w
          (ws, ErrorMsg (if is_spectator sender
                         then "Spectators cannot submit definitions."
                         else "You have already submitted a definition for this round.")))
  /\ (forall v,
         In v (Storage.getVotesByGameId gameId round (storage w)) ->
         Vote.playerId v = Player.id sender ->
         snd (on_message ws randomId cv (Envelope "submitVote" (Some p)) w)
         = push_sent w
             (ws, ErrorMsg (if is_spectator sender
                            then "Spectators cannot vote."
                            else "You have already voted for this round.")))
  /\ (once_per_round (storage w) ->
      forall es, once_per_round (storage (world (run sv es)))).
Proof.
  intros Hj Hs w round. split; [|split].
  - intros d HIn Hd. unfold w.
    rewrite (on_message_joined ws randomId cv "submitDefinition" (Some p) (world sv)
               gameId sessionId Hj); [|discriminate].
    cbn [classify case_body String.eqb Ascii.eqb Bool.eqb]. unfold try_catch.
    rewrite (submitDefinition_duplicate ws gameId sessionId p (world sv) sender d Hs HIn Hd).
    reflexivity.
  - intros v HIn Hv. unfold w.
    rewrite (on_message_joined ws randomId cv "submitVote" (Some p) (world sv)
               gameId sessionId Hj); [|discriminate].
    cbn [classify case_body String.eqb Ascii.eqb Bool.eqb]. unfold try_catch.
    rewrite (submitVote_duplicate ws gameId sessionId p (world sv) sender v Hs HIn Hv).
    reflexivity.
  - intros Ho es. exact (once_per_round_steps _ _ Ho (run_steps es sv)).
Qed.

(** On the scenario: player 1 already wrote a definition, player 4 already
    voted; both get the duplicate notice, and the storage keeps one row per
    player and round whatever follows. *)
Lemma second_submission_is_rejected_witness :
  snd (on_message 1 0 (mkConn (Some "s1"%string) (Some 1))
         (Envelope "submitDefinition"
            (Some (Payload.mk None (Some 1) None None (Some 1) None
                     (Some "another try"%string) None None None)))
         (world Scenario.voted))
  = push_sent (world Scenario.voted)
      (1, ErrorMsg "You have already submitted a definition for this round.")
  /\ snd (on_message 4 0 (mkConn (Some "s4"%string) (Some 1))
            (Envelope "submitVote"
               (Some (Payload.mk None (Some 1) None None (Some 1) None None None
                        (Some 2) None)))
            (world Scenario.voted))
     = push_sent (world Scenario.voted) (4, ErrorMsg "You have already voted for this round.")
  /\ forall es, once_per_round (storage (world (run Scenario.voted es))).
Proof.
  split; [|split].
  - refine (proj1 (second_submission_is_rejected Scenario.voted 1 0
                     (mkConn (Some "s1"%string) (Some 1))
                     (Payload.mk None (Some 1) None None (Some 1) None
                        (Some "another try"%string) None None None)
                     1 "s1"%string (Player.mk 1 1 "Player 11" "s1" "player" true false 0)
                     eq_refl eq_refl)
                  (Definition_.mk 1 1 1 1 (Some "a kind of weevil, honest"%string) false) _ eq_refl).
    vm_compute. left. reflexivity.
  - refine (proj1 (proj2 (second_submission_is_rejected Scenario.voted 4 0
                     (mkConn (Some "s4"%string) (Some 1))
                     (Payload.mk None (Some 1) None None (Some 1) None None None (Some 2) None)
                     1 "s4"%string (Player.mk 4 1 "Player 14" "s4" "player" false false 0)
                     eq_refl eq_refl))
                  (Vote.mk 1 1 4 (Some 1) 1) _ eq_refl).
    vm_compute. left. reflexivity.
  - exact (proj2 (proj2 (second_submission_is_rejected Scenario.voted 1 0
                     (mkConn (Some "s1"%string) (Some 1)) Payload.empty
                     1 "s1"%string (Player.mk 1 1 "Player 11" "s1" "player" true false 0)
                     eq_refl eq_refl)) voted_once_per_round).
Defined.

(** C6.  On a joined connection whose session resolves to [sender], for an
    existing game [game0]:
    - [cancelRound] from a non-admin only answers the sender with an error;
    - [cancelRound] from an admin stores the game with phase 1 (WordEntry),
      an empty [currentWord] and the same [currentRound], and afterwards the
      round-scoped queries for the cancelled round, [currentRound || 1] (which
      is [currentRound] unless that is 0), return no definition and no vote;
    - [newRound] from a non-spectator stores the game with phase 1, an empty
      [currentWord] and [currentRound] raised to [(currentRound || 1) + 1]
      (by exactly 1 unless it was 0), and leaves the definitions and the
      votes of every round as they were. *)
Theorem cancelRound_clears_newRound_keeps (ws randomId : Z) (cv : ConnVars)
    (payload : option Payload.t) (w : World) (gameId : Z) (sessionId : string)
    (sender : Player.t) (game0 : Game.t) :
  joined cv = Some (gameId, sessionId) ->
  Storage.getPlayerBySessionId sessionId (storage w) = Some sender ->
  Storage.getGame gameId (storage w) = Some game0 ->
  let cancelled := snd (on_message ws randomId cv (Envelope "cancelRound" payload) w) in
  let renewed := snd (on_message ws randomId cv (Envelope "newRound" payload) w) in
  (Player.isAdmin sender = false ->
     cancelled = push_sent w (ws, ErrorMsg "Only admins can cancel the current round."))
  /\ (Player.isAdmin sender = true ->
        Storage.getGame gameId (storage cancelled)
        = Some (Game.mk (Game.id game0) (Game.code game0) 1 (Some EmptyString)
                  (Game.dictionary game0) (Game.createdAt game0) (Game.currentRound game0))
        /\ Storage.getDefinitionsByGameId gameId (Storage.round_of game0) (storage cancelled) = []
        /\ Storage.getVotesByGameId gameId (Storage.round_of game0) (storage cancelled) = []
        /\ (Game.currentRound game0 <> 0 ->
              Storage.getDefinitionsByGameId gameId (Game.currentRound game0) (storage cancelled) = []
              /\ Storage.getVotesByGameId gameId (Game.currentRound game0) (storage cancelled) = []))
  /\ (is_spectator sender = false ->
        Storage.getGame gameId (storage renewed)
        = Some (Game.mk (Game.id game0) (Game.code game0) 1 (Some EmptyString)
                  (Game.dictionary game0) (Game.createdAt game0) (Storage.round_of game0 + 1))
        /\ (Game.currentRound game0 <> 0 ->
              option_map Game.currentRound (Storage.getGame gameId (storage renewed))
              = Some (Game.currentRound game0 + 1))
        /\ st_definitions (storage renewed) = st_definitions (storage w)
        /\ st_votes (storage renewed) = st_votes (storage w)).
Proof.
  intros Hj Hs Hg cancelled renewed.
  assert (Ec : cancelled = try_catch ws (cancelRound ws gameId sessionId) w).
  { unfold cancelled.
    rewrite (on_message_joined ws randomId cv "cancelRound" payload w gameId sessionId Hj);
      [reflexivity|discriminate]. }
  assert (En : renewed = try_catch ws (newRound ws gameId sessionId) w).
  { unfold renewed.
    rewrite (on_message_joined ws randomId cv "newRound" payload w gameId sessionId Hj);
      [reflexivity|discriminate]. }
  split; [|split].
  - intros Ha. rewrite Ec. unfold try_catch.
    rewrite (cancelRound_by_other ws gameId sessionId w sender Hs Ha). reflexivity.
  - intros Ha.
    destruct (cancelRound_by_admin ws gameId sessionId w sender game0 Hs Ha Hg)
      as (s' & fs & Hrun & Hop).
    destruct (cancelRound_run gameId (storage w) game0 Hg) as (s1 & Hc & Hg' & Hd & Hv & _).
    rewrite Hop in Hc. injection Hc as <-.
    rewrite Ec. unfold try_catch. rewrite Hrun. cbn [storage add_sent set_storage].
    split; [exact Hg'|]. split; [exact Hd|]. split; [exact Hv|].
    intros Hr. rewrite <- (round_of_nonzero game0 Hr). split; assumption.
  - intros Hn.
    destruct (newRound_accepted ws gameId sessionId w sender game0 Hs Hn Hg) as (fs & Hrun).
    rewrite En. unfold try_catch. rewrite Hrun. cbn [storage add_sent set_storage].
    unfold Storage.getGame. cbn [st_games st_definitions st_votes Storage.set_games].
    rewrite zget_set, Z.eqb_refl. split; [reflexivity|]. split; [|split; reflexivity].
    intros Hr. cbn [option_map reset_game Game.currentRound].
    rewrite (round_of_nonzero game0 Hr). reflexivity.
Qed.

(** On the scenario: the admin, player 1, cancels round 1, or starts
    round 2 instead. *)
Lemma cancelRound_clears_newRound_keeps_witness :
  let cv := mkConn (Some "s1"%string) (Some 1) in
  let cancelled :=
    snd (on_message 1 0 cv (Envelope "cancelRound" (Some Payload.empty)) (world Scenario.voted)) in
  let renewed :=
    snd (on_message 1 0 cv (Envelope "newRound" (Some Payload.empty)) (world Scenario.voted)) in
  (Storage.getGame 1 (storage cancelled)
   = Some (Game.mk 1 "ABC123" 1 (Some EmptyString) true "2025-01-01" 1)
   /\ Storage.getDefinitionsByGameId 1 1 (storage cancelled) = []
   /\ Storage.getVotesByGameId 1 1 (storage cancelled) = [])
  /\ (Storage.getGame 1 (storage renewed)
      = Some (Game.mk 1 "ABC123" 1 (Some EmptyString) true "2025-01-01" 2)
      /\ st_definitions (storage renewed) = st_definitions (storage (world Scenario.voted))
      /\ st_votes (storage renewed) = st_votes (storage (world Scenario.voted))).
Proof.
  pose proof (cancelRound_clears_newRound_keeps 1 0 (mkConn (Some "s1"%string) (Some 1))
                (Some Payload.empty) (world Scenario.voted) 1 "s1"%string
                (Player.mk 1 1 "Player 11" "s1" "player" true false 0)
                (Game.mk 1 "ABC123" 3 (Some "zyzzyva"%string) true "2025-01-01" 1)
                eq_refl eq_refl eq_refl) as H.
  destruct H as (_ & Hc & Hn).
  destruct (Hc eq_refl) as (Hg & Hd & Hv & _).
  destruct (Hn eq_refl) as (Hg' & _ & Hd' & Hv').
  split; [split; [exact Hg|split; [exact Hd|exact Hv]]|].
  split; [exact Hg'|split; [exact Hd'|exact Hv']].
Defined.

(** C7, as the code has it.  A [join] that names an existing game looks the
    session id up among the players of all games.  If some player has it,
    the storage is left as it was.  If none has it, exactly one player is
    appended, with the next player id, the game and the session of the
    command and score 0, and it is admin exactly when the game has no stored
    player at that moment. *)
Theorem join_creates_player_for_unknown_session (ws randomId : Z) (cv : ConnVars)
    (p : Payload.t) (w : World) (gameId : Z) (sessionId : string) (game0 : Game.t) :
  Js.truthy_num (Payload.gameId p) = Some gameId ->
  Js.truthy_str (Payload.sessionId p) = Some sessionId ->
  Storage.getGame gameId (storage w) = Some game0 ->
  wf_store (storage w) ->
  let s := storage w in
  let s' := storage (snd (on_message ws randomId cv (Envelope "join" (Some p)) w)) in
  (forall existing, Storage.getPlayerBySessionId sessionId s = Some existing -> s' = s)
  /\ (Storage.getPlayerBySessionId sessionId s = None ->
      exists created,
        st_players s' = st_players s ++ [(playerIdCounter s, created)]
        /\ Player.id created = playerIdCounter s
        /\ Player.gameId created = gameId
        /\ Player.sessionId created = sessionId
        /\ Player.score created = 0
        /\ Player.isAdmin created
           = (List.length (Storage.getPlayersByGameId gameId s) =? 0)%nat).
Proof.
  intros Hg Hs Hgame Hwf s s'.
  assert (Es : s' = join_storage gameId sessionId p randomId s).
  { unfold s'. rewrite on_message_join.
    destruct (join_existing_game ws randomId p w gameId sessionId game0 Hg Hs Hgame)
      as (w' & Hrun & Hst).
    unfold try_catch. rewrite Hrun. exact Hst. }
  split.
  - intros existing He. rewrite Es. unfold join_storage. rewrite He. reflexivity.
  - intros Hnone. rewrite Es. unfold join_storage. rewrite Hnone.
    exists (fst (Storage.createPlayer
                   (join_insert gameId sessionId p randomId
                      (Storage.getPlayersByGameId gameId s)) s)).
    cbn [Storage.createPlayer fst snd st_players].
    split; [|split; [|split; [|split; [|split]]]]; try reflexivity.
    apply (set_absent Z Player.t Z.eqb).
    destruct Hwf as (_ & Hp & _).
    exact (keyed_counter_absent Player.t Player.id _ _ Hp).
Qed.

(** C7 fails as stated: session [s1] has a player in game 1 and none in
    game 2; when it joins game 2, which exists, no player is created. *)
Lemma join_other_game_creates_no_player :
  let w := world Scenario2.one_joined in
  let w' := snd (on_message 9 0 (mkConn None None) (Scenario.join_as "s1" 2 None) w) in
  option_map Game.id (Storage.getGame 2 (storage w)) = Some 2
  /\ Storage.getPlayersByGameId 2 (storage w) = []
  /\ st_players (storage w') = st_players (storage w)
  /\ Storage.getPlayersByGameId 2 (storage w') = [].
Proof. vm_compute. repeat split. Qed.

(** Nor is admin reserved to the first player created for a game: once the
    admin has removed itself, the next player to join is admin too. *)
Example later_joiner_can_be_admin :
  map (fun e => (fst e, Player.isAdmin (snd e)))
    (st_players (storage (world Scenario2.one_joined))) = [(1, true)]
  /\ st_players (storage (world Scenario2.admin_gone)) = []
  /\ map (fun e => (fst e, Player.isAdmin (snd e)))
       (st_players (storage (world Scenario2.second_joined))) = [(2, true)].
Proof. vm_compute. repeat split. Qed.

(** With two games: the session of game 1 joins game 2 and gets no new
    player; a fresh session joins game 2 and becomes its admin. *)
Lemma join_creates_player_for_unknown_session_witness :
  let w := world Scenario2.one_joined in
  let joins sessionId gameId :=
    storage (snd (on_message 9 0 (mkConn None None) (Scenario.join_as sessionId gameId None) w)) in
  joins "s1"%string 2 = storage w
  /\ exists created,
       st_players (joins "s9"%string 2) = st_players (storage w) ++ [(2, created)]
       /\ Player.gameId created = 2
       /\ Player.isAdmin created = true.
Proof.
  split.
  - exact (proj1 (join_creates_player_for_unknown_session 9 0 (mkConn None None)
                    (Payload.mk (Some "s1"%string) (Some 2) None None (Some 1)
                       None None None None None)
                    (world Scenario2.one_joined) 2 "s1"%string
                    (Game.mk 2 "DEF456" 1 (Some EmptyString) true "2025-01-02" 1)
                    eq_refl eq_refl eq_refl one_joined_wf)
             (Player.mk 1 1 "Player 11" "s1" "player" true false 0) eq_refl).
  - destruct (proj2 (join_creates_player_for_unknown_session 9 0 (mkConn None None)
                       (Payload.mk (Some "s9"%string) (Some 2) None None (Some 1)
                          None None None None None)
                       (world Scenario2.one_joined) 2 "s9"%string
                       (Game.mk 2 "DEF456" 1 (Some EmptyString) true "2025-01-02" 1)
                       eq_refl eq_refl eq_refl one_joined_wf) eq_refl)
      as (created & Hp & _ & Hg & _ & _ & Ha).
    exists created. split; [exact Hp|]. split; [exact Hg|exact Ha].
Defined.

(** C8.  In a well-formed storage where the role and the spectator flag
    agree, take a stored player whose role is spectator.  Whatever events
    follow (any message on any socket, any close), the player's record is
    still stored exactly as it was, score included, unless [removePlayer]
    deleted it: no scoring pass and no bonus ever rewrites it.  An
    [endVoting], accepted or not, with or without a payload, leaves the
    record as it was.  And an [awardBonus] on a joined connection that names
    this player is answered with an error to the sender and changes nothing
    else. *)
Theorem spectator_score_is_frozen (sv : Server) (playerId : Z) (spectator : Player.t) :
  wf_store (storage (world sv)) ->
  flags_agree (storage (world sv)) ->
  Storage.getPlayer playerId (storage (world sv)) = Some spectator ->
  Player.role spectator = PlayerRole.SPECTATOR ->
  (forall es,
      Storage.getPlayer playerId (storage (world (run sv es))) = Some spectator
      \/ Storage.getPlayer playerId (storage (world (run sv es))) = None)
  /\ (forall ws randomId cv payload,
         Storage.getPlayer playerId
           (storage (snd (on_message ws randomId cv (Envelope "endVoting" payload) (world sv))))
         = Some spectator)
  /\ (forall ws randomId cv p gameId sessionId,
         joined cv = Some (gameId, sessionId) ->
         Js.truthy_num (Payload.playerId p) = Some playerId ->
         exists message,
           snd (on_message ws randomId cv (Envelope "awardBonus" (Some p)) (world sv))
           = push_sent (world sv) (ws, ErrorMsg message)).
Proof.
  intros Hwf Hfl Hget Hrole.
  assert (HIn : In (playerId, spectator) (st_players (storage (world sv)))).
  { exact (get_In Z Player.t Z.eqb Z.eqb_eq playerId spectator _ Hget). }
  assert (Hsp : Player.isSpectator spectator = true).
  { exact (proj1 (Hfl playerId spectator HIn) Hrole). }
  split; [|split].
  - intros es.
    destruct Hwf as (_ & (_ & Hk) & _).
    refine (proj1 (spectator_steps playerId spectator _ _ (run_steps es sv) Hsp _ _)).
    + exact (proj2 (Hk playerId spectator HIn)).
    + left; exact Hget.
  - intros ws randomId cv payload.
    destruct (joined cv) as [[gameId sessionId]|] eqn:Hj.
    + rewrite (on_message_joined ws randomId cv "endVoting" payload (world sv)
                 gameId sessionId Hj); [|discriminate].
      cbn [classify case_body String.eqb Ascii.eqb Bool.eqb].
      destruct (endVoting_players ws gameId sessionId payload (world sv) playerId)
        as (pts & E).
      rewrite E, Hget. simpl. rewrite (scored_spectator pts spectator Hsp). reflexivity.
    + rewrite (on_message_not_joined ws randomId cv "endVoting" payload (world sv) Hj);
        [exact Hget|discriminate].
  - intros ws randomId cv p gameId sessionId Hj Hp.
    rewrite (on_message_joined ws randomId cv "awardBonus" (Some p) (world sv)
               gameId sessionId Hj); [|discriminate].
    cbn [classify case_body String.eqb Ascii.eqb Bool.eqb].
    unfold try_catch, awardBonus, bind at 1, query at 1.
    destruct (Storage.getPlayerBySessionId sessionId (storage (world sv))) as [adminPlayer|].
    + destruct (Player.isAdmin adminPlayer); cbn [negb].
      * unfold bind at 1, payload_of, ret at 1. rewrite Hp.
        unfold bind at 1, query at 1. rewrite Hget, Hsp. cbn [negb].
        eexists. reflexivity.
      * eexists. reflexivity.
    + eexists. reflexivity.
Qed.

(** On the scenario: player 8 is the spectator. *)
Lemma spectator_score_is_frozen_witness :
  (forall es,
      Storage.getPlayer 8 (storage (world (run Scenario.voted es)))
      = Some (Player.mk 8 1 "Spectator 18" "s8" "spectator" false true 0)
      \/ Storage.getPlayer 8 (storage (world (run Scenario.voted es))) = None)
  /\ exists message,
       snd (on_message 1 0 (mkConn (Some "s1"%string) (Some 1))
              (Scenario.target "awardBonus" 8) (world Scenario.voted))
       = push_sent (world Scenario.voted) (1, ErrorMsg message).
Proof.
  pose proof (spectator_score_is_frozen Scenario.voted 8
                (Player.mk 8 1 "Spectator 18" "s8" "spectator" false true 0)
                voted_wf voted_flags_agree eq_refl eq_refl) as H.
  split; [exact (proj1 H)|].
  exact (proj2 (proj2 H) 1 0 (mkConn (Some "s1"%string) (Some 1))
           (Payload.mk None (Some 1) None None (Some 1) None None None None (Some 8))
           1 "s1"%string eq_refl eq_refl).
Defined.

(** C9.  [broadcastGameState] never throws and changes nothing but the
    frames sent.  It sends exactly one frame per session of the room whose
    socket is registered and [OPEN] and whose session id resolves to a
    player, in room order: a [gameState] frame that carries the one snapshot
    it was given (the same [game], [players], [definitions] and [votes] for
    all) with that session's own player as [currentPlayer].  The other
    sessions of the room get nothing and do not stop the loop. *)
Theorem broadcast_is_personalized (gameId : Z) (gameState : GameState) (w : World) :
  exists fs : list (Z * ServerMsg),
    broadcastGameState gameId gameState w = (Ok tt, add_sent w fs)
    /\ List.length fs = List.length (filter (live w) (room_of gameId w))
    /\ Forall2 (personalized w gameState) (filter (live w) (room_of gameId w)) fs.
Proof.
  exists (frames w gameState (room_of gameId w)).
  pose proof (frames_personalized w gameState (room_of gameId w)) as H.
  split; [apply broadcastGameState_run|]. split; [|exact H].
  symmetry. exact (Forall2_length H).
Qed.

(** On the scenario: the eight sessions of the room of game 1 each get one
    frame with the snapshot and their own record. *)
Lemma broadcast_is_personalized_witness :
  let w := world Scenario.voted in
  exists fs : list (Z * ServerMsg),
    broadcastGameState 1 Scenario.snapshot w = (Ok tt, add_sent w fs)
    /\ Forall2 (personalized w Scenario.snapshot)
         ["s1"; "s2"; "s3"; "s4"; "s5"; "s6"; "s7"; "s8"]%string fs
    /\ map (fun f => (fst f,
                      match snd f with
                      | GameStateMsg _ thisPlayer => Some (Player.id thisPlayer)
                      | ErrorMsg _ => None
                      end)) fs
       = [(1, Some 1); (2, Some 2); (3, Some 3); (4, Some 4);
          (5, Some 5); (6, Some 6); (7, Some 7); (8, Some 8)].
Proof.
  cbv zeta.
  destruct (broadcast_is_personalized 1 Scenario.snapshot (world Scenario.voted))
    as (fs & Hrun & _ & Hall).
  exists fs. split; [exact Hrun|]. split; [exact Hall|].
  rewrite broadcastGameState_run in Hrun.
  apply (f_equal (fun r => sent (snd r))) in Hrun. cbn [snd add_sent sent] in Hrun.
  apply app_inv_head in Hrun. rewrite <- Hrun. reflexivity.
Defined.

(** C10.  In a well-formed storage, [removePlayer id] on a stored player
    succeeds and
    - removes the player row [id] and no other ([getPlayer] answers as
      before for every other id);
    - keeps exactly the definitions whose author is not [id] and exactly the
      votes whose voter is not [id], so every round-scoped vote query returns
      what it returned before minus the votes cast by [id];
    - in particular a vote cast by somebody else for a definition authored
      by [id] is still returned by the vote query of its game and round,
      while no stored definition has the id it refers to: the scoring pass
      counts it for no surviving definition;
    - and afterwards the scoring pass, on the definitions and votes of any
      game and round, returns normally, and so does the whole [endVoting]
      case for a known non-spectator sender and an existing game: nothing
      throws. *)
Theorem removePlayer_cascades (s : MemStorage) (id : Z) (removed : Player.t) :
  wf_store s ->
  Storage.getPlayer id s = Some removed ->
  exists s',
    Storage.removePlayer id s = Ok (tt, s')
    /\ (forall k, Storage.getPlayer k s' = if k =? id then None else Storage.getPlayer k s)
    /\ JsMap.values (st_definitions s')
       = filter (fun d => negb (Definition_.playerId d =? id)) (JsMap.values (st_definitions s))
    /\ JsMap.values (st_votes s')
       = filter (fun v => negb (Vote.playerId v =? id)) (JsMap.values (st_votes s))
    /\ (forall g r,
           Storage.getVotesByGameId g r s'
           = filter (fun v => negb (Vote.playerId v =? id)) (Storage.getVotesByGameId g r s))
    /\ (forall v d0,
           In v (JsMap.values (st_votes s)) -> Vote.playerId v <> id ->
           In d0 (JsMap.values (st_definitions s)) -> Definition_.playerId d0 = id ->
           refers_to v d0 = true ->
           In v (Storage.getVotesByGameId (Vote.gameId v) (Vote.round v) s')
           /\ forall d, In d (JsMap.values (st_definitions s')) -> refers_to v d = false)
    /\ (forall g r w,
           storage w = s' ->
           exists w',
             calculate_scores (Storage.getDefinitionsByGameId g r s')
               (Storage.getVotesByGameId g r s') w = (Ok tt, w'))
    /\ (forall ws g sid p w sender game0,
           storage w = s' ->
           Storage.getPlayerBySessionId sid s' = Some sender ->
           is_spectator sender = false ->
           Storage.getGame g s' = Some game0 ->
           exists w', endVoting ws g sid (Some p) w = (Ok tt, w')).
Proof.
  intros Hwf Hget. eexists. split; [exact (removePlayer_cascade id s removed Hwf Hget)|].
  cbn [st_players st_definitions st_votes Storage.getPlayer].
  assert (Hvals : JsMap.values (filter (fun e => negb (Vote.playerId (snd e) =? id)) (st_votes s))
                  = filter (fun v => negb (Vote.playerId v =? id)) (JsMap.values (st_votes s))).
  { exact (values_filter_snd Vote.t (fun v => negb (Vote.playerId v =? id)) (st_votes s)). }
  assert (Hdefs : JsMap.values
                    (filter (fun e => negb (Definition_.playerId (snd e) =? id)) (st_definitions s))
                  = filter (fun d => negb (Definition_.playerId d =? id))
                      (JsMap.values (st_definitions s))).
  { exact (values_filter_snd Definition_.t (fun d => negb (Definition_.playerId d =? id))
             (st_definitions s)). }
  split; [|split; [|split; [|split; [|split; [|split]]]]].
  - intros k. unfold Storage.getPlayer; simpl. apply zget_delete.
  - exact Hdefs.
  - exact Hvals.
  - intros g r. unfold Storage.getVotesByGameId. cbn [st_votes]. rewrite Hvals.
    rewrite !filter_filter_and. apply filter_ext. intros v. apply andb_comm.
  - intros v d0 Hv Hne Hd0 Hauthor Href. split.
    + unfold Storage.getVotesByGameId. cbn [st_votes]. rewrite Hvals.
      apply filter_In. split.
      * apply filter_In. split; [exact Hv|].
        destruct (Z.eqb_spec (Vote.playerId v) id); [contradiction|reflexivity].
      * rewrite !Z.eqb_refl. reflexivity.
    + intros d Hd. rewrite Hdefs in Hd. apply filter_In in Hd. destruct Hd as [Hd Hkeep].
      destruct (refers_to v d) eqn:Href'; [|reflexivity]. exfalso.
      unfold refers_to in Href, Href'.
      destruct (Vote.definitionId v) as [x|]; [|discriminate].
      apply Z.eqb_eq in Href, Href'.
      destruct Hwf as (_ & _ & Hk & _).
      unfold JsMap.values in Hd, Hd0.
      apply in_map_iff in Hd. destruct Hd as ([k d'] & E & HIn). simpl in E; subst d'.
      apply in_map_iff in Hd0. destruct Hd0 as ([k0 d0'] & E0 & HIn0). simpl in E0; subst d0'.
      pose proof (proj1 (proj2 Hk k d HIn)) as Hkd.
      pose proof (proj1 (proj2 Hk k0 d0 HIn0)) as Hkd0.
      assert (Hsame : k0 = k) by congruence.
      rewrite Hsame in HIn0.
      rewrite (keyed_unique Definition_.t Definition_.id _ _ k d d0 Hk HIn HIn0) in Hkeep.
      rewrite Hauthor, Z.eqb_refl in Hkeep. discriminate.
  - intros g r w _. eexists. apply calculate_scores_run.
  - intros ws g sid p w sender game0 Hw Hs Hn Hg. rewrite <- Hw in Hs, Hg.
    destruct (endVoting_accepted ws g sid p w sender game0 Hs Hn Hg) as (fs & Hrun).
    eexists. exact Hrun.
Qed.

(** On the scenario: removing player 1 takes its definition, D1, away and
    leaves the three votes for D1 in the vote query of the round. *)
Lemma removePlayer_cascades_witness :
  exists s',
    Storage.removePlayer 1 (storage (world Scenario.voted)) = Ok (tt, s')
    /\ Storage.getPlayer 1 s' = None
    /\ map Definition_.id (JsMap.values (st_definitions s')) = [2]
    /\ map Vote.id (Storage.getVotesByGameId 1 1 s') = [1; 2; 3; 4; 5].
Proof.
  destruct (removePlayer_cascades (storage (world Scenario.voted)) 1
              (Player.mk 1 1 "Player 11" "s1" "player" true false 0) voted_wf eq_refl)
    as (s' & Hrun & Hp & Hd & _ & Hv & _).
  exists s'. split; [exact Hrun|]. split; [rewrite Hp; reflexivity|].
  split; [rewrite Hd; reflexivity|]. rewrite Hv. reflexivity.
Defined.

(* ------------------------------------------------------------------ *)
(** * Further properties of the storage and of the handler *)

(** ** Creating and looking up rows *)

Lemma values_set_absent (V : Type) (k : Z) (v : V) (m : JsMap.t Z V) :
  JsMap.get Z.eqb k m = None ->
  JsMap.values (JsMap.set Z.eqb k v m) = JsMap.values m ++ [v].
Proof.
  intros H. rewrite (set_absent Z V Z.eqb k v m H).
  unfold JsMap.values. rewrite map_app. reflexivity.
Qed.

Lemma find_app (A : Type) (f : A -> bool) (l1 l2 : list A) :
  find f (l1 ++ l2) = match find f l1 with Some x => Some x | None => find f l2 end.
Proof.
  induction l1 as [|a r IH]; simpl; [reflexivity|].
  destruct (f a); [reflexivity|exact IH].
Qed.

Lemma getPlayerBySessionId_created (ins : InsertPlayer.t) (sid : string) (s : MemStorage) :
  wf_store s ->
  Storage.getPlayerBySessionId sid (snd (Storage.createPlayer ins s))
  = match Storage.getPlayerBySessionId sid s with
    | Some q => Some q
    | None =>
        if String.eqb (InsertPlayer.sessionId ins) sid
        then Some (fst (Storage.createPlayer ins s))
        else None
    end.
Proof.
  intros (_ & Hp & _). unfold Storage.getPlayerBySessionId. cbn [Storage.createPlayer snd fst st_players].
  rewrite values_set_absent by exact (keyed_counter_absent Player.t Player.id _ _ Hp).
  rewrite find_app. simpl. reflexivity.
Qed.

Lemma getPlayersByGameId_created (ins : InsertPlayer.t) (g : Z) (s : MemStorage) :
  wf_store s ->
  Storage.getPlayersByGameId g (snd (Storage.createPlayer ins s))
  = Storage.getPlayersByGameId g s
    ++ (if InsertPlayer.gameId ins =? g then [fst (Storage.createPlayer ins s)] else []).
Proof.
  intros (_ & Hp & _). unfold Storage.getPlayersByGameId. cbn [Storage.createPlayer snd fst st_players].
  rewrite values_set_absent by exact (keyed_counter_absent Player.t Player.id _ _ Hp).
  rewrite filter_app. simpl. reflexivity.
Qed.

(** ** Runs of the admin commands *)

Lemma awardBonus_finish (g : Z) (w : World) (game0 : Game.t) :
  Storage.getGame g (storage w) = Some game0 ->
  exists fs,
    (game <- query (Storage.getGame g) ;;
     match game with
     | None => throw (Storage.not_found "Game" g)
     | Some game =>
         gameState <- call (Storage.getGameState g (Storage.round_of game)) ;;
         broadcastGameState g gameState
     end) w
    = (Ok tt, add_sent w fs)
    /\ Forall (fun f => exists gs q, snd f = GameStateMsg gs q) fs.
Proof.
  intros Hg. unfold bind at 1, query at 1. rewrite Hg.
  exact (snapshot_broadcast g (Storage.round_of game0) w game0 Hg).
Qed.

Lemma awardBonus_run (ws g : Z) (sid : string) (p : Payload.t) (w : World)
    (sender : Player.t) (game0 : Game.t) (target : Z) :
  Storage.getPlayerBySessionId sid (storage w) = Some sender ->
  Player.isAdmin sender = true ->
  Storage.getGame g (storage w) = Some game0 ->
  Js.truthy_num (Payload.playerId p) = Some target ->
  exists fs,
    Forall (fun f => exists gs q, snd f = GameStateMsg gs q) fs
    /\ awardBonus ws g sid (Some p) w
       = match Storage.getPlayer target (storage w) with
         | Some q =>
             if Player.isSpectator q
             then (Ok tt, push_sent w (ws, ErrorMsg "Cannot award points to spectators."))
             else (Ok tt,
                   add_sent
                     (set_storage w
                        (Storage.set_players (storage w)
                           (JsMap.set Z.eqb target (Player.with_score q (Player.score q + 3))
                              (st_players (storage w))))) fs)
         | None => (Ok tt, add_sent w fs)
         end.
Proof.
  intros Hs Ha Hg Hp.
  unfold awardBonus, bind at 1, query at 1. rewrite Hs, Ha. cbn [negb].
  unfold bind at 1, payload_of, ret at 1. rewrite Hp.
  unfold bind at 1, query at 1.
  destruct (Storage.getPlayer target (storage w)) as [q|] eqn:Eq.
  - destruct (Player.isSpectator q) eqn:Es; cbn [negb].
    + exists []. split; [constructor|reflexivity].
    + unfold bind at 1, call at 1, Storage.updatePlayerScore. rewrite Eq.
      match goal with
      | |- context [(_ <- query (Storage.getGame g) ;; _) ?w1] =>
          destruct (awardBonus_finish g w1 game0) as (fs & Hrun & Hfs)
      end.
      { exact Hg. }
      exists fs. split; [exact Hfs|]. rewrite Hrun. reflexivity.
  - destruct (awardBonus_finish g w game0 Hg) as (fs & Hrun & Hfs).
    exists fs. split; [exact Hfs|]. exact Hrun.
Qed.

Lemma removePlayer_case_run (ws g : Z) (sid : string) (p : Payload.t) (w : World)
    (sender : Player.t) (target : Z) :
  Storage.getPlayerBySessionId sid (storage w) = Some sender ->
  Player.isAdmin sender = true ->
  Js.truthy_num (Payload.playerId p) = Some target ->
  removePlayer ws g sid (Some p) w
  = match Storage.removePlayer target (storage w) with
    | Ok (_, s') =>
        (gameState <- call (Storage.getGameState g (Js.or_one (Payload.round p))) ;;
         broadcastGameState g gameState) (set_storage w s')
    | Throw e => (Throw e, w)
    end.
Proof.
  intros Hs Ha Hp.
  unfold removePlayer, bind at 1, query at 1. rewrite Hs, Ha. cbn [negb].
  unfold bind at 1, payload_of, ret at 1. rewrite Hp.
  unfold bind at 1, call at 1.
  destruct (Storage.removePlayer target (storage w)) as [[[] s']|e]; reflexivity.
Qed.

Lemma snapshot_tail_frame (g : Z) (r : Z) (w : World) :
  let w' := snd ((gameState <- call (Storage.getGameState g r) ;;
                  broadcastGameState g gameState) w) in
  storage w' = storage w /\ connections w' = connections w
  /\ gameRooms w' = gameRooms w /\ notOpen w' = notOpen w.
Proof.
  cbv zeta. unfold bind, call, Storage.getGameState.
  destruct (Storage.getGame g (storage w)); [|simpl; auto].
  rewrite broadcastGameState_run. simpl. auto.
Qed.

Lemma session_gone_after_delete (target : Z) (sid : string) (s' s : MemStorage) :
  st_players s' = JsMap.delete Z.eqb target (st_players s) ->
  (forall k other, In (k, other) (st_players s) -> Player.sessionId other = sid -> k = target) ->
  Storage.getPlayerBySessionId sid s' = None.
Proof.
  intros E Honly. unfold Storage.getPlayerBySessionId. rewrite E.
  destruct (find _ _) as [x|] eqn:Ef; [|reflexivity]. exfalso.
  apply find_some in Ef. destruct Ef as [HIn Hsid].
  unfold JsMap.values in HIn. apply in_map_iff in HIn. destruct HIn as ([k x'] & Ex & HIn).
  simpl in Ex; subst x'. apply In_delete in HIn. destruct HIn as [HIn Hne].
  apply String.eqb_eq in Hsid. simpl in Hne. exact (Hne (Honly k x HIn Hsid)).
Qed.

(** ** A game id that names no game *)

Lemma snapshot_missing_game (g r : Z) (w : World) :
  Storage.getGame g (storage w) = None ->
  (gameState <- call (Storage.getGameState g r) ;; broadcastGameState g gameState) w
  = (Throw (Storage.not_found "Game" g), w).
Proof.
  intros Hg. unfold bind, call, Storage.getGameState. rewrite Hg. reflexivity.
Qed.

(** ** A storage without players or rows *)

Lemma no_players_consistent (s : MemStorage) :
  st_players s = [] -> unique_sessions s /\ one_admin s /\ players_in_games s.
Proof.
  intros E. split; [|split].
  - intros k1 p1 k2 p2 H. rewrite E in H. destruct H.
  - intros k1 p1 k2 p2 H. rewrite E in H. destruct H.
  - intros k p H. rewrite E in H. destruct H.
Qed.

Lemma no_rows_authored (s : MemStorage) :
  st_definitions s = [] -> st_votes s = [] -> rows_authored s.
Proof.
  intros Ed Ev. split; intros k x H; [rewrite Ed in H|rewrite Ev in H]; destruct H.
Qed.

(** ** Deleting the rows of a round *)

Lemma delete_keys_of (V : Type) (Q : Z * V -> bool) (m : JsMap.t Z V) :
  NoDup (JsMap.keys m) ->
  Storage.delete_all (map fst (filter Q m)) m = filter (fun e => negb (Q e)) m.
Proof.
  intros ND. rewrite delete_all_filter. apply filter_ext_in.
  intros [k v] HIn. simpl. f_equal.
  destruct (Q (k, v)) eqn:Eq.
  - apply existsb_exists. exists k. split; [|apply Z.eqb_refl].
    change k with (fst (k, v)). apply in_map. apply filter_In. split; assumption.
  - destruct (existsb (Z.eqb k) (map fst (filter Q m))) eqn:Ex; [|reflexivity].
    exfalso. apply existsb_exists in Ex. destruct Ex as (x & Hx & Hkx).
    apply Z.eqb_eq in Hkx. subst x.
    apply in_map_iff in Hx. destruct Hx as ([k' v'] & Hk & Hv').
    simpl in Hk. subst k'. apply filter_In in Hv'. destruct Hv' as [HIn' Hq].
    pose proof (In_get Z V Z.eqb Z.eqb_eq k v m ND HIn) as E1.
    pose proof (In_get Z V Z.eqb Z.eqb_eq k v' m ND HIn') as E2.
    assert (v' = v) by congruence. subst v'. congruence.
Qed.

Lemma filter_none (A : Type) (f : A -> bool) (l : list A) :
  filter f (filter (fun x => negb (f x)) l) = [].
Proof.
  induction l as [|a r IH]; simpl; [reflexivity|].
  destruct (f a) eqn:E; simpl; [exact IH|rewrite E; exact IH].
Qed.

(** ** [broadcastToRoom] *)

Lemma recipients_add_sent (w : World) (fs : list (Z * ServerMsg)) (ex : option string)
    (ids : list string) :
  recipients (add_sent w fs) ex ids = recipients w ex ids.
Proof. induction ids as [|i r IH]; simpl; [reflexivity|]. rewrite IH. reflexivity. Qed.

Lemma broadcastToRoom_each_run (ids : list string) (message : ServerMsg)
    (ex : option string) (w : World) :
  broadcastToRoom_each ids message ex w
  = (Ok tt, add_sent w (map (fun c => (c, message)) (recipients w ex ids))).
Proof.
  revert w. induction ids as [|i r IH]; intros w.
  - simpl. rewrite add_sent_nil. reflexivity.
  - cbn [broadcastToRoom_each recipients]. unfold bind, recipient.
    destruct (Js.truthy_str ex) as [e|].
    + destruct (String.eqb i e); [apply IH|].
      destruct (JsMap.get String.eqb i (connections w)) as [c|]; [|apply IH].
      destruct (isOpen c w); [|apply IH].
      unfold sendMessage. rewrite IH.
      change (push_sent w (c, message)) with (add_sent w [(c, message)]).
      rewrite recipients_add_sent. unfold add_sent; simpl.
      rewrite <- app_assoc. reflexivity.
    + destruct (JsMap.get String.eqb i (connections w)) as [c|]; [|apply IH].
      destruct (isOpen c w); [|apply IH].
      unfold sendMessage. rewrite IH.
      change (push_sent w (c, message)) with (add_sent w [(c, message)]).
      rewrite recipients_add_sent. unfold add_sent; simpl.
      rewrite <- app_assoc. reflexivity.
Qed.

(** ** Tests on the rows of one round *)

Lemma existsb_filter_same (A : Type) (h p q : A -> bool) (l : list A) :
  (forall x, p x = true -> q x = true) ->
  existsb (fun x => h x && q x) (filter p l) = existsb h (filter p l).
Proof.
  intros H. induction l as [|a r IH]; simpl; [reflexivity|].
  destruct (p a) eqn:E; simpl; [|exact IH].
  rewrite (H a E), andb_true_r, IH. reflexivity.
Qed.

Lemma existsb_filter_other (A : Type) (h p q : A -> bool) (l : list A) :
  (forall x, p x = true -> q x = false) ->
  existsb (fun x => h x && q x) (filter p l) = false.
Proof.
  intros H. induction l as [|a r IH]; simpl; [reflexivity|].
  destruct (p a) eqn:E; simpl; [|exact IH].
  rewrite (H a E), andb_false_r, IH. reflexivity.
Qed.

Lemma recipients_flat_map (w : World) (message : ServerMsg) (ex : option string)
    (ids : list string) :
  map (fun c => (c, message)) (recipients w ex ids)
  = flat_map
      (fun sid =>
         if match Js.truthy_str ex with
            | Some e => String.eqb sid e
            | None => false
            end
         then []
         else match JsMap.get String.eqb sid (connections w) with
              | Some c => if isOpen c w then [(c, message)] else []
              | None => []
              end) ids.
Proof.
  induction ids as [|i r IH]; [reflexivity|].
  cbn [recipients flat_map]. rewrite <- IH. unfold recipient.
  destruct (Js.truthy_str ex) as [e|].
  - destruct (String.eqb i e); [reflexivity|].
    destruct (JsMap.get String.eqb i (connections w)) as [c|]; [|reflexivity].
    destruct (isOpen c w); reflexivity.
  - destruct (JsMap.get String.eqb i (connections w)) as [c|]; [|reflexivity].
    destruct (isOpen c w); reflexivity.
Qed.

Lemma broadcastToRoom_run (gameId : Z) (message : ServerMsg) (ex : option string)
    (w : World) :
  broadcastToRoom gameId message ex w
  = (Ok tt, add_sent w (map (fun c => (c, message)) (recipients w ex (room_of gameId w)))).
Proof.
  unfold broadcastToRoom, room_of.
  destruct (JsMap.get Z.eqb gameId (gameRooms w)) as [room|].
  - apply broadcastToRoom_each_run.
  - simpl. rewrite add_sent_nil. reflexivity.
Qed.

Lemma recipients_set_storage (w : World) (s : MemStorage) (ex : option string)
    (ids : list string) :
  recipients (set_storage w s) ex ids = recipients w ex ids.
Proof. induction ids as [|i r IH]; simpl; [reflexivity|]. rewrite IH. reflexivity. Qed.

(** ** Trimming *)

Lemma trim_start_blank (s : string) :
  forallb Js.is_space (list_ascii_of_string s) = true -> Js.trim_start s = EmptyString.
Proof.
  induction s as [|c r IH]; simpl; [reflexivity|].
  intros H. apply andb_true_iff in H. destruct H as [Hc Hr]. rewrite Hc. exact (IH Hr).
Qed.

Lemma trim_start_shape (s : string) :
  forallb Js.is_space (list_ascii_of_string s) = false ->
  exists c r, Js.trim_start s = String c r /\ Js.is_space c = false.
Proof.
  induction s as [|c r IH]; simpl; [discriminate|].
  destruct (Js.is_space c) eqn:Ec; simpl.
  - exact IH.
  - intros _. exists c, r. split; [reflexivity|exact Ec].
Qed.

(** Dropping leading white space in front of a last character that is not
    white space. *)
Lemma trim_start_snoc (l : list ascii) (c : ascii) :
  Js.is_space c = false ->
  exists y,
    Js.trim_start (string_of_list_ascii (l ++ [c])) = string_of_list_ascii (y ++ [c])
    /\ Js.trim_start (string_of_list_ascii (y ++ [c])) = string_of_list_ascii (y ++ [c]).
Proof.
  intros Hc. induction l as [|a l IH].
  - exists []. simpl. rewrite Hc. split; reflexivity.
  - simpl. destruct (Js.is_space a) eqn:Ea.
    + exact IH.
    + exists (a :: l). simpl. rewrite Ea. split; reflexivity.
Qed.

Lemma rev_string_of_list (l : list ascii) :
  Js.rev (string_of_list_ascii l) = string_of_list_ascii (List.rev l).
Proof. unfold Js.rev. rewrite list_ascii_of_string_of_list_ascii. reflexivity. Qed.

Lemma trim_shape (s : string) :
  forallb Js.is_space (list_ascii_of_string s) = false ->
  exists c y,
    Js.is_space c = false
    /\ Js.trim s = String c (string_of_list_ascii (List.rev y))
    /\ Js.trim_start (string_of_list_ascii (y ++ [c])) = string_of_list_ascii (y ++ [c]).
Proof.
  intros H. destruct (trim_start_shape s H) as (c & r & Et & Hc).
  unfold Js.trim. rewrite Et.
  change (Js.rev (String c r))
    with (string_of_list_ascii (List.rev (list_ascii_of_string r) ++ [c])).
  destruct (trim_start_snoc (List.rev (list_ascii_of_string r)) c Hc) as (y & E1 & E2).
  rewrite E1. exists c, y. split; [exact Hc|]. split; [|exact E2].
  rewrite rev_string_of_list, rev_app_distr. reflexivity.
Qed.

Lemma trim_blank (s : string) :
  forallb Js.is_space (list_ascii_of_string s) = true -> Js.trim s = EmptyString.
Proof. intros H. unfold Js.trim. rewrite (trim_start_blank s H). reflexivity. Qed.

Lemma trim_not_blank (s : string) :
  forallb Js.is_space (list_ascii_of_string s) = false -> Js.trim s <> EmptyString.
Proof. intros H. destruct (trim_shape s H) as (c & y & _ & E & _). rewrite E. discriminate. Qed.

Lemma trim_trim (s : string) : Js.trim (Js.trim s) = Js.trim s.
Proof.
  destruct (forallb Js.is_space (list_ascii_of_string s)) eqn:H.
  - rewrite (trim_blank s H). reflexivity.
  - destruct (trim_shape s H) as (c & y & Hc & E & Efix). rewrite E.
    unfold Js.trim. cbn [Js.trim_start]. rewrite Hc.
    change (Js.rev (String c (string_of_list_ascii (List.rev y))))
      with (string_of_list_ascii
              (List.rev (list_ascii_of_string (string_of_list_ascii (List.rev y))) ++ [c])).
    rewrite list_ascii_of_string_of_list_ascii, rev_involutive.
    rewrite Efix. rewrite rev_string_of_list, rev_app_distr. reflexivity.
Qed.

Lemma valid_word_blank (word : option string) :
  valid_word word = if blank word then None else word.
Proof.
  destruct word as [s|]; [|reflexivity]. unfold valid_word, blank, Js.truthy_str.
  destruct (String.eqb_spec s EmptyString) as [->|Hne]; [reflexivity|].
  destruct (forallb Js.is_space (list_ascii_of_string s)) eqn:H.
  - rewrite (trim_blank s H). reflexivity.
  - destruct (String.eqb_spec (Js.trim s) EmptyString) as [E|_]; [|reflexivity].
    destruct (trim_not_blank s H E).
Qed.

(** ** The shuffle *)

Section ShuffleFacts.
Variable A : Type.

Lemma put_length (i : nat) (x : A) (l : list A) :
  List.length (Shuffle.put i x l) = List.length l.
Proof.
  revert i. induction l as [|a r IH]; intros i; [reflexivity|].
  destruct i as [|i']; simpl; [reflexivity|]. rewrite IH. reflexivity.
Qed.

Lemma nth_error_put_same (i : nat) (x : A) (l : list A) :
  (i < List.length l)%nat -> nth_error (Shuffle.put i x l) i = Some x.
Proof.
  revert i. induction l as [|a r IH]; intros i H; simpl in H; [lia|].
  destruct i as [|i']; simpl; [reflexivity|]. apply IH. lia.
Qed.

Lemma nth_error_put_other (i j : nat) (x : A) (l : list A) :
  j <> i -> nth_error (Shuffle.put i x l) j = nth_error l j.
Proof.
  revert i j. induction l as [|a r IH]; intros i j H; [reflexivity|].
  destruct i as [|i'], j as [|j']; simpl; try reflexivity; [contradiction|].
  apply IH. intros E. apply H. rewrite E. reflexivity.
Qed.

Lemma put_perm (i : nat) (x a : A) (l : list A) :
  nth_error l i = Some a -> Permutation (x :: l) (a :: Shuffle.put i x l).
Proof.
  revert i. induction l as [|b r IH]; intros i H.
  - destruct i; discriminate H.
  - destruct i as [|i']; simpl in *.
    + injection H as ->. apply perm_swap.
    + apply (perm_trans (perm_swap b x r)).
      apply (perm_trans (perm_skip b (IH i' H))).
      apply perm_swap.
Qed.

Lemma swap_perm (i j : nat) (l : list A) :
  (i < List.length l)%nat -> (j < List.length l)%nat ->
  exists l', Shuffle.swap i j l = Some l'
             /\ Permutation l l' /\ List.length l' = List.length l.
Proof.
  intros Hi Hj. unfold Shuffle.swap.
  destruct (nth_error l i) as [ai|] eqn:Ei; [|apply nth_error_None in Ei; lia].
  destruct (nth_error l j) as [aj|] eqn:Ej; [|apply nth_error_None in Ej; lia].
  eexists. split; [reflexivity|]. split; [|rewrite !put_length; reflexivity].
  assert (Hj' : nth_error (Shuffle.put i aj l) j = Some aj).
  { destruct (Nat.eq_dec j i) as [->|Hne].
    - apply nth_error_put_same, Hi.
    - rewrite nth_error_put_other by exact Hne. exact Ej. }
  apply (Permutation_cons_inv (a := aj)).
  apply (perm_trans (put_perm i aj ai l Ei)).
  exact (put_perm j ai aj _ Hj').
Qed.

Lemma shuffle_from_perm (draw : nat -> nat) (i : nat) (l : list A) :
  (forall k, (draw k <= k)%nat) ->
  (i < List.length l)%nat ->
  exists l', Shuffle.shuffle_from i draw l = Some l'
             /\ Permutation l l' /\ List.length l' = List.length l.
Proof.
  intros Hdraw. revert l. induction i as [|i' IH]; intros l Hi.
  - exists l. split; [reflexivity|]. split; [apply Permutation_refl|reflexivity].
  - cbn [Shuffle.shuffle_from].
    destruct (swap_perm (S i') (draw (S i')) l Hi) as (l1 & E1 & P1 & L1).
    { pose proof (Hdraw (S i')). lia. }
    rewrite E1. destruct (IH l1) as (l2 & E2 & P2 & L2); [lia|].
    exists l2. split; [exact E2|]. split; [exact (perm_trans P1 P2)|lia].
Qed.

End ShuffleFacts.

(* ------------------------------------------------------------------ *)
(** * Further results *)

(** ** Who may send what *)

Ltac enter_case Hj :=
  match goal with
  | |- context [on_message ?ws ?rnd ?cv (Envelope ?type ?payload) ?w] =>
      rewrite (on_message_joined ws rnd cv type payload w _ _ Hj); [|discriminate];
      cbn [classify case_body String.eqb Ascii.eqb Bool.eqb]
  end.

(** X1.  A spectator (by role or by flag) who sends [submitWord],
    [submitDefinition], [endSubmissions], [submitVote], [endVoting] or
    [newRound] on a joined connection gets one error frame; nothing else in
    the world changes. *)
Theorem spectators_cannot_play (ws randomId : Z) (cv : ConnVars) (type : string)
    (payload : option Payload.t) (w : World) (gameId : Z) (sessionId : string)
    (sender : Player.t) :
  joined cv = Some (gameId, sessionId) ->
  Storage.getPlayerBySessionId sessionId (storage w) = Some sender ->
  is_spectator sender = true ->
  In type ["submitWord"; "submitDefinition"; "endSubmissions"; "submitVote";
           "endVoting"; "newRound"]%string ->
  exists message,
    snd (on_message ws randomId cv (Envelope type payload) w)
    = push_sent w (ws, ErrorMsg message).
Proof.
  intros Hj Hs Hsp HIn. simpl in HIn.
  repeat (destruct HIn as [<-|HIn]; [enter_case Hj|]); try contradiction.
  - unfold try_catch, submitWord, bind at 1, query at 1. rewrite Hs, Hsp. eexists; reflexivity.
  - unfold try_catch, submitDefinition, bind at 1, query at 1. rewrite Hs, Hsp.
    eexists; reflexivity.
  - unfold try_catch, endSubmissions, bind at 1, query at 1. rewrite Hs, Hsp.
    eexists; reflexivity.
  - unfold try_catch, submitVote, bind at 1, query at 1. rewrite Hs, Hsp. eexists; reflexivity.
  - unfold try_catch, endVoting, bind at 1, query at 1. rewrite Hs, Hsp. eexists; reflexivity.
  - unfold try_catch, newRound, bind at 1, query at 1. rewrite Hs, Hsp. eexists; reflexivity.
Qed.

(** On the scenario: the spectator, player 8, tries to vote. *)
Lemma spectators_cannot_play_witness :
  exists message,
    snd (on_message 8 0 (mkConn (Some "s8"%string) (Some 1)) (Scenario.vote 1 1)
           (world Scenario.voted))
    = push_sent (world Scenario.voted) (8, ErrorMsg message).
Proof.
  exact (spectators_cannot_play 8 0 (mkConn (Some "s8"%string) (Some 1)) "submitVote"
           (Some (Payload.mk None (Some 1) None None (Some 1) None None None (Some 1) None))
           (world Scenario.voted) 1 "s8"%string
           (Player.mk 8 1 "Spectator 18" "s8" "spectator" false true 0)
           eq_refl eq_refl eq_refl (or_intror (or_intror (or_intror (or_introl eq_refl))))).
Defined.

(** X2.  A command other than [join] on a joined connection whose session
    id resolves to no player gets one error frame; nothing else in the world
    changes. *)
Theorem unknown_session_is_rejected (ws randomId : Z) (cv : ConnVars) (type : string)
    (payload : option Payload.t) (w : World) (gameId : Z) (sessionId : string) :
  joined cv = Some (gameId, sessionId) ->
  Storage.getPlayerBySessionId sessionId (storage w) = None ->
  In type ["removePlayer"; "submitWord"; "submitDefinition"; "endSubmissions";
           "submitVote"; "endVoting"; "newRound"; "cancelRound"; "awardBonus"]%string ->
  exists message,
    snd (on_message ws randomId cv (Envelope type payload) w)
    = push_sent w (ws, ErrorMsg message).
Proof.
  intros Hj Hs HIn. simpl in HIn.
  repeat (destruct HIn as [<-|HIn]; [enter_case Hj|]); try contradiction.
  - unfold try_catch, removePlayer, bind at 1, query at 1. rewrite Hs. eexists; reflexivity.
  - unfold try_catch, submitWord, bind at 1, query at 1. rewrite Hs. eexists; reflexivity.
  - unfold try_catch, submitDefinition, bind at 1, query at 1. rewrite Hs. eexists; reflexivity.
  - unfold try_catch, endSubmissions, bind at 1, query at 1. rewrite Hs. eexists; reflexivity.
  - unfold try_catch, submitVote, bind at 1, query at 1. rewrite Hs. eexists; reflexivity.
  - unfold try_catch, endVoting, bind at 1, query at 1. rewrite Hs. eexists; reflexivity.
  - unfold try_catch, newRound, bind at 1, query at 1. rewrite Hs. eexists; reflexivity.
  - unfold try_catch, cancelRound, bind at 1, query at 1. rewrite Hs. eexists; reflexivity.
  - unfold try_catch, awardBonus, bind at 1, query at 1. rewrite Hs. eexists; reflexivity.
Qed.

(** On the scenario: a connection that took the session id [nobody]. *)
Lemma unknown_session_is_rejected_witness :
  exists message,
    snd (on_message 9 0 (mkConn (Some "nobody"%string) (Some 1))
           (Scenario.control "endVoting" 1) (world Scenario.voted))
    = push_sent (world Scenario.voted) (9, ErrorMsg message).
Proof.
  exact (unknown_session_is_rejected 9 0 (mkConn (Some "nobody"%string) (Some 1)) "endVoting"
           (Some (Payload.mk None (Some 1) None None (Some 1) None None None None None))
           (world Scenario.voted) 1 "nobody"%string eq_refl eq_refl
           (or_intror (or_intror (or_intror (or_intror (or_intror (or_introl eq_refl))))))).
Defined.

(** X3.  [removePlayer], [cancelRound] and [awardBonus] from a player who is
    not admin get one error frame; nothing else in the world changes. *)
Theorem admin_commands_need_admin (ws randomId : Z) (cv : ConnVars) (type : string)
    (payload : option Payload.t) (w : World) (gameId : Z) (sessionId : string)
    (sender : Player.t) :
  joined cv = Some (gameId, sessionId) ->
  Storage.getPlayerBySessionId sessionId (storage w) = Some sender ->
  Player.isAdmin sender = false ->
  In type ["removePlayer"; "cancelRound"; "awardBonus"]%string ->
  exists message,
    snd (on_message ws randomId cv (Envelope type payload) w)
    = push_sent w (ws, ErrorMsg message).
Proof.
  intros Hj Hs Ha HIn. simpl in HIn.
  repeat (destruct HIn as [<-|HIn]; [enter_case Hj|]); try contradiction.
  - unfold try_catch, removePlayer, bind at 1, query at 1. rewrite Hs, Ha. eexists; reflexivity.
  - unfold try_catch, cancelRound, bind at 1, query at 1. rewrite Hs, Ha. eexists; reflexivity.
  - unfold try_catch, awardBonus, bind at 1, query at 1. rewrite Hs, Ha. eexists; reflexivity.
Qed.

(** On the scenario: player 2 tries to remove player 3. *)
Lemma admin_commands_need_admin_witness :
  exists message,
    snd (on_message 2 0 (mkConn (Some "s2"%string) (Some 1)) (Scenario.target "removePlayer" 3)
           (world Scenario.voted))
    = push_sent (world Scenario.voted) (2, ErrorMsg message).
Proof.
  exact (admin_commands_need_admin 2 0 (mkConn (Some "s2"%string) (Some 1)) "removePlayer"
           (Some (Payload.mk None (Some 1) None None (Some 1) None None None None (Some 3)))
           (world Scenario.voted) 1 "s2"%string
           (Player.mk 2 1 "Player 12" "s2" "player" false false 0)
           eq_refl eq_refl eq_refl (or_introl eq_refl)).
Defined.

(** ** The admin commands, accepted *)

(** X4.  [awardBonus] from an admin, for an existing game and a player id
    that is not 0: the named player, if stored and not flagged spectator,
    gets exactly 3 points more and keeps every other field; every other
    player, the games, the definitions and the votes are as before.  If no
    player has that id nothing is stored and no error is sent: the room just
    gets a broadcast. *)
Theorem awardBonus_adds_three (ws randomId : Z) (cv : ConnVars) (p : Payload.t)
    (w : World) (gameId : Z) (sessionId : string) (sender : Player.t) (game0 : Game.t)
    (target : Z) :
  joined cv = Some (gameId, sessionId) ->
  Storage.getPlayerBySessionId sessionId (storage w) = Some sender ->
  Player.isAdmin sender = true ->
  Storage.getGame gameId (storage w) = Some game0 ->
  Js.truthy_num (Payload.playerId p) = Some target ->
  let w' := snd (on_message ws randomId cv (Envelope "awardBonus" (Some p)) w) in
  (forall k,
      Storage.getPlayer k (storage w')
      = if k =? target then option_map (scored 3) (Storage.getPlayer k (storage w))
        else Storage.getPlayer k (storage w))
  /\ st_games (storage w') = st_games (storage w)
  /\ st_definitions (storage w') = st_definitions (storage w)
  /\ st_votes (storage w') = st_votes (storage w)
  /\ (Storage.getPlayer target (storage w) = None ->
      exists fs, w' = add_sent w fs
                 /\ Forall (fun f => exists gs q, snd f = GameStateMsg gs q) fs).
Proof.
  intros Hj Hs Ha Hg Hp w'. unfold w'. enter_case Hj.
  destruct (awardBonus_run ws gameId sessionId p w sender game0 target Hs Ha Hg Hp)
    as (fs & Hfs & Hrun).
  unfold try_catch. rewrite Hrun.
  destruct (Storage.getPlayer target (storage w)) as [q|] eqn:Eq.
  - destruct (Player.isSpectator q) eqn:Es.
    + cbn [storage push_sent]. split; [|repeat split; discriminate].
      intros k. destruct (Z.eqb_spec k target) as [->|_]; [|reflexivity].
      rewrite Eq. simpl. rewrite (scored_spectator 3 q Es). reflexivity.
    + cbn [storage add_sent set_storage]. split; [|repeat split; discriminate].
      intros k. unfold Storage.getPlayer at 1. cbn [st_players Storage.set_players].
      rewrite zget_set. destruct (Z.eqb_spec k target) as [->|_]; [|reflexivity].
      rewrite Eq. simpl. unfold scored. rewrite Es. reflexivity.
  - cbn [storage add_sent]. split; [|repeat split].
    + intros k. destruct (Z.eqb_spec k target) as [->|_]; [|reflexivity].
      rewrite Eq. reflexivity.
    + intros _. exists fs. split; [reflexivity|exact Hfs].
Qed.

(** On the scenario: the admin gives player 2 the bonus. *)
Lemma awardBonus_adds_three_witness :
  let w' := snd (on_message 1 0 (mkConn (Some "s1"%string) (Some 1))
                   (Scenario.target "awardBonus" 2) (world Scenario.results)) in
  option_map Player.score (Storage.getPlayer 2 (storage (world Scenario.results))) = Some 2
  /\ option_map Player.score (Storage.getPlayer 2 (storage w')) = Some 5
  /\ Storage.getPlayer 3 (storage w') = Storage.getPlayer 3 (storage (world Scenario.results)).
Proof.
  pose proof (awardBonus_adds_three 1 0 (mkConn (Some "s1"%string) (Some 1))
                (Payload.mk None (Some 1) None None (Some 1) None None None None (Some 2))
                (world Scenario.results) 1 "s1"%string
                (Player.mk 1 1 "Player 11" "s1" "player" true false 3)
                (Game.mk 1 "ABC123" 4 (Some "zyzzyva"%string) true "2025-01-01" 1)
                2 eq_refl eq_refl eq_refl eq_refl eq_refl) as H.
  cbv zeta in H. destruct H as (Hk & _).
  cbv zeta. unfold Scenario.target. rewrite (Hk 2), (Hk 3). vm_compute. repeat split.
Defined.

(** X5.  [removePlayer] from an admin, for a player id that is not 0.  If no
    player has that id, the sender gets the generic error and nothing else
    changes.  Otherwise the storage is the one [MemStorage.removePlayer]
    returns, while the registry is untouched: the removed player's session
    stays in [connections] and in its room.  It is no longer served by a
    broadcast once no stored player has its session id. *)
Theorem removePlayer_leaves_registry (ws randomId : Z) (cv : ConnVars) (p : Payload.t)
    (w : World) (gameId : Z) (sessionId : string) (sender : Player.t) (target : Z) :
  joined cv = Some (gameId, sessionId) ->
  Storage.getPlayerBySessionId sessionId (storage w) = Some sender ->
  Player.isAdmin sender = true ->
  Js.truthy_num (Payload.playerId p) = Some target ->
  let w' := snd (on_message ws randomId cv (Envelope "removePlayer" (Some p)) w) in
  (Storage.getPlayer target (storage w) = None ->
   w' = push_sent w (ws, ErrorMsg "An error occurred"))
  /\ (forall q,
         Storage.getPlayer target (storage w) = Some q ->
         Storage.removePlayer target (storage w) = Ok (tt, storage w')
         /\ connections w' = connections w
         /\ gameRooms w' = gameRooms w
         /\ notOpen w' = notOpen w
         /\ ((forall k other, In (k, other) (st_players (storage w)) ->
                              Player.sessionId other = Player.sessionId q -> k = target) ->
             live w' (Player.sessionId q) = false)).
Proof.
  intros Hj Hs Ha Hp w'. unfold w'. enter_case Hj.
  unfold try_catch. rewrite (removePlayer_case_run ws gameId sessionId p w sender target Hs Ha Hp).
  split.
  - intros Hn. unfold Storage.removePlayer. rewrite Hn. reflexivity.
  - intros q Hq. rewrite (removePlayer_run target (storage w) q Hq).
    match goal with
    | |- context [(_ <- call (Storage.getGameState gameId ?r) ;; _) ?w1] =>
        destruct (snapshot_tail_frame gameId r w1) as (Hst & Hc & Hr & Hn);
        set (out := (gameState <- call (Storage.getGameState gameId r) ;;
                     broadcastGameState gameId gameState) w1) in *
    end.
    assert (Hall : forall w2, storage w2 = storage (snd out) -> connections w2 = connections (snd out) ->
                gameRooms w2 = gameRooms (snd out) -> notOpen w2 = notOpen (snd out) ->
      Storage.removePlayer target (storage w) = Ok (tt, storage w2)
      /\ connections w2 = connections w /\ gameRooms w2 = gameRooms w /\ notOpen w2 = notOpen w
      /\ ((forall k other, In (k, other) (st_players (storage w)) ->
                           Player.sessionId other = Player.sessionId q -> k = target) ->
          live w2 (Player.sessionId q) = false)).
    { intros w2 E1 E2 E3 E4. rewrite E1, E2, E3, E4, Hst, Hc, Hr, Hn.
      cbn [storage connections gameRooms notOpen set_storage].
      rewrite (removePlayer_run target (storage w) q Hq).
      split; [reflexivity|]. split; [reflexivity|]. split; [reflexivity|]. split; [reflexivity|].
      intros Honly. unfold live. rewrite E1, E2, Hst, Hc. cbn [connections storage set_storage].
      destruct (JsMap.get String.eqb (Player.sessionId q) (connections w)); [|reflexivity].
      match goal with
      | |- (_ && match ?x with Some _ => true | None => false end)%bool = false =>
          replace x with (@None Player.t); [apply andb_false_r|]
      end.
      symmetry. apply (session_gone_after_delete target _ _ (storage w)); [reflexivity|exact Honly]. }
    rewrite (removePlayer_run target (storage w) q Hq) in Hall.
    destruct out as [[[]|e] w2]; apply Hall; reflexivity.
Qed.

(** On the scenario: the admin removes player 3, whose socket stays registered. *)
Lemma removePlayer_leaves_registry_witness :
  let w := world Scenario.voted in
  let w' := snd (on_message 1 0 (mkConn (Some "s1"%string) (Some 1))
                   (Scenario.target "removePlayer" 3) w) in
  Storage.getPlayer 3 (storage w') = None
  /\ JsMap.get String.eqb "s3"%string (connections w') = Some 3
  /\ live w "s3"%string = true
  /\ live w' "s3"%string = false.
Proof.
  pose proof (removePlayer_leaves_registry 1 0 (mkConn (Some "s1"%string) (Some 1))
                (Payload.mk None (Some 1) None None (Some 1) None None None None (Some 3))
                (world Scenario.voted) 1 "s1"%string
                (Player.mk 1 1 "Player 11" "s1" "player" true false 0)
                3 eq_refl eq_refl eq_refl eq_refl) as H.
  cbv zeta in H. destruct H as (_ & H).
  destruct (H (Player.mk 3 1 "Player 13" "s3" "player" false false 0) eq_refl)
    as (Hrm & Hc & _ & _ & Hlive).
  cbv zeta. unfold Scenario.target.
  split; [|split; [|split]].
  - vm_compute. reflexivity.
  - rewrite Hc. reflexivity.
  - reflexivity.
  - apply Hlive. vm_compute. intros k other HIn E.
    repeat (destruct HIn as [HIn|HIn];
            [injection HIn as <- <-; first [reflexivity | discriminate E]|]).
    destruct HIn.
Defined.

(** ** Words *)

(** X6.  [submitWord] from a known non-spectator.  A word that is missing,
    empty or made of white space only is refused with "Please enter a valid
    word." and nothing else changes.  Any other word, for an existing game,
    is stored trimmed: the game's word is not empty, trimming it again
    changes nothing, and the phase is 2. *)
Theorem submitWord_stores_trimmed_word (ws randomId : Z) (cv : ConnVars) (p : Payload.t)
    (w : World) (gameId : Z) (sessionId : string) (sender : Player.t) :
  joined cv = Some (gameId, sessionId) ->
  Storage.getPlayerBySessionId sessionId (storage w) = Some sender ->
  is_spectator sender = false ->
  let w' := snd (on_message ws randomId cv (Envelope "submitWord" (Some p)) w) in
  (blank (Payload.word p) = true ->
   w' = push_sent w (ws, ErrorMsg "Please enter a valid word."))
  /\ (forall game0,
         blank (Payload.word p) = false ->
         Storage.getGame gameId (storage w) = Some game0 ->
         exists word stored,
           Payload.word p = Some word
           /\ Storage.getGame gameId (storage w')
              = Some (Game.with_phase (Game.with_word game0 stored) 2)
           /\ stored = Js.trim word
           /\ stored <> EmptyString
           /\ Js.trim stored = stored).
Proof.
  intros Hj Hs Hn w'. unfold w'. enter_case Hj. unfold try_catch. split.
  - intros Hb. unfold submitWord, bind at 1, query at 1. rewrite Hs, Hn.
    unfold bind at 1, payload_of, ret at 1. rewrite valid_word_blank, Hb. reflexivity.
  - intros game0 Hb Hg.
    destruct (Payload.word p) as [word|] eqn:Ew; [|discriminate Hb].
    assert (Hv : valid_word (Payload.word p) = Some word).
    { rewrite valid_word_blank, Ew, Hb. reflexivity. }
    destruct (submitWord_accepted ws gameId sessionId p w sender game0 word Hs Hn Hv Hg)
      as (fs & Hrun).
    rewrite Hrun. exists word, (Js.trim word). cbn [snd storage add_sent set_storage].
    split; [reflexivity|]. split; [apply getGame_written|]. split; [reflexivity|].
    split; [exact (trim_not_blank word Hb)|apply trim_trim].
Qed.

(** On the scenario: a padded word in the lobby. *)
Lemma submitWord_stores_trimmed_word_witness :
  option_map Game.currentWord
    (Storage.getGame 1
       (storage (snd (on_message 2 0 (mkConn (Some "s2"%string) (Some 1))
                        (Scenario.word "  zyzzyva  ") (world Scenario.lobby)))))
  = Some (Some "zyzzyva"%string).
Proof.
  pose proof (submitWord_stores_trimmed_word 2 0 (mkConn (Some "s2"%string) (Some 1))
                (Payload.mk None (Some 1) None None None (Some "  zyzzyva  "%string)
                   None None None None)
                (world Scenario.lobby) 1 "s2"%string
                (Player.mk 2 1 "Player 12" "s2" "player" false false 0)
                eq_refl eq_refl eq_refl) as H.
  cbv zeta in H. destruct H as (_ & H).
  destruct (H (Game.mk 1 "ABC123" 1 (Some EmptyString) true "2025-01-01" 1) eq_refl eq_refl)
    as (word & stored & Ew & Eg & Es & _).
  injection Ew as <-. unfold Scenario.word. rewrite Eg, Es. reflexivity.
Defined.

(** ** A connection whose game id names no game *)

(** X7.  When the game of the connection is not stored, the commands that
    start with a write to the game fail as a whole: [endSubmissions],
    [endVoting] and [newRound] from a non-spectator, [submitWord] with a
    word that is not blank, and [cancelRound] from an admin are answered
    with "An error occurred" and change nothing else. *)
Theorem game_commands_fail_without_game (ws randomId : Z) (cv : ConnVars)
    (payload : option Payload.t) (w : World) (gameId : Z) (sessionId : string)
    (sender : Player.t) :
  joined cv = Some (gameId, sessionId) ->
  Storage.getPlayerBySessionId sessionId (storage w) = Some sender ->
  Storage.getGame gameId (storage w) = None ->
  let failed := push_sent w (ws, ErrorMsg "An error occurred") in
  (is_spectator sender = false ->
   forall type, In type ["endSubmissions"; "endVoting"; "newRound"]%string ->
   snd (on_message ws randomId cv (Envelope type payload) w) = failed)
  /\ (is_spectator sender = false ->
      forall p, blank (Payload.word p) = false ->
      snd (on_message ws randomId cv (Envelope "submitWord" (Some p)) w) = failed)
  /\ (Player.isAdmin sender = true ->
      snd (on_message ws randomId cv (Envelope "cancelRound" payload) w) = failed).
Proof.
  intros Hj Hs Hg failed. unfold failed. split; [|split].
  - intros Hn type HIn. simpl in HIn.
    repeat (destruct HIn as [<-|HIn]; [enter_case Hj|]); try contradiction.
    + unfold try_catch, endSubmissions, bind at 1, query at 1. rewrite Hs, Hn.
      unfold bind at 1, call at 1, Storage.updateGamePhase. rewrite Hg. reflexivity.
    + unfold try_catch, endVoting, bind at 1, query at 1. rewrite Hs, Hn.
      unfold bind at 1, call at 1, Storage.updateGamePhase. rewrite Hg. reflexivity.
    + unfold try_catch, newRound, bind at 1, query at 1. rewrite Hs, Hn.
      unfold bind at 1, call at 1, Storage.startNewRound. rewrite Hg. reflexivity.
  - intros Hn p Hb. enter_case Hj.
    unfold try_catch, submitWord, bind at 1, query at 1. rewrite Hs, Hn.
    unfold bind at 1, payload_of, ret at 1. rewrite valid_word_blank, Hb.
    destruct (Payload.word p) as [word|]; [|discriminate Hb].
    unfold bind at 1, call at 1, Storage.updateGameWord. rewrite Hg. reflexivity.
  - intros Ha. enter_case Hj.
    unfold try_catch, cancelRound, bind at 1, query at 1. rewrite Hs, Ha. cbn [negb].
    unfold bind at 1, call at 1, Storage.cancelRound. rewrite Hg. reflexivity.
Qed.

(** On the scenario: player 2, on a connection that named game 99. *)
Lemma game_commands_fail_without_game_witness :
  snd (on_message 2 0 (mkConn (Some "s2"%string) (Some 99))
         (Scenario.control "endVoting" 1) (world Scenario.voted))
  = push_sent (world Scenario.voted) (2, ErrorMsg "An error occurred").
Proof.
  pose proof (game_commands_fail_without_game 2 0 (mkConn (Some "s2"%string) (Some 99))
                (Some (Payload.mk None (Some 1) None None (Some 1) None None None None None))
                (world Scenario.voted) 99 "s2"%string
                (Player.mk 2 1 "Player 12" "s2" "player" false false 0)
                eq_refl eq_refl eq_refl) as H.
  cbv zeta in H. destruct H as (H & _).
  exact (H eq_refl "endVoting"%string (or_intror (or_introl eq_refl))).
Defined.

(** X8.  The commands that write before they read the game keep their write
    when the game of the connection is not stored: [submitDefinition] and
    [submitVote] store their row under the missing game id, [awardBonus]
    adds the 3 points, [removePlayer] removes the player with its rows; the
    sender is then answered with "An error occurred" and nobody gets a
    game state. *)
Theorem writes_survive_missing_game (ws randomId : Z) (cv : ConnVars) (p : Payload.t)
    (w : World) (gameId : Z) (sessionId : string) (sender : Player.t) :
  joined cv = Some (gameId, sessionId) ->
  Storage.getPlayerBySessionId sessionId (storage w) = Some sender ->
  Storage.getGame gameId (storage w) = None ->
  let failed s := push_sent (set_storage w s) (ws, ErrorMsg "An error occurred") in
  (is_spectator sender = false ->
   existsb (fun def => Definition_.playerId def =? Player.id sender)
     (Storage.getDefinitionsByGameId gameId (Js.or_one (Payload.round p)) (storage w)) = false ->
   snd (on_message ws randomId cv (Envelope "submitDefinition" (Some p)) w)
   = failed (snd (Storage.createDefinition
                    (InsertDefinition.mk gameId (Player.id sender)
                       (Some (Js.or_one (Payload.round p))) (Payload.text p)
                       (Some (Js.nullish (Payload.isCorrect p) false)))
                    (storage w))))
  /\ (is_spectator sender = false ->
      existsb (fun vote => Vote.playerId vote =? Player.id sender)
        (Storage.getVotesByGameId gameId (Js.or_one (Payload.round p)) (storage w)) = false ->
      snd (on_message ws randomId cv (Envelope "submitVote" (Some p)) w)
      = failed (snd (Storage.createVote
                       (InsertVote.mk gameId (Player.id sender) (Payload.definitionId p)
                          (Some (Js.or_one (Payload.round p))))
                       (storage w))))
  /\ (Player.isAdmin sender = true ->
      forall target q,
        Js.truthy_num (Payload.playerId p) = Some target ->
        Storage.getPlayer target (storage w) = Some q ->
        (Player.isSpectator q = false ->
         snd (on_message ws randomId cv (Envelope "awardBonus" (Some p)) w)
         = failed (Storage.set_players (storage w)
                     (JsMap.set Z.eqb target (Player.with_score q (Player.score q + 3))
                        (st_players (storage w)))))
        /\ exists s',
             Storage.removePlayer target (storage w) = Ok (tt, s')
             /\ snd (on_message ws randomId cv (Envelope "removePlayer" (Some p)) w)
                = failed s').
Proof.
  intros Hj Hs Hg failed. unfold failed. split; [|split].
  - intros Hn Hnew. enter_case Hj.
    unfold try_catch, submitDefinition, bind at 1, query at 1. rewrite Hs, Hn.
    unfold bind at 1, payload_of, ret at 1. unfold bind at 1, query at 1. rewrite Hnew.
    unfold bind at 1, create at 1. cbn [Storage.createDefinition snd].
    rewrite snapshot_missing_game by exact Hg. reflexivity.
  - intros Hn Hnew. enter_case Hj.
    unfold try_catch, submitVote, bind at 1, query at 1. rewrite Hs, Hn.
    unfold bind at 1, payload_of, ret at 1. unfold bind at 1, query at 1. rewrite Hnew.
    unfold bind at 1, create at 1. cbn [Storage.createVote snd].
    rewrite snapshot_missing_game by exact Hg. reflexivity.
  - intros Ha target q Hp Hq. split.
    + intros Hsp. enter_case Hj.
      unfold try_catch, awardBonus, bind at 1, query at 1. rewrite Hs, Ha. cbn [negb].
      unfold bind at 1, payload_of, ret at 1. rewrite Hp.
      unfold bind at 1, query at 1. rewrite Hq, Hsp. cbn [negb].
      unfold bind at 1, call at 1, Storage.updatePlayerScore. rewrite Hq.
      unfold bind at 1, query at 1.
      match goal with
      | |- context [Storage.getGame gameId ?s] =>
          change (Storage.getGame gameId s) with (Storage.getGame gameId (storage w))
      end.
      rewrite Hg. reflexivity.
    + rewrite (removePlayer_run target (storage w) q Hq). eexists. split; [reflexivity|].
      enter_case Hj. unfold try_catch.
      rewrite (removePlayer_case_run ws gameId sessionId p w sender target Hs Ha Hp).
      rewrite (removePlayer_run target (storage w) q Hq).
      rewrite snapshot_missing_game by exact Hg. reflexivity.
Qed.

(** On the scenario: player 2, on a connection that named game 99, sends a
    definition; it is stored for game 99. *)
Lemma writes_survive_missing_game_witness :
  let w' := snd (on_message 2 0 (mkConn (Some "s2"%string) (Some 99))
                   (Scenario.definition "a small owl" false 1) (world Scenario.voted)) in
  Storage.getDefinitionsByGameId 99 1 (storage w')
  = [Definition_.mk 3 99 2 1 (Some "a small owl"%string) false]
  /\ sent w' = sent (world Scenario.voted) ++ [(2, ErrorMsg "An error occurred")].
Proof.
  pose proof (writes_survive_missing_game 2 0 (mkConn (Some "s2"%string) (Some 99))
                (Payload.mk None (Some 1) None None (Some 1) None (Some "a small owl"%string)
                   (Some false) None None)
                (world Scenario.voted) 99 "s2"%string
                (Player.mk 2 1 "Player 12" "s2" "player" false false 0)
                eq_refl eq_refl eq_refl) as H.
  cbv zeta in H. destruct H as (H & _). specialize (H eq_refl eq_refl).
  cbv zeta. unfold Scenario.definition. rewrite H. split; reflexivity.
Defined.

(** ** What no sequence of socket events changes *)

(** X9.  The socket server neither creates nor deletes a game: after any
    list of events the [games] map has the same keys in the same order and
    [gameIdCounter] is unchanged, and every game keeps its id, code,
    dictionary flag and creation time, with a round number that is not
    lower than before. *)
Theorem games_outlive_events (sv : Server) (es : list Event) :
  games_kept (storage (world sv)) (storage (world (run sv es))).
Proof. exact (games_kept_writes _ _ (run_writes es sv)). Qed.

(** X10.  From a well-formed storage, after any list of socket events:
    [playerIdCounter] is not lower; a player stored before is either gone
    or stored under the same id with the same game, name, session id, role
    and flags and a score that is not lower; an id below the counter that
    named no player names none afterwards, so ids are not reused. *)
Theorem players_keep_identity (sv : Server) (es : list Event) :
  wf_store (storage (world sv)) ->
  players_kept (storage (world sv)) (storage (world (run sv es))).
Proof. intros Hwf. exact (players_kept_writes _ _ Hwf (run_writes es sv)). Qed.

(** On the scenario: the scoring of the round. *)
Lemma players_keep_identity_witness :
  players_kept (storage (world Scenario.voted))
    (storage (world (run Scenario.voted [Message 1 0 (Scenario.control "endVoting" 1)]))).
Proof.
  exact (players_keep_identity Scenario.voted [Message 1 0 (Scenario.control "endVoting" 1)]
           voted_wf).
Defined.

(** X11.  From a well-formed storage in which no two players share a
    session id, no list of socket events stores two players with the same
    session id: [join] creates a player only for a session id that resolves
    to nobody. *)
Theorem sessions_stay_unique (sv : Server) (es : list Event) :
  wf_store (storage (world sv)) ->
  unique_sessions (storage (world sv)) ->
  unique_sessions (storage (world (run sv es))).
Proof.
  intros Hwf H. exact (proj1 (rows_kept_writes _ _ Hwf (run_writes es sv)) H).
Qed.

Lemma sessions_stay_unique_witness :
  unique_sessions
    (storage (world (run (boot Scenario.store0) (Scenario.arrivals ++ Scenario.writing)))).
Proof.
  exact (sessions_stay_unique (boot Scenario.store0) (Scenario.arrivals ++ Scenario.writing)
           store0_wf (proj1 (no_players_consistent Scenario.store0 eq_refl))).
Defined.

(** X12.  From a well-formed storage in which every game has at most one
    admin, no list of socket events gives a game a second admin: [join]
    makes a player admin only when the game has no player at all. *)
Theorem one_admin_per_game (sv : Server) (es : list Event) :
  wf_store (storage (world sv)) ->
  one_admin (storage (world sv)) ->
  one_admin (storage (world (run sv es))).
Proof.
  intros Hwf H. exact (proj1 (proj2 (rows_kept_writes _ _ Hwf (run_writes es sv))) H).
Qed.

Lemma one_admin_per_game_witness :
  one_admin
    (storage (world (run (boot Scenario2.store2)
                       [Connect 1; Message 1 11 (Scenario.join_as "s1" 1 None);
                        Message 1 0 (Scenario.target "removePlayer" 1);
                        Connect 2; Message 2 12 (Scenario.join_as "s2" 1 None)]))).
Proof.
  exact (one_admin_per_game (boot Scenario2.store2)
           [Connect 1; Message 1 11 (Scenario.join_as "s1" 1 None);
            Message 1 0 (Scenario.target "removePlayer" 1);
            Connect 2; Message 2 12 (Scenario.join_as "s2" 1 None)]
           (wf_store_createGame Scenario2.game_row2 Scenario.store0 store0_wf)
           (proj1 (proj2 (no_players_consistent Scenario2.store2 eq_refl)))).
Defined.

(** X13.  From a well-formed storage, socket events keep every player in a
    stored game, and every definition and every vote with a round that is
    not 0 and an author who is stored and is not a spectator: rows are
    created for the sender's own player, and [removePlayer] deletes a
    player's rows with the player. *)
Theorem rows_keep_their_author (sv : Server) (es : list Event) :
  wf_store (storage (world sv)) ->
  players_in_games (storage (world sv)) ->
  rows_authored (storage (world sv)) ->
  players_in_games (storage (world (run sv es)))
  /\ rows_authored (storage (world (run sv es))).
Proof.
  intros Hwf Hp Hr.
  destruct (rows_kept_writes _ _ Hwf (run_writes es sv)) as (_ & _ & A & B).
  split; [exact (A Hp)|exact (B Hr)].
Qed.

Lemma rows_keep_their_author_witness :
  players_in_games
    (storage (world (run (boot Scenario.store0)
                       (Scenario.arrivals ++ Scenario.writing ++ Scenario.ballots))))
  /\ rows_authored
       (storage (world (run (boot Scenario.store0)
                          (Scenario.arrivals ++ Scenario.writing ++ Scenario.ballots)))).
Proof.
  exact (rows_keep_their_author (boot Scenario.store0)
           (Scenario.arrivals ++ Scenario.writing ++ Scenario.ballots)
           store0_wf
           (proj2 (proj2 (no_players_consistent Scenario.store0 eq_refl)))
           (no_rows_authored Scenario.store0 eq_refl eq_refl)).
Defined.

(** ** The registry of connections and rooms *)

(** X14.  Only [join] writes to the registry: a message that is not a
    [join] with a payload (any other type, a message that does not parse, a
    [join] without payload) leaves the closure variables of the connection,
    [connections], [gameRooms] and the set of closed sockets as they were. *)
Theorem only_join_registers (ws randomId : Z) (cv : ConnVars) (message : Incoming)
    (w : World) :
  (forall p, message <> Envelope "join" (Some p)) ->
  fst (on_message ws randomId cv message w) = cv
  /\ same_registry w (snd (on_message ws randomId cv message w)).
Proof.
  intros H. apply on_message_registry.
  destruct message as [|type [p|]]; [exact I| |exact I].
  intros Ec. apply classify_join in Ec. subst type. exact (H p eq_refl).
Qed.

Lemma only_join_registers_witness :
  same_registry (world Scenario.voted)
    (snd (on_message 1 0 (mkConn (Some "s1"%string) (Some 1))
            (Scenario.target "removePlayer" 3) (world Scenario.voted))).
Proof.
  refine (proj2 (only_join_registers 1 0 (mkConn (Some "s1"%string) (Some 1))
                   (Scenario.target "removePlayer" 3) (world Scenario.voted) _)).
  intros p H. discriminate H.
Defined.

(** X15.  What [join] does to the registry, whether or not the game
    exists: the closure variables become the payload's [sessionId] and
    [gameId]; a session id that is not empty is registered for this socket,
    replacing the socket registered before; with a game id that is not 0 as
    well, the session id is added to the room of that game, created if
    needed.  The closed sockets are as before. *)
Theorem join_registry_effect (ws randomId : Z) (cv : ConnVars) (p : Payload.t) (w : World) :
  let cv' := fst (on_message ws randomId cv (Envelope "join" (Some p)) w) in
  let w' := snd (on_message ws randomId cv (Envelope "join" (Some p)) w) in
  cv' = mkConn (Payload.sessionId p) (Payload.gameId p)
  /\ connections w'
     = match Js.truthy_str (Payload.sessionId p) with
       | Some sid => JsMap.set String.eqb sid ws (connections w)
       | None => connections w
       end
  /\ gameRooms w'
     = match Js.truthy_num (Payload.gameId p), Js.truthy_str (Payload.sessionId p) with
       | Some g, Some sid => add_to_room g sid (gameRooms w)
       | _, _ => gameRooms w
       end
  /\ notOpen w' = notOpen w.
Proof.
  cbv zeta. split; [reflexivity|]. rewrite on_message_join.
  destruct (join_registry_run ws randomId p w) as (Ec & Er & En).
  unfold try_catch. destruct (join ws randomId p w) as [[[]|e] w']; simpl in *; auto.
Qed.

(** X16.  [join] for a game id that names no game answers "Game not found.
    Please check your game code." and stores nothing, but the connection is
    registered and counts as joined: its later commands pass the
    [gameId && sessionId] test. *)
Theorem join_missing_game_still_registers (ws randomId : Z) (cv : ConnVars)
    (p : Payload.t) (w : World) (g : Z) (sid : string) :
  Js.truthy_num (Payload.gameId p) = Some g ->
  Js.truthy_str (Payload.sessionId p) = Some sid ->
  Storage.getGame g (storage w) = None ->
  let cv' := fst (on_message ws randomId cv (Envelope "join" (Some p)) w) in
  let w' := snd (on_message ws randomId cv (Envelope "join" (Some p)) w) in
  w' = push_sent (join_registry ws g sid w)
         (ws, ErrorMsg "Game not found. Please check your game code.")
  /\ storage w' = storage w
  /\ joined cv' = Some (g, sid).
Proof.
  intros Hg Hs Hgame. cbv zeta. rewrite on_message_join.
  assert (Hrun : join ws randomId p w
                 = (Ok tt, push_sent (join_registry ws g sid w)
                             (ws, ErrorMsg "Game not found. Please check your game code."))).
  { rewrite join_unfold, Hg, Hs. unfold bind at 1, query at 1.
    change (storage (join_registry ws g sid w)) with (storage w). rewrite Hgame.
    reflexivity. }
  unfold try_catch. rewrite Hrun.
  split; [reflexivity|]. split; [reflexivity|].
  unfold on_message, conn_after, joined. cbn [fst classify String.eqb Ascii.eqb Bool.eqb
    cv_gameId cv_sessionId].
  rewrite Hg, Hs. reflexivity.
Qed.

(** On the scenario: session [s9] asks for game 99. *)
Lemma join_missing_game_still_registers_witness :
  let cv' := fst (on_message 9 0 (mkConn None None) (Scenario.join_as "s9" 99 None)
                    (world Scenario.voted)) in
  let w' := snd (on_message 9 0 (mkConn None None) (Scenario.join_as "s9" 99 None)
                   (world Scenario.voted)) in
  joined cv' = Some (99, "s9"%string)
  /\ JsMap.get String.eqb "s9"%string (connections w') = Some 9
  /\ room_of 99 w' = ["s9"%string]
  /\ storage w' = storage (world Scenario.voted).
Proof.
  pose proof (join_missing_game_still_registers 9 0 (mkConn None None)
                (Payload.mk (Some "s9"%string) (Some 99) None None (Some 1)
                   None None None None None)
                (world Scenario.voted) 99 "s9"%string eq_refl eq_refl eq_refl) as H.
  cbv zeta in H. destruct H as (Hw & Hst & Hj).
  cbv zeta. unfold Scenario.join_as.
  split; [exact Hj|]. split; [rewrite Hw; reflexivity|].
  split; [rewrite Hw; reflexivity|exact Hst].
Defined.

(** X17.  [join] for a stored game, from a well-formed storage and on an
    open socket: the socket is sent the game state with the joiner's player
    directly, and then once more by the broadcast to the room, which the
    joiner is already a member of; every other new frame is a game state of
    the same snapshot. *)
Theorem join_answers_twice (ws randomId : Z) (cv : ConnVars) (p : Payload.t) (w : World)
    (g : Z) (sid : string) (game0 : Game.t) :
  Js.truthy_num (Payload.gameId p) = Some g ->
  Js.truthy_str (Payload.sessionId p) = Some sid ->
  Storage.getGame g (storage w) = Some game0 ->
  wf_store (storage w) ->
  isOpen ws w = true ->
  let w' := snd (on_message ws randomId cv (Envelope "join" (Some p)) w) in
  exists gs player fs,
    Storage.getPlayerBySessionId sid (storage w') = Some player
    /\ sent w' = sent w ++ (ws, GameStateMsg gs player) :: fs
    /\ In (ws, GameStateMsg gs player) fs
    /\ Forall (fun f => exists q, snd f = GameStateMsg gs q) fs.
Proof.
  intros Hg Hs Hgame Hwf Hopen. cbv zeta. rewrite on_message_join. unfold try_catch.
  destruct (join_run ws randomId p w g sid game0 Hg Hs Hgame) as (gs & _ & Hrun).
  rewrite Hrun. clear Hrun.
  set (s1 := join_storage g sid p randomId (storage w)).
  set (w1 := set_storage (join_registry ws g sid w) s1).
  set (player := join_player g sid p randomId (storage w)).
  assert (Hp : Storage.getPlayerBySessionId sid s1 = Some player).
  { unfold s1, player, join_storage, join_player.
    destruct (Storage.getPlayerBySessionId sid (storage w)) as [q|] eqn:Eq; [exact Eq|].
    rewrite (getPlayerBySessionId_created _ sid (storage w) Hwf), Eq.
    cbn [join_insert InsertPlayer.sessionId]. rewrite String.eqb_refl. reflexivity. }
  exists gs, player, (frames w1 gs (room_of g w1)).
  split; [exact Hp|]. split; [reflexivity|]. split; [|apply frames_are_states].
  apply (In_frames w1 gs _ sid).
  - exact (In_room_after_join ws g sid w).
  - unfold frame_for, w1. cbn [connections set_storage join_registry set_gameRooms
      set_connections storage].
    rewrite (get_set string Z String.eqb String.eqb_eq), String.eqb_refl.
    change (isOpen ws _) with (isOpen ws w). rewrite Hopen, Hp. reflexivity.
Qed.

(** On the scenario: session [s9] joins game 1 on socket 9. *)
Lemma join_answers_twice_witness :
  let w := world Scenario.voted in
  let w' := snd (on_message 9 19 (mkConn None None) (Scenario.join_as "s9" 1 None) w) in
  exists gs player fs,
    Storage.getPlayerBySessionId "s9" (storage w') = Some player
    /\ sent w' = sent w ++ (9, GameStateMsg gs player) :: fs
    /\ In (9, GameStateMsg gs player) fs
    /\ Forall (fun f => exists q, snd f = GameStateMsg gs q) fs.
Proof.
  exact (join_answers_twice 9 19 (mkConn None None)
           (Payload.mk (Some "s9"%string) (Some 1) None None (Some 1)
              None None None None None)
           (world Scenario.voted) 1 "s9"%string
           (Game.mk 1 "ABC123" 3 (Some "zyzzyva"%string) true "2025-01-01" 1)
           eq_refl eq_refl eq_refl voted_wf eq_refl).
Defined.

(** X18.  [close] on a connection whose session id is not empty: the
    storage and the frames are untouched, so the player and its rows stay;
    the socket counts as closed; the session id is deleted from
    [connections] whatever socket is registered under it, so the session is
    no longer served by a broadcast; and it is no longer in the room of the
    connection's game, while every other room is as before. *)
Theorem close_unregisters_session (ws : Z) (cv : ConnVars) (w : World) (sid : string) :
  Js.truthy_str (cv_sessionId cv) = Some sid ->
  let w' := on_close ws cv w in
  storage w' = storage w
  /\ sent w' = sent w
  /\ notOpen w' = ws :: notOpen w
  /\ connections w' = JsMap.delete String.eqb sid (connections w)
  /\ live w' sid = false
  /\ (forall g, Js.truthy_num (cv_gameId cv) = Some g -> ~ In sid (room_of g w'))
  /\ (forall g, Js.truthy_num (cv_gameId cv) <> Some g -> room_of g w' = room_of g w).
Proof.
  intros Hs. cbv zeta. unfold on_close. rewrite Hs.
  assert (Hgone : forall room, ~ In sid (JsSet.delete sid room)).
  { intros room HIn. unfold JsSet.delete in HIn. apply filter_In in HIn.
    destruct HIn as [_ H]. rewrite String.eqb_refl in H. discriminate. }
  assert (Hlive : forall w1, connections w1 = JsMap.delete String.eqb sid (connections w) ->
                             live w1 sid = false).
  { intros w1 E. unfold live. rewrite E.
    rewrite (get_delete string Z String.eqb String.eqb_eq), String.eqb_refl. reflexivity. }
  destruct (Js.truthy_num (cv_gameId cv)) as [g|] eqn:Eg.
  - cbn [gameRooms set_connections connections].
    destruct (JsMap.get Z.eqb g (gameRooms w)) as [room|] eqn:Er.
    + destruct (List.length (JsSet.delete sid room) =? 0)%nat eqn:El.
      * split; [reflexivity|]. split; [reflexivity|]. split; [reflexivity|].
        split; [reflexivity|]. split; [apply Hlive; reflexivity|]. split.
        -- intros g' E. injection E as <-. unfold room_of.
           cbn [gameRooms set_gameRooms]. rewrite zget_delete, Z.eqb_refl. intros [].
        -- intros g' Hne. unfold room_of. cbn [gameRooms set_gameRooms set_connections].
           rewrite zget_delete. destruct (Z.eqb_spec g' g) as [->|_]; [|reflexivity].
           exfalso. apply Hne. reflexivity.
      * split; [reflexivity|]. split; [reflexivity|]. split; [reflexivity|].
        split; [reflexivity|]. split; [apply Hlive; reflexivity|]. split.
        -- intros g' E. injection E as <-. unfold room_of.
           cbn [gameRooms set_gameRooms]. rewrite zget_set, Z.eqb_refl. apply Hgone.
        -- intros g' Hne. unfold room_of. cbn [gameRooms set_gameRooms set_connections].
           rewrite zget_set. destruct (Z.eqb_spec g' g) as [->|_]; [|reflexivity].
           exfalso. apply Hne. reflexivity.
    + split; [reflexivity|]. split; [reflexivity|]. split; [reflexivity|].
      split; [reflexivity|]. split; [apply Hlive; reflexivity|]. split.
      * intros g' E. injection E as <-. unfold room_of.
        cbn [gameRooms set_connections]. rewrite Er. intros [].
      * intros g' _. reflexivity.
  - split; [reflexivity|]. split; [reflexivity|]. split; [reflexivity|].
    split; [reflexivity|]. split; [apply Hlive; reflexivity|]. split.
    + intros g' E. discriminate E.
    + intros g' _. reflexivity.
Qed.

(** On the scenario: session [s3] is registered on socket 9 when its first
    socket, 3, closes; socket 9 is open and no longer served. *)
Lemma close_unregisters_session_witness :
  let w := world Scenario.reconnected in
  let w' := on_close 3 (mkConn (Some "s3"%string) (Some 1)) w in
  JsMap.get String.eqb "s3"%string (connections w) = Some 9
  /\ isOpen 9 w' = true
  /\ live w "s3"%string = true
  /\ live w' "s3"%string = false.
Proof.
  pose proof (close_unregisters_session 3 (mkConn (Some "s3"%string) (Some 1))
                (world Scenario.reconnected) "s3"%string eq_refl) as H.
  cbv zeta in H. destruct H as (_ & _ & _ & _ & Hlive & _).
  cbv zeta. split; [reflexivity|]. split; [reflexivity|]. split; [reflexivity|exact Hlive].
Defined.

(** X19.  The registry stays a pair of maps under any list of events: no
    session id is registered twice, no room is listed twice, no session id
    is twice in a room, and no room without a session is kept. *)
Theorem registry_stays_wf (sv : Server) (es : list Event) :
  registry_wf (world sv) -> registry_wf (world (run sv es)).
Proof. apply registry_wf_run. Qed.

Lemma registry_stays_wf_witness :
  registry_wf
    (world (run (boot Scenario.store0)
              (Scenario.arrivals ++ [Close 3; Close 8; Connect 9;
                                     Message 9 19 (Scenario.join_as "s3" 1 None)]))).
Proof.
  apply (registry_stays_wf (boot Scenario.store0)).
  split; [constructor|]. split; [constructor|]. intros g room [].
Defined.

(** ** Messages that are not well formed *)

(** X20.  A message that does not parse, and a [join] without payload, are
    answered with "An error occurred" and change nothing else.  A message
    whose type is none of the ten labels, and any message but [join] on a
    connection that has not joined, are dropped without an answer.  None of
    them changes the closure variables. *)
Theorem malformed_messages_are_dropped (ws randomId : Z) (cv : ConnVars)
    (payload : option Payload.t) (w : World) :
  on_message ws randomId cv Unparsable w
  = (cv, push_sent w (ws, ErrorMsg "An error occurred"))
  /\ on_message ws randomId cv (Envelope "join" None) w
     = (cv, push_sent w (ws, ErrorMsg "An error occurred"))
  /\ (forall type,
         ~ In type ["join"; "removePlayer"; "submitWord"; "submitDefinition";
                    "endSubmissions"; "submitVote"; "endVoting"; "newRound";
                    "cancelRound"; "awardBonus"]%string ->
         on_message ws randomId cv (Envelope type payload) w = (cv, w))
  /\ (forall type,
         joined cv = None -> type <> "join"%string ->
         on_message ws randomId cv (Envelope type payload) w = (cv, w)).
Proof.
  split; [reflexivity|]. split; [reflexivity|]. split.
  - intros type Hnot.
    assert (Ec : classify type = CUnknown).
    { unfold classify.
      repeat match goal with
             | |- context [String.eqb type ?l] =>
                 destruct (String.eqb_spec type l) as [E|_];
                   [exfalso; apply Hnot; rewrite E; simpl; tauto|]
             end.
      reflexivity. }
    unfold on_message, conn_after, dispatch, try_catch. rewrite Ec.
    destruct payload; reflexivity.
  - intros type Hj Hne.
    assert (Ec : classify type <> CJoin).
    { intros E. exact (Hne (classify_join type E)). }
    unfold on_message, conn_after, dispatch, when_joined, try_catch. rewrite Hj.
    destruct (classify type); try contradiction; destruct payload; reflexivity.
Qed.

(** X21.  A command without payload, on a joined connection whose game is
    stored.  [endSubmissions] and [endVoting] from a non-spectator write the
    phase (3 and 4) before they read the payload: the phase is stored, no
    score changes, nobody gets a game state, and the sender is answered
    "An error occurred".  [submitWord], [submitDefinition] and [submitVote]
    from a non-spectator, and [removePlayer] and [awardBonus] from an admin,
    read the payload first: the answer is the same and nothing is stored. *)
Theorem phase_is_written_before_payload_is_read (ws randomId : Z) (cv : ConnVars)
    (w : World) (gameId : Z) (sessionId : string) (sender : Player.t) (game0 : Game.t) :
  joined cv = Some (gameId, sessionId) ->
  Storage.getPlayerBySessionId sessionId (storage w) = Some sender ->
  Storage.getGame gameId (storage w) = Some game0 ->
  let failed w1 := push_sent w1 (ws, ErrorMsg "An error occurred") in
  let at_phase ph :=
    set_storage w
      (Storage.set_games (storage w)
         (JsMap.set Z.eqb gameId (Game.with_phase game0 ph) (st_games (storage w)))) in
  (is_spectator sender = false ->
   snd (on_message ws randomId cv (Envelope "endSubmissions" None) w) = failed (at_phase 3)
   /\ snd (on_message ws randomId cv (Envelope "endVoting" None) w) = failed (at_phase 4)
   /\ forall type, In type ["submitWord"; "submitDefinition"; "submitVote"]%string ->
        snd (on_message ws randomId cv (Envelope type None) w) = failed w)
  /\ (Player.isAdmin sender = true ->
      forall type, In type ["removePlayer"; "awardBonus"]%string ->
        snd (on_message ws randomId cv (Envelope type None) w) = failed w).
Proof.
  intros Hj Hs Hg failed at_phase. unfold failed, at_phase. split.
  - intros Hn. split; [|split].
    + enter_case Hj. unfold try_catch, endSubmissions, bind at 1, query at 1.
      rewrite Hs, Hn. unfold bind at 1, call at 1.
      rewrite (updateGamePhase_run gameId 3 (storage w) game0 Hg). reflexivity.
    + enter_case Hj. unfold try_catch, endVoting, bind at 1, query at 1.
      rewrite Hs, Hn. unfold bind at 1, call at 1.
      rewrite (updateGamePhase_run gameId 4 (storage w) game0 Hg). reflexivity.
    + intros type HIn. simpl in HIn.
      repeat (destruct HIn as [<-|HIn]; [enter_case Hj|]); try contradiction.
      * unfold try_catch, submitWord, bind at 1, query at 1. rewrite Hs, Hn. reflexivity.
      * unfold try_catch, submitDefinition, bind at 1, query at 1. rewrite Hs, Hn.
        reflexivity.
      * unfold try_catch, submitVote, bind at 1, query at 1. rewrite Hs, Hn. reflexivity.
  - intros Ha type HIn. simpl in HIn.
    repeat (destruct HIn as [<-|HIn]; [enter_case Hj|]); try contradiction.
    + unfold try_catch, removePlayer, bind at 1, query at 1. rewrite Hs, Ha. reflexivity.
    + unfold try_catch, awardBonus, bind at 1, query at 1. rewrite Hs, Ha. reflexivity.
Qed.

(** On the scenario: player 2 ends the voting without a payload. *)
Lemma phase_is_written_before_payload_is_read_witness :
  let w := world Scenario.voted in
  let w' := snd (on_message 2 0 (mkConn (Some "s2"%string) (Some 1))
                   (Envelope "endVoting" None) w) in
  option_map Game.phase (Storage.getGame 1 (storage w)) = Some 3
  /\ option_map Game.phase (Storage.getGame 1 (storage w')) = Some 4
  /\ st_players (storage w') = st_players (storage w)
  /\ sent w' = sent w ++ [(2, ErrorMsg "An error occurred")].
Proof.
  pose proof (phase_is_written_before_payload_is_read 2 0
                (mkConn (Some "s2"%string) (Some 1)) (world Scenario.voted) 1 "s2"%string
                (Player.mk 2 1 "Player 12" "s2" "player" false false 0)
                (Game.mk 1 "ABC123" 3 (Some "zyzzyva"%string) true "2025-01-01" 1)
                eq_refl eq_refl eq_refl) as H.
  cbv zeta in H. destruct H as (H & _). destruct (H eq_refl) as (_ & Hv & _).
  cbv zeta. rewrite Hv. repeat split.
Defined.

(** ** The storage *)

(** X22.  [createPlayer] on a well-formed storage: the new player has the
    next id and score 0, is found under its id, and is appended to the
    players of its game; a session id resolves to the player it resolved to
    before, and to the new player only when it resolved to nobody; the
    storage stays well formed. *)
Theorem createPlayer_round_trip (ins : InsertPlayer.t) (s : MemStorage) :
  wf_store s ->
  let p := fst (Storage.createPlayer ins s) in
  let s' := snd (Storage.createPlayer ins s) in
  wf_store s'
  /\ Player.id p = playerIdCounter s
  /\ Player.score p = 0
  /\ (forall k, Storage.getPlayer k s'
                = if k =? Player.id p then Some p else Storage.getPlayer k s)
  /\ (forall g, Storage.getPlayersByGameId g s'
                = Storage.getPlayersByGameId g s
                  ++ (if InsertPlayer.gameId ins =? g then [p] else []))
  /\ (forall sid, Storage.getPlayerBySessionId sid s'
                  = match Storage.getPlayerBySessionId sid s with
                    | Some q => Some q
                    | None => if String.eqb (InsertPlayer.sessionId ins) sid
                              then Some p else None
                    end).
Proof.
  intros Hwf. cbv zeta. split; [|split; [reflexivity|split; [reflexivity|split; [|split]]]].
  - destruct Hwf as (Hg & Hp & Hd & Hv).
    split; [exact Hg|]. split; [|split; [exact Hd|exact Hv]].
    cbn [Storage.createPlayer snd st_players playerIdCounter].
    apply keyed_fresh; [exact Hp|reflexivity].
  - intros k. unfold Storage.getPlayer. cbn [Storage.createPlayer snd fst st_players Player.id].
    apply zget_set.
  - intros g. exact (getPlayersByGameId_created ins g s Hwf).
  - intros sid. exact (getPlayerBySessionId_created ins sid s Hwf).
Qed.

(** On the scenario: a second player for session [s1], as the REST route
    can create one, is not the one the session resolves to. *)
Lemma createPlayer_round_trip_witness :
  let ins := InsertPlayer.mk 1 "Copy" "s1" None None None in
  let s' := snd (Storage.createPlayer ins (storage (world Scenario.voted))) in
  option_map Player.id (Storage.getPlayerBySessionId "s1" s') = Some 1
  /\ option_map Player.name (Storage.getPlayer 9 s') = Some "Copy"%string.
Proof.
  pose proof (createPlayer_round_trip (InsertPlayer.mk 1 "Copy" "s1" None None None)
                (storage (world Scenario.voted)) voted_wf) as H.
  cbv zeta in H. destruct H as (_ & _ & _ & Hk & _ & Hs).
  cbv zeta. rewrite (Hs "s1"%string), (Hk 9). split; reflexivity.
Defined.

(** X23.  [updatePlayerScore], for an id, a stored score and increments
    that are safe integers with safe sums (where the [+] of the source is
    the addition of integers).  It throws "Player with id N not found" for
    an id that names no player.  Otherwise it returns the player with the
    increment added to the score, stores it under the same id at the same
    place, and leaves the other players alone; two updates of one player
    are one update by the sum. *)
Theorem updatePlayerScore_adds (id n m : Z) (s : MemStorage) :
  safe_integer id ->
  safe_integer n -> safe_integer m -> safe_integer (n + m) ->
  (forall p, Storage.getPlayer id s = Some p ->
             safe_integer (Player.score p)
             /\ safe_integer (Player.score p + n)
             /\ safe_integer (Player.score p + n + m)) ->
  match Storage.getPlayer id s with
  | None => Storage.updatePlayerScore id n s = Throw (Storage.not_found "Player" id)
  | Some p =>
      exists s1,
        Storage.updatePlayerScore id n s
        = Ok (Player.with_score p (Player.score p + n), s1)
        /\ Storage.getPlayer id s1 = Some (Player.with_score p (Player.score p + n))
        /\ (forall k, k <> id -> Storage.getPlayer k s1 = Storage.getPlayer k s)
        /\ JsMap.keys (st_players s1) = JsMap.keys (st_players s)
        /\ exists s2,
             Storage.updatePlayerScore id m s1
             = Ok (Player.with_score p (Player.score p + n + m), s2)
             /\ Storage.updatePlayerScore id (n + m) s
                = Ok (Player.with_score p (Player.score p + (n + m)), s2)
  end.
Proof.
  intros _ _ _ _ _.
  (* The bounds say where the integers of the model are the numbers of the
     source; the equations below hold of the integers. *)
  destruct (Storage.getPlayer id s) as [p|] eqn:Ep.
  - eexists. split; [unfold Storage.updatePlayerScore; rewrite Ep; reflexivity|].
    assert (Hw : Storage.getPlayer id
                   (Storage.set_players s
                      (JsMap.set Z.eqb id (Player.with_score p (Player.score p + n))
                         (st_players s)))
                 = Some (Player.with_score p (Player.score p + n))).
    { unfold Storage.getPlayer. cbn [Storage.set_players st_players].
      rewrite zget_set, Z.eqb_refl. reflexivity. }
    split; [exact Hw|]. split; [|split].
    + intros k Hk. unfold Storage.getPlayer. cbn [Storage.set_players st_players].
      rewrite zget_set. destruct (Z.eqb_spec k id); [contradiction|reflexivity].
    + cbn [Storage.set_players st_players].
      apply (keys_set_present Z Player.t Z.eqb Z.eqb_eq).
      unfold JsMap.has. unfold Storage.getPlayer in Ep. rewrite Ep. reflexivity.
    + eexists. split.
      * unfold Storage.updatePlayerScore at 1. rewrite Hw. reflexivity.
      * unfold Storage.updatePlayerScore. rewrite Ep.
        cbn [Storage.set_players st_players Player.with_score Player.score Player.id
             Player.gameId Player.name Player.sessionId Player.role Player.isAdmin
             Player.isSpectator st_games st_definitions st_votes gameIdCounter
             playerIdCounter definitionIdCounter voteIdCounter].
        rewrite set_set. rewrite Z.add_assoc. reflexivity.
  - unfold Storage.updatePlayerScore. rewrite Ep. reflexivity.
Qed.

(** On the scenario, after the scoring: player 2, who has 2 points, gets 3
    and then 4. *)
Lemma updatePlayerScore_adds_witness :
  let s := storage (world Scenario.results) in
  exists p1 s1 p2 s2,
    Storage.updatePlayerScore 2 3 s = Ok (p1, s1)
    /\ Storage.updatePlayerScore 2 4 s1 = Ok (p2, s2)
    /\ Storage.updatePlayerScore 2 7 s = Ok (p2, s2)
    /\ Player.score p1 = 5
    /\ Player.score p2 = 9.
Proof.
  cbv zeta.
  assert (Hsafe : forall x, -100 <= x <= 100 -> safe_integer x).
  { intros x Hx. unfold safe_integer. lia. }
  assert (Ep : Storage.getPlayer 2 (storage (world Scenario.results))
               = Some (Player.mk 2 1 "Player 12" "s2" "player" false false 2))
    by reflexivity.
  pose proof (updatePlayerScore_adds 2 3 4 (storage (world Scenario.results))) as H.
  rewrite Ep in H.
  destruct H as (s1 & H1 & _ & _ & _ & s2 & H2 & H3).
  - apply Hsafe; lia.
  - apply Hsafe; lia.
  - apply Hsafe; lia.
  - apply Hsafe; lia.
  - intros p Hp. injection Hp as <-. cbn [Player.score].
    split; [apply Hsafe; lia|]. split; apply Hsafe; lia.
  - exists (Player.with_score (Player.mk 2 1 "Player 12" "s2" "player" false false 2) (2 + 3)),
      s1,
      (Player.with_score (Player.mk 2 1 "Player 12" "s2" "player" false false 2) (2 + 3 + 4)),
      s2.
    split; [exact H1|]. split; [exact H2|]. split; [exact H3|]. split; reflexivity.
Defined.

(** X24.  [clearDefinitionsAndVotesByRound] on a well-formed storage
    removes exactly the definitions and the votes of the given game and
    round: games, players and counters are untouched, the rows of any other
    game or round are returned as before, and clearing again changes
    nothing. *)
Theorem clear_round_is_exact (g r : Z) (s : MemStorage) :
  wf_store s ->
  let s' := Storage.clearDefinitionsAndVotesByRound g r s in
  st_games s' = st_games s
  /\ st_players s' = st_players s
  /\ st_definitions s'
     = filter (fun e => negb ((Definition_.gameId (snd e) =? g)
                              && (Definition_.round (snd e) =? r))) (st_definitions s)
  /\ st_votes s'
     = filter (fun e => negb ((Vote.gameId (snd e) =? g) && (Vote.round (snd e) =? r)))
         (st_votes s)
  /\ (forall g' r', (g' =? g) && (r' =? r) = false ->
        Storage.getDefinitionsByGameId g' r' s' = Storage.getDefinitionsByGameId g' r' s
        /\ Storage.getVotesByGameId g' r' s' = Storage.getVotesByGameId g' r' s)
  /\ Storage.clearDefinitionsAndVotesByRound g r s' = s'.
Proof.
  intros (_ & _ & Hd & Hv). cbv zeta.
  assert (Ed : st_definitions (Storage.clearDefinitionsAndVotesByRound g r s)
               = filter (fun e => negb ((Definition_.gameId (snd e) =? g)
                                        && (Definition_.round (snd e) =? r)))
                   (st_definitions s)).
  { unfold Storage.clearDefinitionsAndVotesByRound, Storage.round_def_ids.
    cbn [st_definitions Storage.set_votes Storage.set_definitions].
    exact (delete_keys_of Definition_.t _ _ (proj1 Hd)). }
  assert (Ev : st_votes (Storage.clearDefinitionsAndVotesByRound g r s)
               = filter (fun e => negb ((Vote.gameId (snd e) =? g)
                                        && (Vote.round (snd e) =? r))) (st_votes s)).
  { unfold Storage.clearDefinitionsAndVotesByRound, Storage.round_vote_ids.
    cbn [st_votes Storage.set_votes Storage.set_definitions].
    exact (delete_keys_of Vote.t _ _ (proj1 Hv)). }
  split; [reflexivity|]. split; [reflexivity|]. split; [exact Ed|]. split; [exact Ev|].
  split.
  - intros g' r' Hne. unfold Storage.getDefinitionsByGameId, Storage.getVotesByGameId.
    rewrite Ed, Ev.
    rewrite (values_filter_snd Definition_.t
               (fun d => negb ((Definition_.gameId d =? g) && (Definition_.round d =? r)))).
    rewrite (values_filter_snd Vote.t
               (fun v => negb ((Vote.gameId v =? g) && (Vote.round v =? r)))).
    rewrite !filter_filter_and. split; apply filter_ext; intros x.
    + destruct (Z.eqb_spec (Definition_.gameId x) g') as [->|_];
        destruct (Z.eqb_spec (Definition_.round x) r') as [->|_]; simpl;
          rewrite ?Hne, ?andb_false_r; reflexivity.
    + destruct (Z.eqb_spec (Vote.gameId x) g') as [->|_];
        destruct (Z.eqb_spec (Vote.round x) r') as [->|_]; simpl;
          rewrite ?Hne, ?andb_false_r; reflexivity.
  - set (s' := Storage.clearDefinitionsAndVotesByRound g r s) in *.
    assert (Hnd : Storage.round_def_ids g r s' = []).
    { unfold Storage.round_def_ids. rewrite Ed.
      rewrite (filter_none _ (fun e : Z * Definition_.t =>
                 (Definition_.gameId (snd e) =? g) && (Definition_.round (snd e) =? r))).
      reflexivity. }
    assert (Hnv : Storage.round_vote_ids g r s' = []).
    { unfold Storage.round_vote_ids. rewrite Ev.
      rewrite (filter_none _ (fun e : Z * Vote.t =>
                 (Vote.gameId (snd e) =? g) && (Vote.round (snd e) =? r))).
      reflexivity. }
    unfold Storage.clearDefinitionsAndVotesByRound at 1.
    change (Storage.round_vote_ids g r
              (Storage.set_definitions s'
                 (Storage.delete_all (Storage.round_def_ids g r s') (st_definitions s'))))
      with (Storage.round_vote_ids g r s').
    rewrite Hnd, Hnv. destruct s'; reflexivity.
Qed.

(** On the scenario: clearing round 2 of game 1 keeps the rows of round 1. *)
Lemma clear_round_is_exact_witness :
  let s := storage (world Scenario.voted) in
  let s' := Storage.clearDefinitionsAndVotesByRound 1 2 s in
  Storage.getDefinitionsByGameId 1 1 s' = Storage.getDefinitionsByGameId 1 1 s
  /\ Storage.getVotesByGameId 1 1 s' = Storage.getVotesByGameId 1 1 s.
Proof.
  pose proof (clear_round_is_exact 1 2 (storage (world Scenario.voted)) voted_wf) as H.
  cbv zeta in H. destruct H as (_ & _ & _ & _ & H & _).
  exact (H 1 1 eq_refl).
Defined.

(** X25.  Rows are filed under the round the create method stores.  On a
    well-formed storage a new definition is appended to the definitions of
    its game and of the round [round ?? 1], and a new vote to the votes of
    its game and of the round [round || 1]; every other query returns what
    it returned.  So a definition created with round 0 is filed under
    round 0, and a vote created with round 0 under round 1: no vote is ever
    added to round 0. *)
Theorem created_rows_are_found (s : MemStorage) :
  wf_store s ->
  (forall ins g r,
      Storage.getDefinitionsByGameId g r (snd (Storage.createDefinition ins s))
      = Storage.getDefinitionsByGameId g r s
        ++ (if (InsertDefinition.gameId ins =? g)
               && (Js.nullish (InsertDefinition.round ins) 1 =? r)
            then [fst (Storage.createDefinition ins s)] else []))
  /\ (forall ins g r,
         Storage.getVotesByGameId g r (snd (Storage.createVote ins s))
         = Storage.getVotesByGameId g r s
           ++ (if (InsertVote.gameId ins =? g) && (Js.or_one (InsertVote.round ins) =? r)
               then [fst (Storage.createVote ins s)] else []))
  /\ (forall ins g,
         Storage.getVotesByGameId g 0 (snd (Storage.createVote ins s))
         = Storage.getVotesByGameId g 0 s).
Proof.
  intros (_ & _ & Hd & Hv).
  assert (Hvotes : forall ins g r,
             Storage.getVotesByGameId g r (snd (Storage.createVote ins s))
             = Storage.getVotesByGameId g r s
               ++ (if (InsertVote.gameId ins =? g) && (Js.or_one (InsertVote.round ins) =? r)
                   then [fst (Storage.createVote ins s)] else [])).
  { intros ins g r. unfold Storage.getVotesByGameId.
    cbn [Storage.createVote snd fst st_votes].
    rewrite values_set_absent by exact (keyed_counter_absent Vote.t Vote.id _ _ Hv).
    rewrite filter_app. reflexivity. }
  split; [|split; [exact Hvotes|]].
  - intros ins g r. unfold Storage.getDefinitionsByGameId.
    cbn [Storage.createDefinition snd fst st_definitions].
    rewrite values_set_absent
      by exact (keyed_counter_absent Definition_.t Definition_.id _ _ Hd).
    rewrite filter_app. reflexivity.
  - intros ins g. rewrite Hvotes.
    destruct (Z.eqb_spec (Js.or_one (InsertVote.round ins)) 0) as [E|_].
    + destruct (or_one_nonzero _ E).
    + rewrite andb_false_r, app_nil_r. reflexivity.
Qed.

(** On the scenario: a definition and a vote created with round 0. *)
Lemma created_rows_are_found_witness :
  let s := storage (world Scenario.voted) in
  List.length
    (Storage.getDefinitionsByGameId 1 0
       (snd (Storage.createDefinition (InsertDefinition.mk 1 2 (Some 0) None None) s))) = 1%nat
  /\ List.length
       (Storage.getVotesByGameId 1 0
          (snd (Storage.createVote (InsertVote.mk 1 7 (Some 1) (Some 0)) s))) = 0%nat
  /\ List.length
       (Storage.getVotesByGameId 1 1
          (snd (Storage.createVote (InsertVote.mk 1 7 (Some 1) (Some 0)) s))) = 6%nat.
Proof.
  destruct (created_rows_are_found (storage (world Scenario.voted)) voted_wf)
    as (Hd & Hv & _).
  cbv zeta. rewrite Hd, !Hv. repeat split.
Defined.

(** X26.  [createUser] on a [users] map keyed by id: the new user has the
    next id and is found under it, the other ids resolve as before, and the
    map stays keyed.  No user name is checked: a name resolves to the user
    it resolved to before, and to the new user only when it resolved to
    nobody. *)
Theorem createUser_round_trip (ins : InsertUser.t) (s : UserStorage) :
  users_wf s ->
  let u := fst (Users.createUser ins s) in
  let s' := snd (Users.createUser ins s) in
  users_wf s'
  /\ User.id u = userIdCounter s
  /\ (forall k, Users.getUser k s' = if k =? User.id u then Some u else Users.getUser k s)
  /\ (forall name, Users.getUserByUsername name s'
                   = match Users.getUserByUsername name s with
                     | Some x => Some x
                     | None => if String.eqb (InsertUser.username ins) name
                               then Some u else None
                     end).
Proof.
  intros Hwf. cbv zeta. split; [|split; [reflexivity|split]].
  - unfold users_wf. cbn [Users.createUser snd st_users userIdCounter].
    apply keyed_fresh; [exact Hwf|reflexivity].
  - intros k. unfold Users.getUser. cbn [Users.createUser snd fst st_users User.id].
    apply zget_set.
  - intros name. unfold Users.getUserByUsername. cbn [Users.createUser snd fst st_users].
    rewrite values_set_absent by exact (keyed_counter_absent User.t User.id _ _ Hwf).
    rewrite find_app. reflexivity.
Qed.

(** Two users with one name on a fresh process. *)
Lemma createUser_round_trip_witness :
  let s1 := snd (Users.createUser (InsertUser.mk "ann" "pw1") Users.empty) in
  let s2 := snd (Users.createUser (InsertUser.mk "ann" "pw2") s1) in
  option_map User.password (Users.getUserByUsername "ann" s2) = Some "pw1"%string
  /\ option_map User.password (Users.getUser 2 s2) = Some "pw2"%string.
Proof.
  assert (H0 : users_wf Users.empty).
  { split; [constructor|]. intros k v []. }
  pose proof (createUser_round_trip (InsertUser.mk "ann" "pw1") Users.empty H0) as H1.
  cbv zeta in H1. destruct H1 as (H1 & _).
  pose proof (createUser_round_trip (InsertUser.mk "ann" "pw2") _ H1) as H2.
  cbv zeta in H2. destruct H2 as (_ & _ & Hk & Hn).
  cbv zeta. rewrite (Hn "ann"%string), (Hk 2). split; reflexivity.
Defined.

(** X27.  [createGame] on a well-formed storage: the new game has the next
    id and is found under it, the other ids and the players, definitions
    and votes are as before, and the storage stays well formed.  Codes are
    not compared: [getGameByCode] returns the game it returned before, and
    the new game only when the code named no game. *)
Theorem createGame_round_trip (ins : InsertGame.t) (s : MemStorage) :
  wf_store s ->
  let game := fst (Storage.createGame ins s) in
  let s' := snd (Storage.createGame ins s) in
  wf_store s'
  /\ Game.id game = gameIdCounter s
  /\ (forall k, Storage.getGame k s' = if k =? Game.id game then Some game
                                       else Storage.getGame k s)
  /\ (forall code, Games.getGameByCode code s'
                   = match Games.getGameByCode code s with
                     | Some x => Some x
                     | None => if String.eqb (InsertGame.code ins) code
                               then Some game else None
                     end)
  /\ st_players s' = st_players s
  /\ st_definitions s' = st_definitions s
  /\ st_votes s' = st_votes s.
Proof.
  intros Hwf. cbv zeta.
  split; [exact (wf_store_createGame ins s Hwf)|]. split; [reflexivity|].
  split; [|split; [|repeat split]].
  - intros k. unfold Storage.getGame. cbn [Storage.createGame snd fst st_games Game.id].
    apply zget_set.
  - intros code. unfold Games.getGameByCode. cbn [Storage.createGame snd fst st_games].
    rewrite values_set_absent
      by exact (keyed_counter_absent Game.t Game.id _ _ (proj1 Hwf)).
    rewrite find_app. reflexivity.
Qed.

(** On the scenario: a second game that draws the code of game 1. *)
Lemma createGame_round_trip_witness :
  let s' := snd (Storage.createGame Scenario.game_row Scenario.store0) in
  option_map Game.id (Games.getGameByCode "ABC123" s') = Some 1
  /\ option_map Game.code (Storage.getGame 2 s') = Some "ABC123"%string.
Proof.
  pose proof (createGame_round_trip Scenario.game_row Scenario.store0 store0_wf) as H.
  cbv zeta in H. destruct H as (_ & _ & Hk & Hc & _).
  cbv zeta. rewrite (Hc "ABC123"%string), (Hk 2). split; reflexivity.
Defined.

(** ** The plain broadcast helper *)

(** X28.  [broadcastToRoom] returns normally and only appends frames: for
    each session id of the room, in the order of the room, one frame with
    the message on the socket registered for it, when that session id is
    not the excluded one and the socket is open, and no frame otherwise.
    So a socket registered for two session ids of the room is sent the
    message twice.  The storage plays no part: with any other storage the
    same frames are sent. *)
Theorem broadcastToRoom_reaches_open_sockets (gameId : Z) (message : ServerMsg)
    (excludeSessionId : option string) (w : World) :
  let frames_for (sid : string) : list (Z * ServerMsg) :=
    if match Js.truthy_str excludeSessionId with
       | Some e => String.eqb sid e
       | None => false
       end
    then []
    else match JsMap.get String.eqb sid (connections w) with
         | Some c => if isOpen c w then [(c, message)] else []
         | None => []
         end in
  broadcastToRoom gameId message excludeSessionId w
  = (Ok tt, add_sent w (flat_map frames_for (room_of gameId w)))
  /\ forall s,
       broadcastToRoom gameId message excludeSessionId (set_storage w s)
       = (Ok tt, set_storage (add_sent w (flat_map frames_for (room_of gameId w))) s).
Proof.
  cbv zeta. rewrite <- recipients_flat_map. split.
  - apply broadcastToRoom_run.
  - intros s. rewrite broadcastToRoom_run.
    change (room_of gameId (set_storage w s)) with (room_of gameId w).
    rewrite recipients_set_storage. reflexivity.
Qed.

(** On the scenario: sessions [s3] and [s10] are both registered on socket
    3, socket 5 is closing, and session [s1] is excluded. *)
Lemma broadcastToRoom_reaches_open_sockets_witness :
  let w := world Scenario.shared in
  let w1 := mkWorld (storage w) (connections w) (gameRooms w) [5] (sent w) in
  room_of 1 w1 = ["s1"; "s2"; "s3"; "s4"; "s5"; "s6"; "s7"; "s8"; "s10"]%string
  /\ snd (broadcastToRoom 1 (ErrorMsg "hello") (Some "s1"%string) w1)
     = add_sent w1
         (map (fun c => (c, ErrorMsg "hello")) [2; 3; 4; 6; 7; 8; 3]).
Proof.
  cbv zeta. split; [reflexivity|].
  rewrite (proj1 (broadcastToRoom_reaches_open_sockets 1 (ErrorMsg "hello")
                    (Some "s1"%string)
                    (mkWorld (storage (world Scenario.shared))
                       (connections (world Scenario.shared))
                       (gameRooms (world Scenario.shared)) [5]
                       (sent (world Scenario.shared))))).
  reflexivity.
Defined.

(** ** The screens *)

(** X29.  The shuffle of the voting and results screens, with draws
    [0 <= draw i <= i] as [Math.floor(Math.random() * (i + 1))] gives them:
    every swap is inside the array, and for definitions that are not empty
    the list shown is a permutation of them, so each definition is shown
    exactly once.  For an empty list of definitions the effect sets
    nothing: the list shown before stays. *)
Theorem shuffle_is_a_permutation (A : Type) (previous definitions : list A)
    (draw : nat -> nat) :
  (forall i, (draw i <= i)%nat) ->
  (definitions <> [] ->
   exists shown,
     Shuffle.shuffled previous draw definitions = Some shown
     /\ Permutation definitions shown)
  /\ Shuffle.shuffled previous draw [] = Some previous.
Proof.
  intros Hdraw. split; [|reflexivity].
  intros Hne. unfold Shuffle.shuffled.
  destruct definitions as [|d r]; [contradiction|]. cbn [List.length Nat.ltb Nat.leb].
  destruct (shuffle_from_perm A draw (List.length (d :: r) - 1) (d :: r) Hdraw)
    as (shown & E & P & _).
  { simpl. lia. }
  exists shown. split; [exact E|exact P].
Qed.

(** Three definitions, each draw the lowest index. *)
Lemma shuffle_is_a_permutation_witness :
  Shuffle.shuffled [] (fun _ => 0%nat) [1; 2; 3] = Some [2; 3; 1]
  /\ Permutation [1; 2; 3] [2; 3; 1].
Proof.
  destruct (shuffle_is_a_permutation Z [] [1; 2; 3] (fun _ => 0%nat)) as (H & _).
  { intros i. lia. }
  destruct H as (shown & E & P); [discriminate|].
  split; [reflexivity|].
  assert (Es : shown = [2; 3; 1]) by (vm_compute in E; congruence).
  rewrite <- Es. exact P.
Defined.

(** X30.  The browser's flags on a game state it received.  For a
    snapshot taken by [getGameState] at the game's current round (or with
    round 0, which selects it), [hasPlayerVoted] and
    [hasPlayerSubmittedDefinition] are the tests by which [submitVote] and
    [submitDefinition] refuse a second row for that round.  For a snapshot
    of another round both flags are false, whatever the player did in
    either round.  [isSpectator] is the server's spectator test. *)
Theorem client_flags_follow_server_checks (gameId round : Z) (s : MemStorage)
    (gameState : GameState) (me : Player.t) (st : Client.Store) :
  Storage.getGameState gameId round s = Ok (gameState, s) ->
  let st' := Client.handleWebSocketMessage (GameStateMsg gameState me) st in
  let current := Client.getCurrentRound st' in
  Client.isSpectator st' = is_spectator me
  /\ (round = 0 \/ round = current ->
      Client.hasPlayerVoted st'
      = existsb (fun vote => Vote.playerId vote =? Player.id me)
          (Storage.getVotesByGameId gameId (Js.or_one (Some current)) s)
      /\ Client.hasPlayerSubmittedDefinition st'
         = existsb (fun def => Definition_.playerId def =? Player.id me)
             (Storage.getDefinitionsByGameId gameId (Js.or_one (Some current)) s))
  /\ (round <> 0 -> round <> current ->
      Client.hasPlayerVoted st' = false
      /\ Client.hasPlayerSubmittedDefinition st' = false).
Proof.
  intros H. cbv zeta. unfold Storage.getGameState in H.
  destruct (Storage.getGame gameId s) as [game0|]; [|discriminate].
  injection H as <-.
  unfold Client.hasPlayerVoted, Client.hasPlayerSubmittedDefinition, Client.isSpectator,
    Client.getCurrentRound, Client.getVotes, Client.getDefinitions, Client.getCurrentPlayer,
    Client.handleWebSocketMessage.
  cbn [game votes definitions].
  rewrite !or_one_again. fold (Storage.round_of game0).
  split; [unfold is_spectator; apply orb_comm|]. split.
  - intros Hr.
    assert (E : (if round =? 0 then Storage.round_of game0 else round)
                = Storage.round_of game0).
    { destruct Hr as [-> | ->]; [reflexivity|].
      destruct (Storage.round_of game0 =? 0); reflexivity. }
    rewrite E. unfold Storage.getVotesByGameId, Storage.getDefinitionsByGameId. split.
    + apply existsb_filter_same. intros x Hx. apply andb_true_iff in Hx. exact (proj2 Hx).
    + apply existsb_filter_same. intros x Hx. apply andb_true_iff in Hx. exact (proj2 Hx).
  - intros H0 Hne. destruct (Z.eqb_spec round 0) as [E|_]; [contradiction|].
    unfold Storage.getVotesByGameId, Storage.getDefinitionsByGameId. split.
    + apply existsb_filter_other. intros x Hx. apply andb_true_iff in Hx.
      destruct Hx as [_ Hx]. apply Z.eqb_eq in Hx. rewrite Hx. apply Z.eqb_neq. exact Hne.
    + apply existsb_filter_other. intros x Hx. apply andb_true_iff in Hx.
      destruct Hx as [_ Hx]. apply Z.eqb_eq in Hx. rewrite Hx. apply Z.eqb_neq. exact Hne.
Qed.

(** On the scenario: player 4, who voted in round 1, is shown a snapshot
    of round 1 and one of round 2. *)
Lemma client_flags_follow_server_checks_witness :
  let s := storage (world Scenario.voted) in
  let me := Player.mk 4 1 "Player 14" "s4" "player" false false 0 in
  (exists gs, Storage.getGameState 1 1 s = Ok (gs, s)
              /\ Client.hasPlayerVoted
                   (Client.handleWebSocketMessage (GameStateMsg gs me) None) = true)
  /\ (exists gs, Storage.getGameState 1 2 s = Ok (gs, s)
                 /\ Client.hasPlayerVoted
                      (Client.handleWebSocketMessage (GameStateMsg gs me) None) = false).
Proof.
  cbv zeta. split.
  - eexists. split; [reflexivity|].
    pose proof (client_flags_follow_server_checks 1 1 (storage (world Scenario.voted)) _
                  (Player.mk 4 1 "Player 14" "s4" "player" false false 0) None eq_refl) as H.
    cbv zeta in H. destruct H as (_ & H & _).
    destruct (H (or_intror eq_refl)) as (Hv & _). rewrite Hv. reflexivity.
  - eexists. split; [reflexivity|].
    pose proof (client_flags_follow_server_checks 1 2 (storage (world Scenario.voted)) _
                  (Player.mk 4 1 "Player 14" "s4" "player" false false 0) None eq_refl) as H.
    cbv zeta in H. destruct H as (_ & _ & H).
    destruct H as (Hv & _); [discriminate|discriminate|]. exact Hv.
Defined.
